(** * KPI calculator of the fuel-cell / battery dashboard

    A shallow embedding of [kpi_calculator_version2.py].  The module is a
    handful of arithmetic formulas over Python [float]s, so the numbers are
    Rocq's primitive binary64 floats: the same IEEE-754 format, the same
    round-to-nearest-even arithmetic.  What Python adds on top of IEEE-754 is
    modelled explicitly:

    - [/] raises [ZeroDivisionError] on a zero divisor (instead of returning an
      infinity or a NaN), so every function that divides lives in an error
      monad;
    - a function may hand back the [int] literal [0] where its other branch
      hands back a [float]; results are therefore values tagged int or float;
    - [sum] starts from the int [0] and adds the items from left to right
      (the builtin's documented meaning; CPython 3.12 and later refine the
      float case with a compensated sum, which is not modelled);
    - [round(x, 1)] rounds the exact binary value of [x] to one decimal, ties
      to even, and returns the double nearest to that decimal.

    The parameters are annotated [float] in the source; integer literals
    written in a call ([calculate_tank_autonomy(10, 2)]) are read as the
    floats they convert to. *)

From Stdlib Require Import ZArith List Bool Lia String.
From Stdlib Require Import Floats.
Import ListNotations.

Set Warnings "-inexact-float".
Local Open Scope float_scope.

(** ** Python values, exceptions and results *)

Inductive exn : Type :=
| ZeroDivisionError.

Inductive result (A : Type) : Type :=
| Ok (a : A)
| Raise (e : exn).
Arguments Ok {A} a.
Arguments Raise {A} e.

Definition bind {A B : Type} (r : result A) (k : A -> result B) : result B :=
  match r with
  | Ok a => k a
  | Raise e => Raise e
  end.

Notation "x <- r ;; k" := (bind r (fun x => k))
  (at level 61, r at next level, right associativity).

(** A number a function returns: a Python [int] or a Python [float]. *)
Inductive value : Type :=
| VInt (z : Z)
| VFloat (f : float).

(** [float(n)] for an int [n]: the nearest double.  (Python raises
    [OverflowError] beyond the largest double; the only int the calculator
    ever produces is [0].) *)
Definition float_of_int (z : Z) : float :=
  SF2Prim (binary_normalize prec emax z 0 false).

Definition to_float (v : value) : float :=
  match v with
  | VInt z => float_of_int z
  | VFloat f => f
  end.

(** [a + b]: exact on two ints, float addition as soon as one side is a
    float. *)
Definition py_add (a b : value) : value :=
  match a, b with
  | VInt x, VInt y => VInt (x + y)
  | _, _ => VFloat (to_float a + to_float b)
  end.

(** [sum(items)]: the running total starts at the int [0]. *)
Definition py_sum (items : list value) : value :=
  fold_left py_add items (VInt 0).

(** [x / y] on floats. *)
Definition py_truediv (x y : float) : result float :=
  if y =? 0 then Raise ZeroDivisionError else Ok (x / y).

(** [a == b] on returned values (an int is compared through the double it
    converts to, which is exact for the ints at hand). *)
Definition py_eq (a b : value) : bool :=
  match a, b with
  | VInt x, VInt y => Z.eqb x y
  | _, _ => to_float a =? to_float b
  end.

(** ** [round(x, 1)] *)

(** The exact value of a finite double is [m * 2^e]; [tenths_half_even m e]
    is [10 * m * 2^e] rounded to an integer, ties to even. *)
Definition tenths_half_even (m : positive) (e : Z) : Z :=
  match e with
  | Zneg p =>
      let d := Z.pow_pos 2 p in
      let (q, r) := Z.div_eucl (10 * Zpos m) d in
      match (2 * r ?= d)%Z with
      | Lt => q
      | Gt => (q + 1)%Z
      | Eq => if Z.even q then q else (q + 1)%Z
      end
  | _ => (10 * Zpos m * 2 ^ e)%Z
  end.

(** From [2^49] on, doubles are spaced [1/8] or more apart and the double
    nearest to the rounded decimal is [x] itself; NaN and the infinities
    round to themselves.  Below, the rounded decimal is [n / 10] with
    [n < 2^53], and the float quotient [n / 10] is the double nearest to it. *)
Definition py_round1 (x : float) : float :=
  match Prim2SF x with
  | S754_finite s m e =>
      if 0x1p49 <=? abs x then x
      else
        let r := of_uint63 (Uint63.of_Z (tenths_half_even m e)) / 10 in
        if s then - r else r
  | _ => x
  end.

(** ** The module's constants *)

Definition METHANOL_CONSUMPTION_PER_KWH : float := 0.9.
Definition BATTERY_CAPACITY_AH : float := 105.
Definition BATTERY_VOLTAGE : float := 12.8.
Definition BATTERY_CAPACITY_WH : float := BATTERY_CAPACITY_AH * BATTERY_VOLTAGE.
Definition FUEL_CELL_OUTPUT_W : float := 125.
Definition FUEL_CELL_EFFICIENCY : float := 0.35.
Definition METHANOL_ENERGY_DENSITY : float := 5.5 / 5.
Definition BATTERY_EFFICIENCY : float := 0.90.

(** ** Appliances *)

Record Appliance : Type := mkAppliance {
  name : string;
  power : float;
  hours : float
}.

(** ** The calculator *)

Definition calculate_daily_energy_demand (appliances : list Appliance) : result value :=
  Ok (py_sum (map (fun app => VFloat (power app * hours app)) appliances)).

Definition calculate_methanol_consumption (energy_wh : float) : result value :=
  k <- py_truediv energy_wh 1000 ;;
  Ok (VFloat (k * METHANOL_CONSUMPTION_PER_KWH)).

Definition calculate_tank_autonomy (liters_available daily_consumption_l : float) : result value :=
  if daily_consumption_l =? 0 then Ok (VFloat infinity)
  else
    d <- py_truediv liters_available daily_consumption_l ;;
    Ok (VFloat d).

Definition battery_discharge_time (energy_wh : float) : result value :=
  if energy_wh =? 0 then Ok (VFloat infinity)
  else
    q <- py_truediv BATTERY_CAPACITY_WH energy_wh ;;
    Ok (VFloat (q * 24)).

Definition fuel_cell_efficiency (useful_energy_kwh methanol_used_l : float) : result value :=
  if methanol_used_l =? 0 then Ok (VInt 0)
  else
    let chemical_energy := methanol_used_l * METHANOL_ENERGY_DENSITY in
    q <- py_truediv useful_energy_kwh chemical_energy ;;
    Ok (VFloat q).

Definition peak_load_coverage (peak_power_w : float) : result value :=
  peak_current <- py_truediv peak_power_w BATTERY_VOLTAGE ;;
  if peak_current <=? 200 then Ok (VFloat 100.0)
  else
    q <- py_truediv (200 * BATTERY_VOLTAGE) peak_power_w ;;
    Ok (VFloat (py_round1 (q * 100))).

Definition global_system_efficiency
    (battery_energy_wh fuel_cell_energy_wh methanol_used_l : float) : result value :=
  if methanol_used_l =? 0 then Ok (VFloat 0.0)
  else
    k <- py_truediv fuel_cell_energy_wh 1000 ;;
    let net_energy_kwh := k * BATTERY_EFFICIENCY in
    let chemical_energy_kwh := methanol_used_l * METHANOL_ENERGY_DENSITY in
    q <- py_truediv net_energy_kwh chemical_energy_kwh ;;
    Ok (VFloat q).

Definition battery_charge_time_needed
    (energy_to_charge_wh fuel_cell_output_w : float) : result value :=
  q <- py_truediv energy_to_charge_wh fuel_cell_output_w ;;
  Ok (VFloat q).

Definition system_efficiency (energy_delivered_kwh methanol_liters : float) : result value :=
  if methanol_liters =? 0 then Ok (VFloat 0.0)
  else
    let chemical_energy_kwh := methanol_liters * METHANOL_ENERGY_DENSITY in
    q <- py_truediv energy_delivered_kwh chemical_energy_kwh ;;
    Ok (VFloat q).

(** ** Orders on returned values and well-formed inputs *)

(** [a <= b] on returned values. *)
Definition py_le (a b : value) : bool :=
  match a, b with
  | VInt x, VInt y => Z.leb x y
  | _, _ => to_float a <=? to_float b
  end.

(** A non-negative real number: a float that is neither negative, nor NaN,
    nor an infinity. *)
Definition nonneg_real (x : float) : bool := (0 <=? x) && (x <? infinity).

(** The data model's appliance: power and hours are non-negative reals. *)
Definition well_formed (app : Appliance) : bool :=
  nonneg_real (power app) && nonneg_real (hours app).

Definition with_hours (app : Appliance) (h : float) : Appliance :=
  mkAppliance (name app) (power app) h.


(** A real number of either sign ([math.isfinite]). *)
Definition is_real (x : float) : bool := abs x <? infinity.

(** A call that hands back a value instead of raising. *)
Definition returns (r : result value) : Prop := exists v, r = Ok v.

(** A call that hands back a value [>= 0]. *)
Definition nonneg_result (r : result value) : Prop :=
  exists v, r = Ok v /\ py_le (VInt 0) v = true.

(** Two non-negative floats in order ([t <= t'], neither a NaN). *)
Definition term_le (t t' : float) : Prop :=
  (0 <=? t) = true /\ (0 <=? t') = true /\ (t <=? t') = true.

(** ** Reading floats through their specification

    The primitive operations are specified on [spec_float] by the rounding
    function [binary_round_aux].  The definitions below describe what that
    function computes, in integer arithmetic. *)

Section FloatReading.
Local Open Scope Z_scope.

(** A float that is not negative and not NaN. *)
Definition SFnonneg (x : spec_float) : bool :=
  match x with
  | S754_zero _ => true
  | S754_infinity s => negb s
  | S754_finite s _ _ => negb s
  | S754_nan => false
  end.

Definition SFis_zero (x : spec_float) : bool :=
  match x with
  | S754_zero _ => true
  | _ => false
  end.

Definition SFfinite (x : spec_float) : bool :=
  match x with
  | S754_zero _ | S754_finite _ _ _ => true
  | _ => false
  end.

Definition SFis_nan (x : spec_float) : bool :=
  match x with
  | S754_nan => true
  | _ => false
  end.

(** The result of a rounding carries the sign it was given. *)
Definition has_sign (s : bool) (x : spec_float) : Prop :=
  match x with
  | S754_zero s' | S754_infinity s' | S754_finite s' _ _ => s' = s
  | S754_nan => False
  end.

(** [Q] is the integer nearest to [V / h], ties to even. *)
Definition nearest_even (V h Q : Z) : Prop :=
  (2 * Q - 1) * h <= 2 * V <= (2 * Q + 1) * h /\
  (2 * V = (2 * Q - 1) * h \/ 2 * V = (2 * Q + 1) * h -> Z.even Q = true).

(** What a shift record knows of [m] once [m] has been divided by [h]:
    the quotient, whether the remainder reaches the half, and whether
    anything lies beyond the half bit. *)
Definition located (m h : Z) (r : shr_record) : Prop :=
  match shr_r r, shr_s r with
  | false, false => m = shr_m r * h
  | false, true => shr_m r * h < m /\ 2 * m < (2 * shr_m r + 1) * h
  | true, false => 2 * m = (2 * shr_m r + 1) * h
  | true, true => (2 * shr_m r + 1) * h < 2 * m /\ m < (shr_m r + 1) * h
  end.

Definition shr_inv (m h : Z) (r : shr_record) : Prop :=
  0 < h /\ 0 <= shr_m r /\ located m h r.

Definition shr_below (m h : Z) (r : shr_record) : Prop :=
  0 < h /\ 0 <= shr_m r /\ shr_m r * h <= m.

(** The rank of a non-negative double: its bit pattern read as an integer.
    Ranks order the non-negative doubles as their values do. *)
Definition ord_top : Z := 2047 * 2 ^ 52.

Definition ord (x : spec_float) : Z :=
  match x with
  | S754_zero _ => 0
  | S754_finite _ m e => (e + 1074) * 2 ^ 52 + Zpos m
  | S754_infinity _ => ord_top
  | S754_nan => -1
  end.

(** The magnitude of a finite double on the integer scale [2^-B]. *)
Definition ev (B : Z) (x : spec_float) : Z :=
  match x with
  | S754_finite _ m e => Zpos m * 2 ^ (e + B)
  | _ => 0
  end.

(** [rnd B V o]: the double nearest to [V * 2^-B] (ties to even, overflow
    to infinity) has rank [o]. *)
Definition rnd (B V o : Z) : Prop :=
  (V = 0 /\ o = 0) \/
  (0 < V /\ exists mag Q,
      0 <= mag - 1 + B /\
      2 ^ (mag - 1 + B) <= V < 2 ^ (mag + B) /\
      nearest_even V (2 ^ (fexp prec emax mag + B)) Q /\
      o = Z.min ord_top ((fexp prec emax mag + 1074) * 2 ^ 52 + Q)).
End FloatReading.

(** ** Values in order *)

(** [a < b] on values. *)
Definition py_lt (a b : value) : bool :=
  match a, b with
  | VInt x, VInt y => Z.ltb x y
  | _, _ => to_float a <? to_float b
  end.

(** [max(a, b)]: the first argument unless the second is greater. *)
Definition py_max (a b : value) : value := if py_lt a b then b else a.

(** [min(a, b)]: the first argument unless the second is smaller. *)
Definition py_min (a b : value) : value := if py_lt b a then b else a.

(** [a - b]. *)
Definition py_sub (a b : value) : value :=
  match a, b with
  | VInt x, VInt y => VInt (x - y)
  | _, _ => VFloat (to_float a - to_float b)
  end.

(** Both calls return, the first no more than the second. *)
Definition le_result (r r' : result value) : Prop :=
  exists v v', r = Ok v /\ r' = Ok v' /\ py_le v v' = true.

(** A returned value that is [>= 0]. *)
Definition nonneg_value (v : value) : bool := py_le (VInt 0) v.

(** ** The dashboard ([FC_battery_dashboard_Clean.py]) *)

(** The appliances of the selected load scenario (the powers are ints in
    the source; every one is exactly a double). *)
Definition scenario_appliances (scenario : string) : list Appliance :=
  if String.eqb scenario "Base 500 W" then
    [ mkAppliance "Laptop (230 V)" 95 4;
      mkAppliance "Led Lighting (12 V)" 15 6;
      mkAppliance "Cool box (12 V)" 60 8;
      mkAppliance "Smartphone (2 chargers)" 25 2;
      mkAppliance "Electric kettle (12 V)" 300 0.5;
      mkAppliance "Radio (12 V)" 5 3 ]
  else if String.eqb scenario "Moderate 750 W" then
    [ mkAppliance "Laptop (230 V)" 95 4;
      mkAppliance "Led Lighting (12 V)" 15 6;
      mkAppliance "Cool box (12 V)" 60 8;
      mkAppliance "Bed warmer (12 V)" 240 3;
      mkAppliance "Smartphone (3 chargers)" 35 2;
      mkAppliance "Electric kettle (12 V)" 300 0.5;
      mkAppliance "Radio (12 V)" 5 3 ]
  else
    [ mkAppliance "Laptop (230 V)" 95 4;
      mkAppliance "Led Lighting (12 V)" 15 6;
      mkAppliance "Cool box (12 V)" 60 8;
      mkAppliance "Fan Heater (12 V)" 490 2;
      mkAppliance "Smartphone (3 chargers)" 35 2;
      mkAppliance "Electric kettle (12 V)" 300 0.5;
      mkAppliance "Radio (12 V)" 5 3 ].

(** The sidebar loop: each appliance keeps its name and power and takes its
    hours from a slider, [slider label min_value max_value value step],
    whose answer is the user's. *)
Definition custom_appliances
    (slider : string -> float -> float -> float -> float -> float)
    (appliances : list Appliance) : list Appliance :=
  map (fun app =>
         mkAppliance (name app) (power app)
           (slider (name app ++ " Hours")%string 0 24 (hours app) 0.5))
      appliances.

(** A slider that answers within its bounds [0.0 .. 24.0]. *)
Definition within_day
    (slider : string -> float -> float -> float -> float -> float) : Prop :=
  forall label value,
    (0 <=? slider label 0 24 value 0.5) = true
    /\ (slider label 0 24 value 0.5 <=? 24) = true.

(** The variables the dashboard computes in its "Main Calculations". *)
Record kpis : Type := mkKpis {
  daily_demand_wh : value;
  methanol_per_day : value;
  autonomy_days : value;
  battery_hours : value;
  battery_energy_wh : value;
  fuel_cell_energy_wh : value;
  efficiency_pct : value;
  battery_deficit : value;
  charge_time : value
}.

(** The "Main Calculations" of the dashboard.  A value handed to a calculator
    function is read as a float: the only int that can flow here is [0], which
    the callee's first operation ([0 / 1000], [0 == 0], [0 / 125]) treats as
    [0.0]. *)
Definition main_calculations
    (custom_appliances : list Appliance) (tank_liters : float) : result kpis :=
  daily_demand_wh <- calculate_daily_energy_demand custom_appliances ;;
  methanol_per_day <- calculate_methanol_consumption (to_float daily_demand_wh) ;;
  autonomy_days <- calculate_tank_autonomy tank_liters (to_float methanol_per_day) ;;
  battery_hours <- battery_discharge_time (to_float daily_demand_wh) ;;
  let battery_energy_wh := py_min (VFloat BATTERY_CAPACITY_WH) daily_demand_wh in
  let fuel_cell_energy_wh :=
    py_max (VInt 0) (py_sub daily_demand_wh (VFloat BATTERY_CAPACITY_WH)) in
  efficiency_pct <- global_system_efficiency (to_float battery_energy_wh)
                      (to_float fuel_cell_energy_wh) (to_float methanol_per_day) ;;
  let battery_deficit :=
    py_max (VInt 0) (py_sub daily_demand_wh (VFloat BATTERY_CAPACITY_WH)) in
  charge_time <- battery_charge_time_needed (to_float battery_deficit)
                   FUEL_CELL_OUTPUT_W ;;
  Ok (mkKpis daily_demand_wh methanol_per_day autonomy_days battery_hours
        battery_energy_wh fuel_cell_energy_wh efficiency_pct battery_deficit
        charge_time).

(** The energy the fuel cell has to deliver beyond the battery. *)
Definition excess_over_battery (demand : value) : value :=
  py_max (VInt 0) (py_sub demand (VFloat BATTERY_CAPACITY_WH)).

(** One appliance list asks no more than another: the same powers, and
    hours that are nowhere longer. *)
Definition no_longer (a a' : Appliance) : Prop :=
  well_formed a = true /\ well_formed a' = true
  /\ power a = power a' /\ (hours a <=? hours a') = true.

(** ** Reading quotients and tenths *)

Section QuotientReading.
Local Open Scope Z_scope.

(** [rnq B V D o]: the double nearest to [(V / D) * 2^-B] (ties to even,
    overflow to infinity) has rank [o]. *)
Definition rnq (B V D o : Z) : Prop :=
  (V = 0 /\ o = 0) \/
  (0 < V /\ exists E Q,
      -1074 <= E /\ V < 2 ^ (E + 53 + B) * D /\
      (-1074 < E -> 2 ^ (E + 52 + B) * D <= V) /\
      nearest_even V (2 ^ (E + B) * D) Q /\
      o = Z.min ord_top ((E + 1074) * 2 ^ 52 + Q)).

(** The tenths a finite double rounds to, as an integer. *)
Definition tenths_of (x : spec_float) : Z :=
  match x with
  | S754_finite _ m e => tenths_half_even m e
  | _ => 0%Z
  end.

End QuotientReading.

Ltac pow_consts :=
  change (2 ^ 52)%Z with 4503599627370496%Z in *;
  change (2 ^ 53)%Z with 9007199254740992%Z in *;
  change (2 ^ 54)%Z with 18014398509481984%Z in *.

(** * Properties *)

(** ** Rounding, in integers *)

Section Rounding.
Local Open Scope Z_scope.

(** *** Powers of two and digit counts *)

Lemma pow2_pos z : 0 <= z -> 0 < 2 ^ z.
Proof. intros. apply Z.pow_pos_nonneg; lia. Qed.

Lemma pow2_split a b : 0 <= a -> 0 <= b -> 2 ^ (a + b) = 2 ^ a * 2 ^ b.
Proof. intros. apply Z.pow_add_r; assumption. Qed.

Lemma pow2_xO n : 2 ^ Zpos n~0 = 2 ^ Zpos n * 2 ^ Zpos n.
Proof.
  rewrite (Pos2Z.inj_xO n). replace (2 * Zpos n) with (Zpos n + Zpos n) by lia.
  apply Z.pow_add_r; lia.
Qed.

Lemma pow2_xI n : 2 ^ Zpos n~1 = 2 * (2 ^ Zpos n * 2 ^ Zpos n).
Proof.
  rewrite (Pos2Z.inj_xI n).
  replace (2 * Zpos n + 1) with (Z.succ (Zpos n + Zpos n)) by lia.
  rewrite Z.pow_succ_r by lia. rewrite Z.pow_add_r by lia. reflexivity.
Qed.

Lemma fexp_eq z : fexp prec emax z = Z.max (z - 53) (-1074).
Proof. reflexivity. Qed.

(** [digits2_pos p] is the bit length of [p]. *)
Lemma digits2_bounds p :
  2 ^ (Zpos (digits2_pos p) - 1) <= Zpos p < 2 ^ Zpos (digits2_pos p).
Proof.
  induction p as [p IH|p IH|]; cbn [digits2_pos].
  - rewrite Pos2Z.inj_succ, (Pos2Z.inj_xI p).
    replace (Z.succ (Zpos (digits2_pos p)) - 1) with (Z.succ (Zpos (digits2_pos p) - 1)) by lia.
    rewrite !Z.pow_succ_r by lia. lia.
  - rewrite Pos2Z.inj_succ, (Pos2Z.inj_xO p).
    replace (Z.succ (Zpos (digits2_pos p)) - 1) with (Z.succ (Zpos (digits2_pos p) - 1)) by lia.
    rewrite !Z.pow_succ_r by lia. lia.
  - cbn. lia.
Qed.

Lemma digits2_le p k : 0 <= k -> Zpos p < 2 ^ k -> Zpos (digits2_pos p) <= k.
Proof.
  intros Hk H. pose proof (digits2_bounds p) as [L _].
  assert (H' : 2 ^ (Zpos (digits2_pos p) - 1) < 2 ^ k) by lia.
  apply Z.pow_lt_mono_r_iff in H'; lia.
Qed.

Lemma digits2_mul_lower p q :
  Zpos (digits2_pos p) + Zpos (digits2_pos q) - 1 <= Zpos (digits2_pos (p * q)).
Proof.
  pose proof (digits2_bounds p) as [Lp _].
  pose proof (digits2_bounds q) as [Lq _].
  pose proof (digits2_bounds (p * q)) as [_ U].
  set (dp := Zpos (digits2_pos p)) in *. set (dq := Zpos (digits2_pos q)) in *.
  set (d := Zpos (digits2_pos (p * q))) in *.
  assert (1 <= dp) by (unfold dp; lia). assert (1 <= dq) by (unfold dq; lia).
  assert (H1 : 2 ^ ((dp - 1) + (dq - 1)) < 2 ^ d).
  { rewrite pow2_split by lia. rewrite Pos2Z.inj_mul in U.
    eapply Z.le_lt_trans; [|exact U].
    apply Z.mul_le_mono_nonneg; try assumption; apply Z.pow_nonneg; lia. }
  apply Z.pow_lt_mono_r_iff in H1; lia.
Qed.

Lemma Zdigits2_le m k : 0 <= m -> 0 <= k -> m < 2 ^ k -> Zdigits2 m <= k.
Proof.
  intros Hm Hk H. destruct m as [|p|p]; cbn [Zdigits2]; [lia| |lia].
  apply digits2_le; assumption.
Qed.

Lemma Zdigits2_bounds m : 0 <= m -> 0 <= Zdigits2 m /\ m < 2 ^ Zdigits2 m.
Proof.
  intros Hm. destruct m as [|p|p]; cbn [Zdigits2]; [cbn; lia| |lia].
  pose proof (digits2_bounds p). lia.
Qed.

Lemma Zdigits2_succ m : 0 <= m -> Zdigits2 (m + 1) <= Zdigits2 m + 1.
Proof.
  intros Hm. destruct (Zdigits2_bounds m Hm) as [Hd Hlt].
  apply Zdigits2_le; [lia|lia|].
  rewrite Z.pow_add_r by lia. change (2 ^ 1) with 2. lia.
Qed.

(** *** Rounding to the nearest integer, ties to even *)

(** Rounding to nearest, ties to even, is monotone. *)
Lemma nearest_even_mono V1 V2 h Q1 Q2 :
  0 < h -> V1 <= V2 -> nearest_even V1 h Q1 -> nearest_even V2 h Q2 -> Q1 <= Q2.
Proof.
  intros Hh HV [[L1 U1] T1] [[L2 U2] T2].
  destruct (Z_le_gt_dec Q1 Q2) as [|Hgt]; [assumption|exfalso].
  assert (HQ : Q1 = Q2 + 1) by nia.
  subst Q1.
  assert (E1 : 2 * V1 = (2 * (Q2 + 1) - 1) * h) by nia.
  assert (E2 : 2 * V2 = (2 * Q2 + 1) * h) by nia.
  specialize (T1 (or_introl E1)). specialize (T2 (or_intror E2)).
  rewrite Z.even_add in T1. rewrite T2 in T1. discriminate.
Qed.

(** The numerator and the step may be scaled together. *)
Lemma nearest_even_scale V h Q k :
  0 < k -> nearest_even V h Q -> nearest_even (V * k) (h * k) Q.
Proof.
  intros Hk [[L U] T]. split.
  - split; nia.
  - intros [E|E]; apply T; [left|right]; nia.
Qed.

(** A value of magnitude [mag], rounded on the grid [fexp mag], has at
    most 53 bits before the carry and, in the normal range, exactly 53. *)
Lemma nearest_even_bounds B V mag Q :
  1074 <= B -> 0 <= mag - 1 + B ->
  2 ^ (mag - 1 + B) <= V < 2 ^ (mag + B) ->
  nearest_even V (2 ^ (fexp prec emax mag + B)) Q ->
  0 <= Q <= 2 ^ 53 /\ (-1074 < fexp prec emax mag -> 2 ^ 52 <= Q).
Proof.
  intros HB Hmag [HV1 HV2] [[L U] _].
  rewrite ?fexp_eq in *.
  set (E := Z.max (mag - 53) (-1074)) in *.
  assert (HE : 0 <= E + B) by lia.
  pose proof (pow2_pos _ HE) as Hh.
  pose proof (pow2_pos _ Hmag) as Hlow.
  set (h := 2 ^ (E + B)) in *.
  assert (Hup : 2 ^ (mag + B) <= 2 ^ 53 * h).
  { unfold h. rewrite <- pow2_split by lia. apply Z.pow_le_mono_r; lia. }
  pow_consts. split; [split|].
  - nia.
  - nia.
  - intros HEm. assert (E = mag - 53) by lia.
    assert (Hlo : 2 ^ (mag - 1 + B) = 4503599627370496 * h).
    { unfold h. replace (mag - 1 + B) with (52 + (E + B)) by lia.
      rewrite pow2_split by lia. reflexivity. }
    nia.
Qed.

Lemma round_nearest_even_nonneg m l : 0 <= m -> 0 <= round_nearest_even m l.
Proof.
  intros H. destruct l as [|[ | | ]]; simpl; try lia.
  destruct (Z.even m); lia.
Qed.

Lemma round_nearest_even_range m l :
  round_nearest_even m l = m \/ round_nearest_even m l = m + 1.
Proof.
  destruct l as [|[ | | ]]; cbn [round_nearest_even]; auto.
  destruct (Z.even m); auto.
Qed.

(** *** Shifting a mantissa to the right

    [shr] drops low bits one at a time and remembers, in two flags, where the
    dropped part lies with respect to the half; [round_nearest_even] then
    reads the flags. *)

Lemma iter_pos_invariant {A : Type} (P : A -> Prop) (f : A -> A) :
  (forall x, P x -> P (f x)) -> forall n x, P x -> P (iter_pos f n x).
Proof.
  intros Hf. induction n as [n IH|n IH|]; intros x Hx; simpl; auto.
Qed.

(** An invariant that follows the doubling step through [iter_pos]. *)
Lemma iter_pos_scaled {A : Type} (P : Z -> A -> Prop) (f : A -> A) :
  (forall h x, P h x -> P (2 * h) (f x)) ->
  forall n h x, P h x -> P (h * 2 ^ Zpos n) (iter_pos f n x).
Proof.
  intros Hf. induction n as [n IH|n IH|]; intros h x Hx; cbn [iter_pos].
  - replace (h * 2 ^ Zpos n~1) with ((2 * h * 2 ^ Zpos n) * 2 ^ Zpos n)
      by (rewrite pow2_xI; ring).
    apply IH, IH, Hf, Hx.
  - replace (h * 2 ^ Zpos n~0) with ((h * 2 ^ Zpos n) * 2 ^ Zpos n)
      by (rewrite pow2_xO; ring).
    apply IH, IH, Hx.
  - replace (h * 2 ^ 1) with (2 * h) by (change (2 ^ 1) with 2; ring).
    apply Hf, Hx.
Qed.

Lemma shr_1_nonneg mrs : 0 <= shr_m mrs -> 0 <= shr_m (shr_1 mrs).
Proof.
  destruct mrs as [m r s]; simpl.
  destruct m as [|[p|p|]|p]; simpl; lia.
Qed.

Lemma shr_nonneg mrs e n : 0 <= shr_m mrs -> 0 <= shr_m (fst (shr mrs e n)).
Proof.
  intros H. destruct n as [|p|p]; simpl; auto.
  apply (iter_pos_invariant (fun r => 0 <= shr_m r)); auto using shr_1_nonneg.
Qed.

Lemma shr_fexp_nonneg m e l : 0 <= m -> 0 <= shr_m (fst (shr_fexp prec emax m e l)).
Proof.
  intros H. unfold shr_fexp. apply shr_nonneg.
  destruct l as [|[ | | ]]; exact H.
Qed.

Lemma shr_nonpos mrs e n : n <= 0 -> shr mrs e n = (mrs, e).
Proof. destruct n; [reflexivity|lia|reflexivity]. Qed.

Lemma shr_record_of_loc_m m l : shr_m (shr_record_of_loc m l) = m.
Proof. destruct l as [|[ | | ]]; reflexivity. Qed.

(** One more bit dropped: the record still locates [m], on a step twice
    as wide. *)
Lemma located_shr_1 m h r :
  0 < h -> 0 <= shr_m r -> located m h r -> located m (2 * h) (shr_1 r).
Proof.
  intros Hh Hq. destruct r as [q b s]. unfold located, shr_1.
  cbn [shr_m shr_r shr_s] in *.
  destruct q as [|[p|p|]|p]; try (exfalso; lia);
    destruct b, s; cbn [shr_m shr_r shr_s orb];
    try (rewrite (Pos2Z.inj_xI p)); try (rewrite (Pos2Z.inj_xO p));
    try (generalize (Z.pos p); intros q); lia.
Qed.

Lemma shr_inv_step m h r : shr_inv m h r -> shr_inv m (2 * h) (shr_1 r).
Proof.
  intros (Hh & Hq & Hl). split; [|split].
  - lia.
  - apply shr_1_nonneg, Hq.
  - apply located_shr_1; assumption.
Qed.

(** After a shift by [n], the record locates [m] on the step [2^n]. *)
Lemma shr_exact_located m e n :
  0 <= m -> 0 <= n ->
  snd (shr (Build_shr_record m false false) e n) = e + n /\
  shr_inv m (2 ^ n) (fst (shr (Build_shr_record m false false) e n)).
Proof.
  intros Hm Hn.
  assert (H0 : shr_inv m 1 (Build_shr_record m false false)).
  { split; [lia|split; [exact Hm|]]. unfold located; cbn [shr_m shr_r shr_s]. lia. }
  destruct n as [|p|p]; [| |lia]; cbn [shr fst snd].
  - split; [lia|exact H0].
  - split; [reflexivity|].
    pose proof (iter_pos_scaled (shr_inv m) shr_1 (shr_inv_step m) p 1 _ H0) as H.
    rewrite Z.mul_1_l in H. exact H.
Qed.

(** Reading the flags of a record that locates [m] rounds [m / h] to
    nearest, ties to even. *)
Lemma located_nearest_even m h r :
  0 < h -> located m h r ->
  nearest_even m h (round_nearest_even (shr_m r) (loc_of_shr_record r)).
Proof.
  intros Hh. destruct r as [q b s]. unfold located, nearest_even.
  cbn [shr_m shr_r shr_s loc_of_shr_record].
  destruct b, s; cbn [round_nearest_even]; intros H.
  - split; [lia|]. intros [E|E]; exfalso; lia.
  - destruct (Z.even q) eqn:Eq.
    + split; [lia|]. intros _. exact Eq.
    + split; [lia|]. intros _. rewrite Z.even_add, Eq. reflexivity.
  - split; [lia|]. intros [E|E]; exfalso; lia.
  - split; [lia|]. intros [E|E]; exfalso; lia.
Qed.

Lemma shr_below_step m h r : shr_below m h r -> shr_below m (2 * h) (shr_1 r).
Proof.
  intros (Hh & Hq & Hle). destruct r as [q b s]. cbn [shr_m] in *.
  unfold shr_below, shr_1.
  destruct q as [|[p|p|]|p]; cbn [shr_m]; try lia;
    try (rewrite (Pos2Z.inj_xI p) in Hle); try (rewrite (Pos2Z.inj_xO p) in Hle);
    lia.
Qed.

(** A shift to the right never lengthens the number it shifts. *)
Lemma shr_digits r e n :
  0 <= shr_m r ->
  let '(r', e') := shr r e n in
  0 <= shr_m r' /\ (n <= 0 -> r' = r /\ e' = e) /\
  (0 < n -> e' = e + n) /\ Zdigits2 (shr_m r') + e' <= Z.max (Zdigits2 (shr_m r) + e) e'.
Proof.
  intros Hm. destruct n as [|p|p]; cbn [shr].
  - repeat split; try lia.
  - pose proof (iter_pos_scaled (shr_below (shr_m r)) shr_1
                  (shr_below_step (shr_m r)) p 1 r) as H.
    destruct H as (Hh & Hq & Hle); [split; [lia|split; [exact Hm|lia]]|].
    rewrite Z.mul_1_l in Hle, Hh.
    split; [exact Hq|]. split; [lia|]. split; [reflexivity|].
    set (q := shr_m (iter_pos shr_1 p r)) in *.
    destruct (Zdigits2_bounds _ Hm) as [Hd Hlt].
    destruct (Z.eq_dec q 0) as [->|Hq0]; [cbn [Zdigits2]; lia|].
    assert (Zdigits2 q <= Zdigits2 (shr_m r) - Zpos p); [|lia].
    destruct (Z_le_gt_dec (Zdigits2 (shr_m r)) (Zpos p)) as [Hsmall|Hbig].
    + exfalso. assert (2 ^ Zdigits2 (shr_m r) <= 2 ^ Zpos p)
        by (apply Z.pow_le_mono_r; lia). nia.
    + apply Zdigits2_le; [lia|lia|].
      apply Z.mul_lt_mono_pos_r with (p := 2 ^ Zpos p); [lia|].
      rewrite <- Z.pow_add_r by lia.
      replace (Zdigits2 (shr_m r) - Zpos p + Zpos p) with (Zdigits2 (shr_m r)) by lia.
      lia.
  - repeat split; try lia.
Qed.

(** *** Shifting a mantissa to the left *)

(** Left shifts *)

Lemma iter_xO_spec d m :
  Zpos (Pos.iter xO m d) = Zpos m * 2 ^ Zpos d /\
  Zpos (digits2_pos (Pos.iter xO m d)) = Zpos (digits2_pos m) + Zpos d.
Proof.
  induction d as [|d IH] using Pos.peano_ind.
  - cbn [Pos.iter digits2_pos]. split; [rewrite Pos2Z.inj_xO; change (2 ^ 1) with 2; ring|].
    rewrite Pos2Z.inj_succ. lia.
  - rewrite Pos.iter_succ. cbn [digits2_pos]. destruct IH as [IH1 IH2].
    rewrite Pos2Z.inj_xO, !Pos2Z.inj_succ, IH1, IH2, Z.pow_succ_r by lia.
    split; ring.
Qed.

Lemma shl_align_spec mx ex ex' :
  let '(m', e') := shl_align mx ex ex' in
  e' = Z.min ex ex' /\
  Zpos m' = Zpos mx * 2 ^ (ex - e') /\
  Zpos (digits2_pos m') + e' = Zpos (digits2_pos mx) + ex.
Proof.
  unfold shl_align. destruct (ex' - ex) as [|d|d] eqn:E.
  - replace (ex - ex) with 0 by lia. change (2 ^ 0) with 1. lia.
  - replace (ex - ex) with 0 by lia. change (2 ^ 0) with 1. lia.
  - destruct (iter_xO_spec d mx) as [H1 H2].
    replace (ex - ex') with (Zpos d) by lia. lia.
Qed.

(** *** The sign of a rounded result *)

(** A rounded non-negative mantissa keeps the sign it was given (and is
    not a NaN). *)
Lemma binary_round_aux_sign s m e l :
  0 <= m -> has_sign s (binary_round_aux prec emax s m e l).
Proof.
  intros H. unfold binary_round_aux.
  pose proof (shr_fexp_nonneg m e l H) as H1.
  destruct (shr_fexp prec emax m e l) as [mrs' e'] eqn:E1. simpl in H1.
  pose proof (shr_fexp_nonneg _ e' loc_Exact
    (round_nearest_even_nonneg _ (loc_of_shr_record mrs') H1)) as H2.
  destruct (shr_fexp prec emax (round_nearest_even _ _) e' loc_Exact) as [mrs'' e''].
  simpl in H2.
  destruct (shr_m mrs'') as [|p|p]; [reflexivity| |lia].
  destruct (e'' <=? emax - prec); reflexivity.
Qed.

Lemma binary_round_sign s m e : has_sign s (binary_round prec emax s m e).
Proof.
  unfold binary_round. destruct (shl_align m e _) as [mz ez].
  apply binary_round_aux_sign. lia.
Qed.

Lemma has_sign_nonneg x : has_sign false x -> SFnonneg x = true.
Proof. destruct x as [s|s| |s m e]; cbn; intros H; subst; try reflexivity; contradiction. Qed.

Lemma has_sign_not_nan s x : has_sign s x -> SFis_nan x = false.
Proof. destruct x; cbn; intros H; try reflexivity; contradiction. Qed.

(** *** What [binary_round_aux] computes

    On an exact input [m * 2^e] the result is the double nearest to it: its
    rank is the one [rnd] describes, and [rnd] is monotone. *)

Lemma rnd_nonneg B V o : 1074 <= B -> rnd B V o -> 0 <= o.
Proof.
  intros HB [[_ ->]|(HV & mag & Q & Hm & Hmag & Hne & ->)]; [lia|].
  destruct (nearest_even_bounds B V mag Q HB Hm Hmag Hne) as [[HQ _] _].
  rewrite fexp_eq. unfold ord_top. pow_consts. lia.
Qed.

(** Rounding to the nearest double is monotone. *)
Lemma rnd_mono B V1 V2 o1 o2 :
  1074 <= B -> V1 <= V2 -> rnd B V1 o1 -> rnd B V2 o2 -> o1 <= o2.
Proof.
  intros HB HV H1 H2.
  destruct H1 as [[-> ->]|(HV1 & mag1 & Q1 & Hm1 & Hmag1 & Hne1 & ->)].
  { eapply rnd_nonneg; eassumption. }
  destruct H2 as [[-> ->]|(HV2 & mag2 & Q2 & Hm2 & Hmag2 & Hne2 & ->)]; [lia|].
  destruct (nearest_even_bounds B V1 mag1 Q1 HB Hm1 Hmag1 Hne1) as [[HQ1 HQ1'] _].
  destruct (nearest_even_bounds B V2 mag2 Q2 HB Hm2 Hmag2 Hne2) as [[HQ2 _] HQ2'].
  assert (Hmag : mag1 <= mag2).
  { assert (2 ^ (mag1 - 1 + B) < 2 ^ (mag2 + B)) by lia.
    apply Z.pow_lt_mono_r_iff in H; lia. }
  rewrite ?fexp_eq in *.
  set (E1 := Z.max (mag1 - 53) (-1074)) in *.
  set (E2 := Z.max (mag2 - 53) (-1074)) in *.
  assert (HE : E1 <= E2) by lia.
  destruct (Z.eq_dec E1 E2) as [Heq|Hneq].
  - rewrite Heq in *.
    assert (Q1 <= Q2).
    { eapply nearest_even_mono; [| exact HV | exact Hne1 | exact Hne2].
      apply pow2_pos. lia. }
    pow_consts. lia.
  - assert (HQ2'' : 2 ^ 52 <= Q2) by (apply HQ2'; lia).
    unfold ord_top. pow_consts. lia.
Qed.

(** The nearest double is unique. *)
Lemma rnd_fun B V o1 o2 : 1074 <= B -> rnd B V o1 -> rnd B V o2 -> o1 = o2.
Proof.
  intros HB H1 H2.
  pose proof (rnd_mono B V V o1 o2 HB (Z.le_refl _) H1 H2).
  pose proof (rnd_mono B V V o2 o1 HB (Z.le_refl _) H2 H1).
  lia.
Qed.

(** The rounding function, on an exact mantissa that needs no left shift,
    returns the nearest double. *)
Lemma binary_round_aux_rnd B s p e :
  1074 <= B -> 0 <= e + B ->
  e <= fexp prec emax (Zpos (digits2_pos p) + e) ->
  rnd B (Zpos p * 2 ^ (e + B))
      (ord (binary_round_aux prec emax s (Zpos p) e loc_Exact)).
Proof.
  intros HB HeB Hn.
  pose proof (digits2_bounds p) as Hd.
  set (d := Zpos (digits2_pos p)) in *.
  set (E := fexp prec emax (d + e)) in *.
  assert (HE : E = Z.max (d + e - 53) (-1074)) by apply fexp_eq.
  assert (Hd1 : 1 <= d) by (unfold d; lia).
  pose proof (pow2_pos _ HeB) as Hk.
  (* the first shift *)
  unfold binary_round_aux, shr_fexp.
  cbn [shr_record_of_loc Zdigits2]. fold d. fold E.
  destruct (shr_exact_located (Zpos p) e (E - e)) as [Hsnd (Hh & Hq & Hloc)];
    [lia|lia|].
  destruct (shr {| shr_m := Zpos p; shr_r := false; shr_s := false |} e (E - e))
    as [mrs' e'] eqn:Hshr.
  cbn [fst snd] in Hsnd, Hq, Hloc. replace (e + (E - e)) with E in Hsnd by lia.
  subst e'.
  pose proof (located_nearest_even _ _ _ Hh Hloc) as Hne.
  set (Q := round_nearest_even (shr_m mrs') (loc_of_shr_record mrs')) in *.
  (* on the fixed scale *)
  assert (Hne' : nearest_even (Zpos p * 2 ^ (e + B)) (2 ^ (E + B)) Q).
  { replace (E + B) with ((E - e) + (e + B)) by lia.
    rewrite (pow2_split (E - e) (e + B)) by lia. apply nearest_even_scale; assumption. }
  assert (Hmag : 2 ^ (d + e - 1 + B) <= Zpos p * 2 ^ (e + B) < 2 ^ (d + e + B)).
  { replace (d + e - 1 + B) with ((d - 1) + (e + B)) by lia.
    replace (d + e + B) with (d + (e + B)) by lia.
    rewrite (pow2_split (d - 1) (e + B)), (pow2_split d (e + B)) by lia.
    split; [apply Z.mul_le_mono_nonneg_r|apply Z.mul_lt_mono_pos_r]; lia. }
  destruct (nearest_even_bounds B _ (d + e) Q HB ltac:(lia) Hmag Hne')
    as [[HQ0 HQ1] HQ2].
  fold E in HQ2.
  right. split; [nia|]. exists (d + e), Q. split; [lia|]. split; [exact Hmag|].
  split; [exact Hne'|]. fold E.
  (* the second shift *)
  destruct Q as [|q|q] eqn:HQ; [| |lia].
  - cbn [Zdigits2]. rewrite shr_nonpos by (rewrite fexp_eq; lia).
    cbn [shr_m ord]. assert (E = -1074) by (pow_consts; lia).
    unfold ord_top. pow_consts. lia.
  - cbn [Zdigits2].
    destruct (Z.eq_dec (Zpos q) (2 ^ 53)) as [Htop|Hlt].
    + assert (Hq' : q = 9007199254740992%positive) by (pow_consts; lia).
      subst q. change (Zpos (digits2_pos 9007199254740992)) with 54.
      replace (fexp prec emax (54 + E) - E) with 1 by (rewrite fexp_eq; lia).
      cbn [shr iter_pos shr_1 shr_m].
      destruct (E + 1 <=? emax - prec) eqn:Hov; cbn [ord];
        [apply Z.leb_le in Hov|apply Z.leb_gt in Hov];
        unfold emax, prec in Hov; unfold ord_top; pow_consts; lia.
    + assert (Hdq : Zpos (digits2_pos q) <= 53).
      { apply digits2_le; [lia|]. lia. }
      rewrite shr_nonpos by (rewrite fexp_eq; lia).
      cbn [shr_m].
      destruct (E <=? emax - prec) eqn:Hov; cbn [ord];
        [apply Z.leb_le in Hov|apply Z.leb_gt in Hov];
        unfold emax, prec in Hov; unfold ord_top; pow_consts; lia.
Qed.

(** So does [binary_round], which aligns the mantissa first. *)
Lemma binary_round_rnd B s m e :
  1074 <= B -> -1074 <= e ->
  rnd B (Zpos m * 2 ^ (e + B)) (ord (binary_round prec emax s m e)).
Proof.
  intros HB He. unfold binary_round.
  pose proof (shl_align_spec m e (fexp prec emax (Zpos (digits2_pos m) + e))) as H.
  destruct (shl_align m e _) as [mz ez]. destruct H as (H1 & H2 & H3).
  replace (Zpos m * 2 ^ (e + B)) with (Zpos mz * 2 ^ (ez + B)).
  - apply binary_round_aux_rnd; [assumption| |].
    + rewrite fexp_eq in H1. lia.
    + rewrite H3. lia.
  - rewrite H2. rewrite fexp_eq in H1.
    replace (e + B) with ((e - ez) + (ez + B)) by lia.
    rewrite (pow2_split (e - ez) (ez + B)) by lia. ring.
Qed.

(** *** Valid doubles, their ranks and their magnitudes *)

(** What validity says of a finite double. *)
Lemma valid_finite_bounds s m e :
  valid_binary (S754_finite s m e) = true ->
  fexp prec emax (Zpos (digits2_pos m) + e) = e /\
  -1074 <= e <= 971 /\ Zpos m < 2 ^ 53 /\ (-1074 < e -> 2 ^ 52 <= Zpos m).
Proof.
  unfold valid_binary, bounded, canonical_mantissa.
  intros H. apply andb_true_iff in H as [H1 H2].
  apply Z.eqb_eq in H1. apply Z.leb_le in H2. unfold emax, prec in H2.
  pose proof (digits2_bounds m) as [L U].
  split; [exact H1|]. rewrite fexp_eq in H1.
  set (d := Zpos (digits2_pos m)) in *.
  split; [lia|]. split.
  - eapply Z.lt_le_trans; [exact U|]. apply Z.pow_le_mono_r; lia.
  - intros He. assert (d = 53) by lia.
    replace 52 with (d - 1) by lia. exact L.
Qed.

(** A valid double is its own rounding. *)
Lemma rnd_representable B s m e :
  1074 <= B -> valid_binary (S754_finite s m e) = true ->
  rnd B (Zpos m * 2 ^ (e + B)) (ord (S754_finite s m e)).
Proof.
  intros HB Hv.
  destruct (valid_finite_bounds s m e Hv) as (Hc & He & Hm & Hn).
  pose proof (digits2_bounds m) as [L U].
  set (d := Zpos (digits2_pos m)) in *.
  assert (Hd1 : 1 <= d) by (unfold d; lia).
  assert (Hk : 0 < 2 ^ (e + B)) by (apply pow2_pos; lia).
  right. split; [nia|]. exists (d + e), (Zpos m).
  split; [lia|]. split; [|split].
  - replace (d + e - 1 + B) with ((d - 1) + (e + B)) by lia.
    replace (d + e + B) with (d + (e + B)) by lia.
    rewrite (pow2_split (d - 1) (e + B)), (pow2_split d (e + B)) by lia.
    split; [apply Z.mul_le_mono_nonneg_r|apply Z.mul_lt_mono_pos_r]; lia.
  - rewrite Hc. split; [nia|]. intros [E|E]; exfalso; nia.
  - rewrite Hc. cbn [ord]. unfold ord_top. pow_consts. lia.
Qed.

Lemma rnd_ev B x :
  1074 <= B -> valid_binary x = true -> SFfinite x = true ->
  rnd B (ev B x) (ord x).
Proof.
  intros HB Hv Hf. destruct x as [s|s| |s m e]; try discriminate.
  - left. split; reflexivity.
  - apply rnd_representable; assumption.
Qed.

Lemma ev_nonneg B x : 0 <= ev B x.
Proof.
  destruct x as [s|s| |s m e]; cbn [ev]; try lia.
Qed.

Lemma ord_valid_range x :
  valid_binary x = true -> SFnonneg x = true ->
  0 <= ord x <= ord_top /\ (SFfinite x = true -> ord x < ord_top).
Proof.
  intros Hv Hs. destruct x as [s|s| |s m e]; try discriminate;
    cbn [ord SFfinite]; unfold ord_top; pow_consts.
  - lia.
  - split; [lia|discriminate].
  - destruct (valid_finite_bounds s m e Hv) as (_ & He & Hm & _).
    pow_consts. lia.
Qed.

Lemma ord_below_top_finite (x : spec_float) :
  SFnonneg x = true -> (ord x < ord_top) -> SFfinite x = true.
Proof.
  destruct x as [s|s| |s m e]; cbn [ord]; intros Hs H; try reflexivity;
    try discriminate; lia.
Qed.

(** Comparison of valid non-negative floats is comparison of their ranks. *)
Lemma SFleb_ord x y :
  valid_binary x = true -> valid_binary y = true ->
  SFnonneg x = true -> SFnonneg y = true ->
  SFleb x y = (ord x <=? ord y).
Proof.
  intros Hx Hy Sx Sy.
  destruct x as [sx|sx| |sx mx ex]; try discriminate;
  destruct y as [sy|sy| |sy my ey]; try discriminate;
  cbn [SFnonneg] in Sx, Sy;
  try (apply negb_true_iff in Sx; subst sx);
  try (apply negb_true_iff in Sy; subst sy);
  try (destruct (valid_finite_bounds _ _ _ Hx) as (_ & Hex & Hmx & Hnx));
  try (destruct (valid_finite_bounds _ _ _ Hy) as (_ & Hey & Hmy & Hny));
  unfold SFleb; cbn [SFcompare ord]; unfold ord_top; pow_consts;
  symmetry; try (apply Z.leb_le; lia); try (apply Z.leb_gt; lia).
  destruct (Z.compare_spec ex ey) as [E|E|E].
  - subst ey. rewrite Pos.compare_cont_spec. cbn [Pos.switch_Eq].
    destruct (Pos.compare_spec mx my) as [E'|E'|E'];
      [apply Z.leb_le|apply Z.leb_le|apply Z.leb_gt]; lia.
  - apply Z.leb_le. lia.
  - apply Z.leb_gt. lia.
Qed.

Lemma SFeqb_refl x : SFis_nan x = false -> SFeqb x x = true.
Proof.
  destruct x as [s|s| |s m e]; intros H; try discriminate; unfold SFeqb;
    cbn [SFcompare]; try (destruct s; reflexivity).
  rewrite Z.compare_refl, Pos.compare_cont_refl. destruct s; reflexivity.
Qed.

(** Ranks and magnitudes order the valid doubles alike. *)
Lemma ord_le_ev_le B x y :
  1074 <= B ->
  valid_binary x = true -> valid_binary y = true ->
  SFfinite x = true -> SFfinite y = true ->
  ord x <= ord y -> ev B x <= ev B y.
Proof.
  intros HB Hx Hy Fx Fy Hle.
  destruct (Z_le_gt_dec (ev B x) (ev B y)) as [|Hgt]; [assumption|exfalso].
  assert (Hle' : ev B y <= ev B x) by lia.
  pose proof (rnd_mono B _ _ _ _ HB Hle' (rnd_ev B y HB Hy Fy) (rnd_ev B x HB Hx Fx)).
  assert (Heq : ord x = ord y) by lia.
  destruct x as [sx|sx| |sx mx ex]; try discriminate;
  destruct y as [sy|sy| |sy my ey]; try discriminate;
  try (destruct (valid_finite_bounds _ _ _ Hx) as (_ & Hex & Hmx & Hnx));
  try (destruct (valid_finite_bounds _ _ _ Hy) as (_ & Hey & Hmy & Hny));
  cbn [ord ev] in *; pow_consts; try lia.
  assert (ex = ey /\ Zpos mx = Zpos my) as [E1 E2] by lia.
  rewrite E1, E2 in Hgt. lia.
Qed.

(** *** Products and sums are roundings of the exact result *)

Lemma SFmul_finite_rnd B1 B2 sx mx ex sy my ey :
  1074 <= B1 -> 1074 <= B2 ->
  valid_binary (S754_finite sx mx ex) = true ->
  valid_binary (S754_finite sy my ey) = true ->
  rnd (B1 + B2) ((Zpos mx * 2 ^ (ex + B1)) * (Zpos my * 2 ^ (ey + B2)))
      (ord (SFmul prec emax (S754_finite sx mx ex) (S754_finite sy my ey))).
Proof.
  intros HB1 HB2 Hx Hy.
  destruct (valid_finite_bounds _ _ _ Hx) as (Hcx & Hex & Hmx & Hnx).
  destruct (valid_finite_bounds _ _ _ Hy) as (Hcy & Hey & Hmy & Hny).
  cbn [SFmul].
  replace ((Zpos mx * 2 ^ (ex + B1)) * (Zpos my * 2 ^ (ey + B2)))
    with (Zpos (mx * my) * 2 ^ ((ex + ey) + (B1 + B2))).
  - apply binary_round_aux_rnd; try lia.
    pose proof (digits2_mul_lower mx my) as Hd.
    pose proof (digits2_bounds mx) as [Lx _].
    pose proof (digits2_bounds my) as [Ly _].
    rewrite fexp_eq in *.
    set (dx := Zpos (digits2_pos mx)) in *. set (dy := Zpos (digits2_pos my)) in *.
    assert (1 <= dx) by (unfold dx; lia). assert (1 <= dy) by (unfold dy; lia).
    lia.
  - replace ((ex + ey) + (B1 + B2)) with ((ex + B1) + (ey + B2)) by lia.
    rewrite pow2_split by lia. rewrite Pos2Z.inj_mul. ring.
Qed.

(** The product of two reals is the rounding of the exact product. *)
Lemma SFmul_rnd B1 B2 x y :
  1074 <= B1 -> 1074 <= B2 ->
  valid_binary x = true -> valid_binary y = true ->
  SFfinite x = true -> SFfinite y = true ->
  rnd (B1 + B2) (ev B1 x * ev B2 y) (ord (SFmul prec emax x y)).
Proof.
  intros HB1 HB2 Hx Hy Fx Fy.
  destruct x as [sx|sx| |sx mx ex]; try discriminate;
  destruct y as [sy|sy| |sy my ey]; try discriminate.
  - left. split; reflexivity.
  - left. split; reflexivity.
  - left. cbn [ev SFmul ord]. split; [ring|reflexivity].
  - cbn [ev]. apply SFmul_finite_rnd; assumption.
Qed.

Lemma SFadd_finite_rnd B mx ex my ey :
  1074 <= B ->
  valid_binary (S754_finite false mx ex) = true ->
  valid_binary (S754_finite false my ey) = true ->
  rnd B (Zpos mx * 2 ^ (ex + B) + Zpos my * 2 ^ (ey + B))
      (ord (SFadd prec emax (S754_finite false mx ex) (S754_finite false my ey))).
Proof.
  intros HB Hx Hy.
  destruct (valid_finite_bounds _ _ _ Hx) as (_ & Hex & _ & _).
  destruct (valid_finite_bounds _ _ _ Hy) as (_ & Hey & _ & _).
  cbn [SFadd cond_Zopp].
  pose proof (shl_align_spec mx ex (Z.min ex ey)) as Hax.
  pose proof (shl_align_spec my ey (Z.min ex ey)) as Hay.
  destruct (shl_align mx ex (Z.min ex ey)) as [ax ez1].
  destruct (shl_align my ey (Z.min ex ey)) as [ay ez2].
  destruct Hax as (E1 & V1 & _). destruct Hay as (E2 & V2 & _).
  cbn [fst]. change (Zpos ax + Zpos ay) with (Zpos (ax + ay)).
  cbn [binary_normalize].
  replace (Zpos mx * 2 ^ (ex + B) + Zpos my * 2 ^ (ey + B))
    with (Zpos (ax + ay) * 2 ^ (Z.min ex ey + B)).
  - apply binary_round_rnd; lia.
  - rewrite Pos2Z.inj_add, V1, V2.
    replace (ex + B) with ((ex - ez1) + (Z.min ex ey + B)) by lia.
    replace (ey + B) with ((ey - ez2) + (Z.min ex ey + B)) by lia.
    rewrite (pow2_split (ex - ez1)), (pow2_split (ey - ez2)) by lia. ring.
Qed.

(** The sum of two non-negative reals is the rounding of the exact sum. *)
Lemma SFadd_rnd B x y :
  1074 <= B ->
  valid_binary x = true -> valid_binary y = true ->
  SFfinite x = true -> SFfinite y = true ->
  SFnonneg x = true -> SFnonneg y = true ->
  rnd B (ev B x + ev B y) (ord (SFadd prec emax x y)).
Proof.
  intros HB Hx Hy Fx Fy Sx Sy.
  destruct x as [sx|sx| |sx mx ex]; try discriminate;
  destruct y as [sy|sy| |sy my ey]; try discriminate;
  cbn [SFnonneg] in Sx, Sy;
  try (apply negb_true_iff in Sx; subst sx);
  try (apply negb_true_iff in Sy; subst sy).
  - left. split; [reflexivity|]. destruct sx, sy; reflexivity.
  - cbn [SFadd ev]. rewrite Z.add_0_l. apply rnd_representable; assumption.
  - cbn [SFadd ev]. rewrite Z.add_0_r. apply rnd_representable; assumption.
  - cbn [ev]. apply SFadd_finite_rnd; assumption.
Qed.

(** Multiplying by one changes nothing. *)
Lemma SFmul_one (x : spec_float) :
  valid_binary x = true -> SFfinite x = true ->
  ord (SFmul prec emax x (S754_finite false 4503599627370496 (-52))) = ord x.
Proof.
  intros Vx Fx.
  apply (rnd_fun (1074 + 1074) (ev (1074 + 1074) x)); [lia| |].
  - replace (ev (1074 + 1074) x)
      with (ev 1074 x * ev 1074 (S754_finite false 4503599627370496 (-52))).
    + apply SFmul_rnd; try assumption; try reflexivity; lia.
    + destruct x as [s|s| |s m e]; try reflexivity. cbn [ev].
      destruct (valid_finite_bounds _ _ _ Vx) as (_ & He & _ & _).
      change (-52 + 1074) with 1022.
      replace (e + (1074 + 1074)) with ((e + 1074) + (52 + 1022)) by lia.
      rewrite (pow2_split (e + 1074) (52 + 1022)), (pow2_split 52 1022) by lia.
      pow_consts. ring.
  - apply rnd_ev; try assumption; lia.
Qed.

(** *** Signs of products, sums and quotients *)

Lemma SFmul_nonneg x y :
  SFnonneg x = true -> SFnonneg y = true ->
  SFfinite x = true \/ SFis_zero y = false ->
  SFfinite y = true \/ SFis_zero x = false ->
  SFnonneg (SFmul prec emax x y) = true.
Proof.
  intros Sx Sy H1 H2.
  destruct x as [sx|sx| |sx mx ex]; try discriminate;
  destruct y as [sy|sy| |sy my ey]; try discriminate;
  cbn [SFnonneg] in Sx, Sy;
  try (apply negb_true_iff in Sx; subst sx);
  try (apply negb_true_iff in Sy; subst sy);
  cbn [SFmul SFnonneg xorb SFfinite SFis_zero] in *;
  try reflexivity;
  try (destruct H1; discriminate); try (destruct H2; discriminate).
  apply has_sign_nonneg, binary_round_aux_sign. lia.
Qed.

Lemma SFadd_nonneg x y :
  SFnonneg x = true -> SFnonneg y = true ->
  SFnonneg (SFadd prec emax x y) = true.
Proof.
  intros Sx Sy.
  destruct x as [sx|sx| |sx mx ex]; try discriminate;
  destruct y as [sy|sy| |sy my ey]; try discriminate;
  cbn [SFnonneg] in Sx, Sy;
  try (apply negb_true_iff in Sx; subst sx);
  try (apply negb_true_iff in Sy; subst sy);
  try reflexivity.
  - destruct sx, sy; reflexivity.
  - cbn [SFadd cond_Zopp].
    destruct (shl_align mx ex _) as [ax ez1].
    destruct (shl_align my ey _) as [ay ez2].
    cbn [fst]. change (Zpos ax + Zpos ay) with (Zpos (ax + ay)).
    cbn [binary_normalize]. apply has_sign_nonneg, binary_round_sign.
Qed.

Lemma SFdiv_finite_sign sx mx ex sy my ey :
  has_sign (xorb sx sy)
    (SFdiv prec emax (S754_finite sx mx ex) (S754_finite sy my ey)).
Proof.
  cbn [SFdiv]. unfold SFdiv_core_binary.
  set (m' := match _ with Zpos _ => _ | 0 => _ | Zneg _ => _ end).
  assert (Hm' : 0 <= m').
  { unfold m'. destruct (ex - ey - _); try lia.
    rewrite Z.shiftl_mul_pow2 by lia. apply Z.mul_nonneg_nonneg; [lia|].
    apply Z.pow_nonneg; lia. }
  pose proof (Z.div_pos m' (Zpos my) Hm' ltac:(lia)) as Hq.
  unfold Z.div in Hq. destruct (Z.div_eucl m' (Zpos my)) as [q r].
  cbn [fst] in Hq. apply binary_round_aux_sign. exact Hq.
Qed.

Lemma SFdiv_nonneg x y :
  SFnonneg x = true -> SFnonneg y = true -> SFis_zero y = false ->
  SFfinite x = true \/ SFfinite y = true ->
  SFnonneg (SFdiv prec emax x y) = true.
Proof.
  intros Sx Sy Zy H.
  destruct x as [sx|sx| |sx mx ex]; try discriminate;
  destruct y as [sy|sy| |sy my ey]; try discriminate;
  cbn [SFnonneg] in Sx, Sy;
  try (apply negb_true_iff in Sx; subst sx);
  try (apply negb_true_iff in Sy; subst sy);
  try reflexivity; try (destruct H; discriminate).
  apply has_sign_nonneg. apply (SFdiv_finite_sign false mx ex false my ey).
Qed.

(** A real number divided by anything but zero and NaN is not a NaN. *)
Lemma SFdiv_not_nan x y :
  SFfinite x = true -> SFis_zero y = false -> SFis_nan y = false ->
  SFis_nan (SFdiv prec emax x y) = false.
Proof.
  intros Fx Zy Ny.
  destruct x as [sx|sx| |sx mx ex]; try discriminate;
  destruct y as [sy|sy| |sy my ey]; try discriminate; try reflexivity.
  eapply has_sign_not_nan, SFdiv_finite_sign.
Qed.

(** A product of two real numbers is not a NaN. *)
Lemma SFmul_not_nan x y :
  SFfinite x = true -> SFfinite y = true ->
  SFis_nan (SFmul prec emax x y) = false.
Proof.
  intros Fx Fy.
  destruct x as [sx|sx| |sx mx ex]; try discriminate;
  destruct y as [sy|sy| |sy my ey]; try discriminate; try reflexivity.
  cbn [SFmul]. eapply has_sign_not_nan, binary_round_aux_sign. lia.
Qed.

(** *** Monotonicity and underflow *)

(** The sum of valid non-negative floats is monotone in both summands. *)
Lemma SFadd_ord_mono x x' y y' :
  valid_binary x = true -> valid_binary x' = true ->
  valid_binary y = true -> valid_binary y' = true ->
  SFnonneg x = true -> SFnonneg x' = true ->
  SFnonneg y = true -> SFnonneg y' = true ->
  valid_binary (SFadd prec emax x y) = true ->
  ord x <= ord x' -> ord y <= ord y' ->
  ord (SFadd prec emax x y) <= ord (SFadd prec emax x' y').
Proof.
  intros Vx Vx' Vy Vy' Sx Sx' Sy Sy' Vs Hx Hy.
  pose proof (SFadd_nonneg x y Sx Sy) as Ss.
  destruct (ord_valid_range _ Vs Ss) as [[_ Htop] _].
  destruct (SFfinite x') eqn:Fx'; [destruct (SFfinite y') eqn:Fy'|].
  - destruct (ord_valid_range _ Vx' Sx') as [_ Hx']. specialize (Hx' Fx').
    destruct (ord_valid_range _ Vy' Sy') as [_ Hy']. specialize (Hy' Fy').
    assert (Fx : SFfinite x = true).
    { destruct x as [s|s| |s m e]; try reflexivity; try discriminate.
      cbn [ord] in Hx. lia. }
    assert (Fy : SFfinite y = true).
    { destruct y as [s|s| |s m e]; try reflexivity; try discriminate.
      cbn [ord] in Hy. lia. }
    apply (rnd_mono 1074 (ev 1074 x + ev 1074 y) (ev 1074 x' + ev 1074 y')).
    + lia.
    + pose proof (ord_le_ev_le 1074 x x' ltac:(lia) Vx Vx' Fx Fx' Hx).
      pose proof (ord_le_ev_le 1074 y y' ltac:(lia) Vy Vy' Fy Fy' Hy). lia.
    + apply SFadd_rnd; try assumption; lia.
    + apply SFadd_rnd; try assumption; lia.
  - assert (E : SFadd prec emax x' y' = S754_infinity false).
    { destruct y' as [s|s| |s m e]; try discriminate. cbn in Sy'.
      apply negb_true_iff in Sy'; subst s.
      destruct x' as [s|s| |s m e]; try discriminate; try reflexivity. }
    rewrite E. exact Htop.
  - assert (E : SFadd prec emax x' y' = S754_infinity false).
    { destruct x' as [s|s| |s m e]; try discriminate. cbn in Sx'.
      apply negb_true_iff in Sx'; subst s.
      destruct y' as [s|s| |s m e]; try discriminate; try reflexivity.
      cbn in Sy'. apply negb_true_iff in Sy'; subst s. reflexivity. }
    rewrite E. exact Htop.
Qed.

(** The product of valid non-negative reals is monotone in its second
    factor. *)
Lemma SFmul_ord_mono x y y' :
  valid_binary x = true -> valid_binary y = true -> valid_binary y' = true ->
  SFfinite x = true -> SFfinite y = true -> SFfinite y' = true ->
  ord y <= ord y' ->
  ord (SFmul prec emax x y) <= ord (SFmul prec emax x y').
Proof.
  intros Vx Vy Vy' Fx Fy Fy' Hy.
  apply (rnd_mono (1074 + 1074) (ev 1074 x * ev 1074 y) (ev 1074 x * ev 1074 y')).
  - lia.
  - apply Z.mul_le_mono_nonneg_l; [apply ev_nonneg|].
    apply ord_le_ev_le; try assumption; lia.
  - apply SFmul_rnd; try assumption; lia.
  - apply SFmul_rnd; try assumption; lia.
Qed.

(** A product underflows to zero only below the smallest positive double. *)
Lemma SFmul_not_zero x y :
  valid_binary x = true -> valid_binary y = true ->
  SFfinite x = true -> SFfinite y = true ->
  2 ^ (1074 + 1074 - 1074) <= ev 1074 x * ev 1074 y ->
  SFis_zero (SFmul prec emax x y) = false.
Proof.
  intros Vx Vy Fx Fy Hlow.
  assert (H1 : rnd (1074 + 1074) (Zpos 1 * 2 ^ (-1074 + (1074 + 1074)))
                 (ord (S754_finite false 1 (-1074)))).
  { apply rnd_representable; [lia|reflexivity]. }
  pose proof (SFmul_rnd 1074 1074 x y ltac:(lia) ltac:(lia) Vx Vy Fx Fy) as H2.
  assert (Hle : Zpos 1 * 2 ^ (-1074 + (1074 + 1074)) <= ev 1074 x * ev 1074 y).
  { rewrite Z.mul_1_l. exact Hlow. }
  pose proof (rnd_mono (1074 + 1074) _ _ _ _ ltac:(lia) Hle H1 H2) as H.
  destruct (SFmul prec emax x y) as [s|s| |s m e]; try reflexivity.
  cbn [ord] in H. lia.
Qed.

(** *** Overflow *)

(** No overflow: a value below [2^1023] rounds to a finite double. *)
Lemma binary_round_aux_finite s m e l :
  0 <= m -> e <= 971 -> Zdigits2 m + e <= 1023 ->
  SFfinite (binary_round_aux prec emax s m e l) = true.
Proof.
  intros Hm He Hd. unfold binary_round_aux, shr_fexp.
  pose proof (shr_digits (shr_record_of_loc m l) e
                (fexp prec emax (Zdigits2 m + e) - e)) as H1.
  rewrite shr_record_of_loc_m in H1. specialize (H1 Hm).
  destruct (shr (shr_record_of_loc m l) e _) as [mrs' e'].
  destruct H1 as (Hq1 & Hn1 & Hp1 & Hd1).
  assert (He' : e' <= 971 /\ Zdigits2 (shr_m mrs') + e' <= 1023).
  { rewrite fexp_eq in *.
    destruct (Z_le_gt_dec (Z.max (Zdigits2 m + e - 53) (-1074) - e) 0) as [Hle|Hgt].
    - destruct (Hn1 Hle) as [-> ->]. rewrite shr_record_of_loc_m. lia.
    - specialize (Hp1 ltac:(lia)). lia. }
  destruct He' as [He' Hd'].
  set (Q := round_nearest_even (shr_m mrs') (loc_of_shr_record mrs')).
  assert (HQ : 0 <= Q /\ Zdigits2 Q <= Zdigits2 (shr_m mrs') + 1).
  { unfold Q. destruct (round_nearest_even_range (shr_m mrs') (loc_of_shr_record mrs'))
      as [->| ->]; [lia|]. split; [lia|]. apply Zdigits2_succ; assumption. }
  destruct HQ as [HQ0 HQd].
  pose proof (shr_digits (shr_record_of_loc Q loc_Exact) e'
                (fexp prec emax (Zdigits2 Q + e') - e')) as H2.
  cbn [shr_record_of_loc shr_m] in H2. specialize (H2 HQ0).
  cbn [shr_record_of_loc].
  destruct (shr {| shr_m := Q; shr_r := false; shr_s := false |} e' _) as [mrs'' e''].
  destruct H2 as (Hq2 & Hn2 & Hp2 & _).
  assert (He'' : e'' <= 971).
  { rewrite fexp_eq in *.
    destruct (Z_le_gt_dec (Z.max (Zdigits2 Q + e' - 53) (-1074) - e') 0) as [Hle|Hgt].
    - destruct (Hn2 Hle) as [_ ->]. lia.
    - specialize (Hp2 ltac:(lia)). lia. }
  destruct (shr_m mrs'') as [|p|p]; [reflexivity| |lia].
  replace (e'' <=? emax - prec) with true; [reflexivity|].
  symmetry. apply Z.leb_le. unfold emax, prec. lia.
Qed.

(** Dividing by a double of magnitude at least 2 never overflows. *)
Lemma SFdiv_finite sx mx ex sy my ey :
  valid_binary (S754_finite sx mx ex) = true ->
  2 <= Zpos (digits2_pos my) + ey ->
  SFfinite (SFdiv prec emax (S754_finite sx mx ex) (S754_finite sy my ey)) = true.
Proof.
  intros Vx Hy.
  destruct (valid_finite_bounds _ _ _ Vx) as (Hc & Hex & Hmx & _).
  pose proof (digits2_bounds mx) as [Lx Ux].
  pose proof (digits2_bounds my) as [Ly Uy].
  cbn [SFdiv]. unfold SFdiv_core_binary. cbn [Zdigits2].
  set (dx := Zpos (digits2_pos mx)) in *. set (dy := Zpos (digits2_pos my)) in *.
  assert (Hdx : 1 <= dx <= 53).
  { split; [unfold dx; lia|]. rewrite fexp_eq in Hc. lia. }
  assert (Hdy : 1 <= dy) by (unfold dy; lia).
  set (e' := Z.min (fexp prec emax (dx + ex - (dy + ey))) (ex - ey)).
  assert (He' : e' <= 971 /\ e' <= ex - ey /\ dx + ex - (dy + ey) - 53 <= fexp prec emax (dx + ex - (dy + ey))).
  { unfold e'. rewrite fexp_eq. lia. }
  set (sh := ex - ey - e') in *.
  set (m' := match sh with Zpos _ => Z.shiftl (Zpos mx) sh | 0 => Zpos mx | Zneg _ => 0 end).
  assert (Hm' : 0 <= m' < 2 ^ (dx + sh) /\ 0 <= sh).
  { unfold m'. destruct sh as [|p|p] eqn:Es; [| |lia].
    - rewrite Z.add_0_r. lia.
    - rewrite Z.shiftl_mul_pow2 by lia. rewrite Z.pow_add_r by lia.
      assert (0 < 2 ^ Zpos p) by (apply pow2_pos; lia). nia. }
  destruct Hm' as [[Hm0 Hm1] Hsh].
  pose proof (Z.div_pos m' (Zpos my) Hm0 ltac:(lia)) as Hq.
  pose proof (Z.mul_div_le m' (Zpos my) ltac:(lia)) as Hqm.
  unfold Z.div in Hq, Hqm. destruct (Z.div_eucl m' (Zpos my)) as [q r].
  cbn [fst] in Hq, Hqm.
  apply binary_round_aux_finite; [exact Hq|lia|].
  destruct (Z.eq_dec q 0) as [->|Hq0]; [cbn [Zdigits2]; lia|].
  assert (Zdigits2 q <= dx + sh - dy + 1); [|unfold sh in *; lia].
  destruct (Z_le_gt_dec (dx + sh - dy + 1) 0) as [Hneg|Hpos].
  - exfalso.
    assert (2 ^ (dx + sh) <= 2 ^ (dy - 1)) by (apply Z.pow_le_mono_r; lia).
    nia.
  - apply Zdigits2_le; [lia|lia|].
    apply Z.mul_lt_mono_pos_r with (p := 2 ^ (dy - 1)); [apply pow2_pos; lia|].
    rewrite <- Z.pow_add_r by lia.
    replace (dx + sh - dy + 1 + (dy - 1)) with (dx + sh) by lia.
    eapply Z.le_lt_trans; [|exact Hm1].
    eapply Z.le_trans; [|exact Hqm].
    rewrite (Z.mul_comm (Zpos my)). apply Z.mul_le_mono_nonneg_l; lia.
Qed.

End Rounding.

(** ** The primitive operations *)

Lemma Prim2SF_zero : Prim2SF 0 = S754_zero false.
Proof. reflexivity. Qed.

Lemma Prim2SF_infinity : Prim2SF infinity = S754_infinity false.
Proof. reflexivity. Qed.

Lemma eqb_zero_spec (x : float) : (x =? 0) = SFis_zero (Prim2SF x).
Proof.
  rewrite eqb_spec, Prim2SF_zero.
  destruct (Prim2SF x) as [s|s| |s m e]; try reflexivity; destruct s; reflexivity.
Qed.

Lemma leb_zero_spec (x : float) : (0 <=? x) = SFnonneg (Prim2SF x).
Proof.
  rewrite leb_spec, Prim2SF_zero.
  destruct (Prim2SF x) as [s|s| |s m e]; try reflexivity; destruct s; reflexivity.
Qed.

Lemma nonneg_real_spec (x : float) :
  nonneg_real x = SFnonneg (Prim2SF x) && SFfinite (Prim2SF x).
Proof.
  unfold nonneg_real. rewrite leb_zero_spec, ltb_spec, Prim2SF_infinity.
  destruct (Prim2SF x) as [s|s| |s m e]; try reflexivity; destruct s; reflexivity.
Qed.

Lemma nonneg_real_elim (x : float) :
  nonneg_real x = true ->
  SFnonneg (Prim2SF x) = true /\ SFfinite (Prim2SF x) = true.
Proof. rewrite nonneg_real_spec. apply andb_true_iff. Qed.

Lemma nonneg_real_nonneg (x : float) : nonneg_real x = true -> (0 <=? x) = true.
Proof. unfold nonneg_real. intros H. apply andb_true_iff in H. apply H. Qed.

Lemma fl_leb_ord (x y : float) :
  (0 <=? x) = true -> (0 <=? y) = true ->
  (x <=? y) = (ord (Prim2SF x) <=? ord (Prim2SF y))%Z.
Proof.
  rewrite !leb_zero_spec. intros Hx Hy. rewrite leb_spec.
  apply SFleb_ord; auto using Prim2SF_valid.
Qed.

Lemma fl_leb_refl (x : float) : (0 <=? x) = true -> (x <=? x) = true.
Proof. intros H. rewrite fl_leb_ord by assumption. apply Z.leb_refl. Qed.

Lemma fl_mul_nonneg (x y : float) :
  nonneg_real x = true -> nonneg_real y = true -> (0 <=? x * y) = true.
Proof.
  intros Hx Hy. apply nonneg_real_elim in Hx as [Sx Fx], Hy as [Sy Fy].
  rewrite leb_zero_spec, mul_spec. apply SFmul_nonneg; auto.
Qed.

Lemma fl_mul_nonneg_const (x c : float) :
  (0 <=? x) = true -> nonneg_real c = true -> (c =? 0) = false ->
  (0 <=? x * c) = true.
Proof.
  intros Hx Hc Hz. apply nonneg_real_elim in Hc as [Sc Fc].
  rewrite leb_zero_spec in *. rewrite eqb_zero_spec in Hz.
  rewrite mul_spec. apply SFmul_nonneg; auto.
Qed.

Lemma fl_add_nonneg (x y : float) :
  (0 <=? x) = true -> (0 <=? y) = true -> (0 <=? x + y) = true.
Proof.
  rewrite !leb_zero_spec, add_spec. apply SFadd_nonneg.
Qed.

Lemma fl_div_nonneg (x y : float) :
  nonneg_real x = true -> (0 <=? y) = true -> (y =? 0) = false ->
  (0 <=? x / y) = true.
Proof.
  intros Hx Hy Hz. apply nonneg_real_elim in Hx as [Sx Fx].
  rewrite leb_zero_spec in *. rewrite eqb_zero_spec in Hz.
  rewrite div_spec. apply SFdiv_nonneg; auto.
Qed.

Lemma fl_mul_mono (p h h' : float) :
  nonneg_real p = true -> nonneg_real h = true -> nonneg_real h' = true ->
  (h <=? h') = true -> (p * h <=? p * h') = true.
Proof.
  intros Hp Hh Hh' Hle.
  pose proof (fl_mul_nonneg p h Hp Hh) as N1.
  pose proof (fl_mul_nonneg p h' Hp Hh') as N2.
  rewrite fl_leb_ord in Hle by auto using nonneg_real_nonneg.
  rewrite fl_leb_ord by assumption.
  apply Z.leb_le in Hle. apply Z.leb_le.
  apply nonneg_real_elim in Hp as [Sp Fp], Hh as [Sh Fh], Hh' as [Sh' Fh'].
  rewrite !mul_spec.
  apply SFmul_ord_mono; auto using Prim2SF_valid.
Qed.

Lemma fl_add_mono (a a' b b' : float) :
  (0 <=? a) = true -> (0 <=? a') = true ->
  (0 <=? b) = true -> (0 <=? b') = true ->
  (a <=? a') = true -> (b <=? b') = true ->
  (a + b <=? a' + b') = true.
Proof.
  intros Ha Ha' Hb Hb' Hla Hlb.
  rewrite fl_leb_ord in Hla, Hlb by assumption.
  rewrite fl_leb_ord by (apply fl_add_nonneg; assumption).
  apply Z.leb_le in Hla, Hlb. apply Z.leb_le.
  rewrite leb_zero_spec in *.
  pose proof (Prim2SF_valid (a + b)) as Vs.
  rewrite !add_spec in *.
  apply SFadd_ord_mono; auto using Prim2SF_valid.
Qed.

(** ** The constants of the module, read on their specification *)

Lemma Prim2SF_one : Prim2SF 1 = S754_finite false 4503599627370496 (-52).
Proof. reflexivity. Qed.

Lemma Prim2SF_density :
  Prim2SF METHANOL_ENERGY_DENSITY = S754_finite false 4953959590107546 (-52).
Proof. reflexivity. Qed.

Lemma Prim2SF_voltage :
  Prim2SF BATTERY_VOLTAGE = S754_finite false 7205759403792794 (-49).
Proof. reflexivity. Qed.

Lemma Prim2SF_1000 : Prim2SF 1000 = S754_finite false 8796093022208000 (-43).
Proof. reflexivity. Qed.

Lemma Prim2SF_10 : Prim2SF 10 = S754_finite false 5629499534213120 (-49).
Proof. reflexivity. Qed.

(** The chemical energy of a non-zero amount of methanol is not zero: the
    density is above one, so the product cannot underflow. *)
Lemma mul_density_nonzero (m : float) :
  (m =? 0) = false -> (m * METHANOL_ENERGY_DENSITY =? 0) = false.
Proof.
  rewrite !eqb_zero_spec, mul_spec, Prim2SF_density.
  pose proof (Prim2SF_valid m) as Vm.
  destruct (Prim2SF m) as [s|s| |s mx ex]; intros Hz; try discriminate;
    try reflexivity.
  apply SFmul_not_zero; try reflexivity; try assumption.
  destruct (valid_finite_bounds _ _ _ Vm) as (_ & Hex & _ & _).
  cbn [ev].
  change (1074 + 1074 - 1074)%Z with (52 + 1022)%Z.
  change (-52 + 1074)%Z with 1022%Z.
  rewrite (pow2_split 52 1022) by lia. pow_consts.
  assert (H1 : (0 < 2 ^ 1022)%Z) by (apply pow2_pos; lia).
  assert (H2 : (0 < 2 ^ (ex + 1074))%Z) by (apply pow2_pos; lia).
  set (P := (2 ^ 1022)%Z) in *. set (K := (2 ^ (ex + 1074))%Z) in *.
  assert (H3 : (1 <= Z.pos mx * K)%Z) by nia.
  nia.
Qed.

(** A zero peak power implies a zero peak current, which is within the
    battery limit. *)
Lemma zero_power_within_limit (p : float) :
  (p =? 0) = true -> (p / BATTERY_VOLTAGE <=? 200) = true.
Proof.
  rewrite eqb_zero_spec, leb_spec, div_spec, Prim2SF_voltage.
  destruct (Prim2SF p) as [s|s| |s m e]; intros Hz; try discriminate.
  destruct s; reflexivity.
Qed.

(** Scaling a non-negative real by a factor of at most one cannot overflow. *)
Lemma fl_mul_fraction_real (k c : float) :
  nonneg_real k = true -> nonneg_real c = true -> (c <=? 1) = true ->
  nonneg_real (k * c) = true.
Proof.
  intros Hk Hc Hle.
  pose proof (fl_mul_nonneg k c Hk Hc) as Hn.
  rewrite fl_leb_ord in Hle by (auto using nonneg_real_nonneg).
  apply Z.leb_le in Hle. rewrite Prim2SF_one in Hle.
  rewrite nonneg_real_spec. rewrite leb_zero_spec in Hn. rewrite Hn.
  apply nonneg_real_elim in Hk as [Sk Fk], Hc as [Sc Fc].
  apply ord_below_top_finite; [exact Hn|].
  rewrite mul_spec.
  eapply Z.le_lt_trans.
  - apply (SFmul_ord_mono _ _ (S754_finite false 4503599627370496 (-52)));
      try assumption; try reflexivity; auto using Prim2SF_valid.
  - rewrite SFmul_one by auto using Prim2SF_valid.
    apply ord_valid_range; auto using Prim2SF_valid.
Qed.

(** Dividing a non-negative real by a thousand gives a non-negative real. *)
Lemma fl_div_1000_real (x : float) :
  nonneg_real x = true -> nonneg_real (x / 1000) = true.
Proof.
  intros Hx. rewrite nonneg_real_spec.
  apply nonneg_real_elim in Hx as [Sx Fx]. pose proof (Prim2SF_valid x) as Vx.
  rewrite div_spec, Prim2SF_1000. apply andb_true_iff. split.
  - apply SFdiv_nonneg; auto.
  - destruct (Prim2SF x) as [s|s| |s m e]; try discriminate; [reflexivity|].
    apply SFdiv_finite; [assumption|]. vm_compute. discriminate.
Qed.

(** [round(x, 1)] of a non-negative float is non-negative. *)
Lemma py_round1_nonneg (x : float) :
  (0 <=? x) = true -> (0 <=? py_round1 x) = true.
Proof.
  intros Hx. unfold py_round1.
  pose proof Hx as Sx. rewrite leb_zero_spec in Sx.
  destruct (Prim2SF x) as [s|s| |s m e]; try exact Hx.
  cbn [SFnonneg] in Sx. apply negb_true_iff in Sx. subst s.
  destruct (0x1p49 <=? abs x); [exact Hx|].
  rewrite leb_zero_spec, div_spec, Prim2SF_10, of_uint63_spec.
  apply SFdiv_nonneg; try reflexivity; [|right; reflexivity].
  pose proof (Uint63.to_Z_bounded (Uint63.of_Z (tenths_half_even m e))) as [H0 _].
  destruct (Uint63.to_Z _) as [|p|p]; [reflexivity| |lia].
  cbn [binary_normalize]. apply has_sign_nonneg, binary_round_sign.
Qed.

(** ** The calculator's building blocks *)

Lemma py_truediv_ok (x y : float) :
  (y =? 0) = false -> py_truediv x y = Ok (x / y).
Proof. unfold py_truediv. intros ->. reflexivity. Qed.

Lemma py_truediv_zero (x y : float) :
  (y =? 0) = true -> py_truediv x y = Raise ZeroDivisionError.
Proof. unfold py_truediv. intros ->. reflexivity. Qed.

Lemma fold_py_add_float (ts : list float) (a : float) :
  fold_left py_add (map VFloat ts) (VFloat a) = VFloat (fold_left PrimFloat.add ts a).
Proof.
  revert a. induction ts as [|t ts IH]; intros a; [reflexivity|].
  cbn [map fold_left]. apply IH.
Qed.

(** On a non-empty list of floats, [sum] is the float sum from [0.0]. *)
Lemma py_sum_floats (ts : list float) :
  ts <> [] -> py_sum (map VFloat ts) = VFloat (fold_left PrimFloat.add ts 0).
Proof.
  destruct ts as [|t ts]; [congruence|]. intros _.
  unfold py_sum. cbn [map fold_left]. apply fold_py_add_float.
Qed.

Lemma daily_energy_demand_floats (apps : list Appliance) :
  apps <> [] ->
  calculate_daily_energy_demand apps =
  Ok (VFloat (fold_left PrimFloat.add (map (fun app => power app * hours app) apps) 0)).
Proof.
  intros Hne. unfold calculate_daily_energy_demand.
  rewrite <- (map_map (fun app => power app * hours app) VFloat).
  rewrite py_sum_floats; [reflexivity|].
  destruct apps; [congruence|discriminate].
Qed.

(** ** What each function computes *)

Lemma calculate_methanol_consumption_eq (energy_wh : float) :
  calculate_methanol_consumption energy_wh
  = Ok (VFloat (energy_wh / 1000 * METHANOL_CONSUMPTION_PER_KWH)).
Proof.
  unfold calculate_methanol_consumption.
  rewrite py_truediv_ok by reflexivity. reflexivity.
Qed.

Lemma calculate_tank_autonomy_eq (liters_available daily_consumption_l : float) :
  calculate_tank_autonomy liters_available daily_consumption_l
  = Ok (VFloat (if daily_consumption_l =? 0 then infinity
                else liters_available / daily_consumption_l)).
Proof.
  unfold calculate_tank_autonomy.
  destruct (daily_consumption_l =? 0) eqn:Hd; [reflexivity|].
  rewrite py_truediv_ok by exact Hd. reflexivity.
Qed.

Lemma battery_discharge_time_eq (energy_wh : float) :
  battery_discharge_time energy_wh
  = Ok (VFloat (if energy_wh =? 0 then infinity
                else BATTERY_CAPACITY_WH / energy_wh * 24)).
Proof.
  unfold battery_discharge_time.
  destruct (energy_wh =? 0) eqn:He; [reflexivity|].
  rewrite py_truediv_ok by exact He. reflexivity.
Qed.

Lemma fuel_cell_efficiency_eq (useful_energy_kwh methanol_used_l : float) :
  fuel_cell_efficiency useful_energy_kwh methanol_used_l
  = Ok (if methanol_used_l =? 0 then VInt 0
        else VFloat (useful_energy_kwh / (methanol_used_l * METHANOL_ENERGY_DENSITY))).
Proof.
  unfold fuel_cell_efficiency.
  destruct (methanol_used_l =? 0) eqn:Hm; [reflexivity|].
  cbv zeta. rewrite py_truediv_ok by (apply mul_density_nonzero, Hm). reflexivity.
Qed.

Lemma system_efficiency_eq (energy_delivered_kwh methanol_liters : float) :
  system_efficiency energy_delivered_kwh methanol_liters
  = Ok (VFloat (if methanol_liters =? 0 then 0
                else energy_delivered_kwh / (methanol_liters * METHANOL_ENERGY_DENSITY))).
Proof.
  unfold system_efficiency.
  destruct (methanol_liters =? 0) eqn:Hm; [reflexivity|].
  cbv zeta. rewrite py_truediv_ok by (apply mul_density_nonzero, Hm). reflexivity.
Qed.

Lemma global_system_efficiency_eq
    (battery_energy_wh fuel_cell_energy_wh methanol_used_l : float) :
  global_system_efficiency battery_energy_wh fuel_cell_energy_wh methanol_used_l
  = Ok (VFloat (if methanol_used_l =? 0 then 0
                else (fuel_cell_energy_wh / 1000 * BATTERY_EFFICIENCY)
                     / (methanol_used_l * METHANOL_ENERGY_DENSITY))).
Proof.
  unfold global_system_efficiency.
  destruct (methanol_used_l =? 0) eqn:Hm; [reflexivity|].
  rewrite py_truediv_ok by reflexivity. cbn [bind].
  rewrite py_truediv_ok by (apply mul_density_nonzero, Hm). reflexivity.
Qed.

Lemma peak_load_coverage_eq (peak_power_w : float) :
  peak_load_coverage peak_power_w
  = Ok (VFloat (if peak_power_w / BATTERY_VOLTAGE <=? 200 then 100.0
                else py_round1 (200 * BATTERY_VOLTAGE / peak_power_w * 100))).
Proof.
  unfold peak_load_coverage.
  rewrite py_truediv_ok by reflexivity. cbn [bind].
  destruct (peak_power_w / BATTERY_VOLTAGE <=? 200) eqn:Hc; [reflexivity|].
  assert (Hp : (peak_power_w =? 0) = false).
  { destruct (peak_power_w =? 0) eqn:Hp; [|reflexivity].
    rewrite (zero_power_within_limit _ Hp) in Hc. discriminate. }
  rewrite py_truediv_ok by exact Hp. reflexivity.
Qed.

Lemma battery_charge_time_needed_eq (energy_to_charge_wh fuel_cell_output_w : float) :
  battery_charge_time_needed energy_to_charge_wh fuel_cell_output_w
  = if fuel_cell_output_w =? 0 then Raise ZeroDivisionError
    else Ok (VFloat (energy_to_charge_wh / fuel_cell_output_w)).
Proof.
  unfold battery_charge_time_needed, py_truediv.
  destruct (fuel_cell_output_w =? 0); reflexivity.
Qed.

(** ** The claims *)

(** C1, as the code has it.  Every calculator function but one is total on
    floats and never raises: [calculate_daily_energy_demand],
    [calculate_methanol_consumption], [calculate_tank_autonomy],
    [battery_discharge_time], [global_system_efficiency],
    [fuel_cell_efficiency], [system_efficiency] and [peak_load_coverage]
    return a value on every input, with infinity (the two autonomies) or zero
    (the three efficiencies) in the degenerate case of a zero denominator.
    [battery_charge_time_needed] has no guard: it returns
    [energy_to_charge_wh / fuel_cell_output_w] when [fuel_cell_output_w] is not
    zero, in particular at its default [FUEL_CELL_OUTPUT_W], and raises
    [ZeroDivisionError] when [fuel_cell_output_w == 0]. *)
Theorem calculator_total_but_charge_time :
  (forall appliances, returns (calculate_daily_energy_demand appliances))
  /\ (forall energy_wh, returns (calculate_methanol_consumption energy_wh))
  /\ (forall liters daily, returns (calculate_tank_autonomy liters daily))
  /\ (forall energy_wh, returns (battery_discharge_time energy_wh))
  /\ (forall battery fuel_cell methanol,
         returns (global_system_efficiency battery fuel_cell methanol))
  /\ (forall energy methanol, returns (fuel_cell_efficiency energy methanol))
  /\ (forall energy methanol, returns (system_efficiency energy methanol))
  /\ (forall peak_power_w, returns (peak_load_coverage peak_power_w))
  /\ (forall liters, calculate_tank_autonomy liters 0 = Ok (VFloat infinity))
  /\ battery_discharge_time 0 = Ok (VFloat infinity)
  /\ (forall battery fuel_cell,
         global_system_efficiency battery fuel_cell 0 = Ok (VFloat 0))
  /\ (forall energy, fuel_cell_efficiency energy 0 = Ok (VInt 0))
  /\ (forall energy, system_efficiency energy 0 = Ok (VFloat 0))
  /\ (forall energy output,
         battery_charge_time_needed energy output
         = if output =? 0 then Raise ZeroDivisionError
           else Ok (VFloat (energy / output)))
  /\ (forall energy,
         battery_charge_time_needed energy FUEL_CELL_OUTPUT_W
         = Ok (VFloat (energy / 125))).
Proof.
  repeat match goal with |- _ /\ _ => split end; intros;
    rewrite ?calculate_methanol_consumption_eq, ?calculate_tank_autonomy_eq,
      ?battery_discharge_time_eq, ?global_system_efficiency_eq,
      ?fuel_cell_efficiency_eq, ?system_efficiency_eq, ?peak_load_coverage_eq,
      ?battery_charge_time_needed_eq;
    first [reflexivity | eexists; reflexivity].
Qed.

(** C1, as stated, fails: with a zero [fuel_cell_output_w],
    [battery_charge_time_needed] raises [ZeroDivisionError] instead of
    returning a number. *)
Lemma battery_charge_time_needed_zero_output_raises :
  battery_charge_time_needed 1 0 = Raise ZeroDivisionError
  /\ ~ returns (battery_charge_time_needed 1 0).
Proof.
  split; [reflexivity|]. intros [v Hv]. discriminate Hv.
Qed.

(** C2.  [calculate_tank_autonomy] never raises: it returns positive
    infinity when the daily consumption is zero and the float quotient
    [liters_available / daily_consumption_l] otherwise; in particular
    [calculate_tank_autonomy(10, 0)] is infinity and
    [calculate_tank_autonomy(10, 2)] is [5]. *)
Theorem calculate_tank_autonomy_spec :
  (forall liters_available daily_consumption_l : float,
      calculate_tank_autonomy liters_available daily_consumption_l
      = Ok (VFloat (if daily_consumption_l =? 0 then infinity
                    else liters_available / daily_consumption_l)))
  /\ calculate_tank_autonomy 10 0 = Ok (VFloat infinity)
  /\ calculate_tank_autonomy 10 2 = Ok (VFloat 5).
Proof.
  split; [exact calculate_tank_autonomy_eq|split; reflexivity].
Qed.

(** C3.  [global_system_efficiency] returns exactly the float [0.0] when no
    methanol was used, and otherwise
    [((fuel_cell_energy_wh / 1000) * BATTERY_EFFICIENCY) /
     (methanol_used_l * METHANOL_ENERGY_DENSITY)]; neither division raises. *)
Theorem global_system_efficiency_spec :
  forall battery_energy_wh fuel_cell_energy_wh methanol_used_l : float,
    global_system_efficiency battery_energy_wh fuel_cell_energy_wh methanol_used_l
    = Ok (VFloat (if methanol_used_l =? 0 then 0
                  else (fuel_cell_energy_wh / 1000 * BATTERY_EFFICIENCY)
                       / (methanol_used_l * METHANOL_ENERGY_DENSITY))).
Proof. exact global_system_efficiency_eq. Qed.


(** C5.  [battery_discharge_time] never raises: it returns positive infinity
    when the energy is zero and [BATTERY_CAPACITY_WH / energy_wh * 24]
    otherwise; in particular [battery_discharge_time(BATTERY_CAPACITY_WH)]
    is [24]. *)
Theorem battery_discharge_time_spec :
  (forall energy_wh : float,
      battery_discharge_time energy_wh
      = Ok (VFloat (if energy_wh =? 0 then infinity
                    else BATTERY_CAPACITY_WH / energy_wh * 24)))
  /\ battery_discharge_time 0 = Ok (VFloat infinity)
  /\ battery_discharge_time BATTERY_CAPACITY_WH = Ok (VFloat 24).
Proof.
  split; [exact battery_discharge_time_eq|split; reflexivity].
Qed.

(** C6.  [peak_load_coverage] never raises: it returns [100.0] when the peak
    current [peak_power_w / BATTERY_VOLTAGE] is at most [200], and
    [round(200 * BATTERY_VOLTAGE / peak_power_w * 100, 1)] otherwise; with
    [BATTERY_VOLTAGE = 12.8], [peak_load_coverage(2400)] is [100.0] and
    [peak_load_coverage(3000)] is [85.3]. *)
Theorem peak_load_coverage_spec :
  (forall peak_power_w : float,
      peak_load_coverage peak_power_w
      = Ok (VFloat (if peak_power_w / BATTERY_VOLTAGE <=? 200 then 100.0
                    else py_round1 (200 * BATTERY_VOLTAGE / peak_power_w * 100))))
  /\ BATTERY_VOLTAGE = 12.8
  /\ peak_load_coverage 2400 = Ok (VFloat 100.0)
  /\ peak_load_coverage 3000 = Ok (VFloat 85.3).
Proof.
  split; [exact peak_load_coverage_eq|repeat split; reflexivity].
Qed.

(** C9.  The result of [global_system_efficiency] does not depend on its
    first argument, [battery_energy_wh]. *)
Theorem global_system_efficiency_ignores_battery_energy :
  forall battery_energy_wh battery_energy_wh' fuel_cell_energy_wh methanol_used_l : float,
    global_system_efficiency battery_energy_wh fuel_cell_energy_wh methanol_used_l
    = global_system_efficiency battery_energy_wh' fuel_cell_energy_wh methanol_used_l.
Proof. intros b b' fc m. reflexivity. Qed.

Lemma is_real_spec (x : float) : is_real x = SFfinite (Prim2SF x).
Proof.
  unfold is_real. rewrite ltb_spec, abs_spec, Prim2SF_infinity.
  destruct (Prim2SF x) as [s|s| |s m e]; reflexivity.
Qed.

Lemma is_nan_spec (x : float) : is_nan x = SFis_nan (Prim2SF x).
Proof.
  unfold is_nan. rewrite eqb_spec.
  destruct (SFis_nan (Prim2SF x)) eqn:Hn.
  - destruct (Prim2SF x); try discriminate. reflexivity.
  - rewrite SFeqb_refl by exact Hn. reflexivity.
Qed.

(** On real arguments the efficiency quotient is a number, not a NaN. *)
Lemma efficiency_not_nan (energy liters : float) :
  is_real energy = true -> is_real liters = true -> (liters =? 0) = false ->
  is_nan (energy / (liters * METHANOL_ENERGY_DENSITY)) = false.
Proof.
  rewrite !is_real_spec, is_nan_spec, div_spec. intros He Hl Hz.
  apply mul_density_nonzero in Hz. rewrite eqb_zero_spec, mul_spec in Hz.
  apply SFdiv_not_nan; [exact He|rewrite mul_spec; exact Hz|].
  rewrite mul_spec. apply SFmul_not_nan; [exact Hl|].
  rewrite Prim2SF_density. reflexivity.
Qed.

(** C10.  [fuel_cell_efficiency] and [system_efficiency] are extensionally
    equal: on all arguments both return, and return the same number (the int
    [0] and the float [0.0] when no methanol was used); Python's [==] holds
    between the two results whenever the common result is not a NaN, hence on
    all real arguments. *)
Theorem fuel_cell_efficiency_system_efficiency_agree :
  forall energy_kwh liters : float,
    exists a b,
      fuel_cell_efficiency energy_kwh liters = Ok a
      /\ system_efficiency energy_kwh liters = Ok b
      /\ to_float a = to_float b
      /\ py_eq a b = negb (is_nan (to_float b))
      /\ (is_real energy_kwh && is_real liters = true -> py_eq a b = true)
      /\ ((liters =? 0) = true -> a = VInt 0 /\ b = VFloat 0 /\ py_eq a b = true).
Proof.
  intros e l. rewrite fuel_cell_efficiency_eq, system_efficiency_eq.
  destruct (l =? 0) eqn:Hl.
  - exists (VInt 0), (VFloat 0). repeat split; reflexivity.
  - eexists; eexists. split; [reflexivity|]. split; [reflexivity|].
    split; [reflexivity|]. cbn [py_eq to_float]. unfold is_nan at 1.
    rewrite negb_involutive. split; [reflexivity|]. split; [|discriminate].
    intros Hr. apply andb_true_iff in Hr as [He Hl'].
    pose proof (efficiency_not_nan e l He Hl' Hl) as Hn.
    unfold is_nan in Hn. apply negb_false_iff in Hn. exact Hn.
Qed.

(** ** Sums of non-negative terms *)

Lemma fold_add_nonneg (ts : list float) (a : float) :
  Forall (fun t => (0 <=? t) = true) ts -> (0 <=? a) = true ->
  (0 <=? fold_left PrimFloat.add ts a) = true.
Proof.
  intros H. revert a. induction H as [|t ts Ht _ IH]; intros a Ha; [exact Ha|].
  cbn [fold_left]. apply IH, fl_add_nonneg; assumption.
Qed.

Lemma fold_add_mono (ts ts' : list float) :
  Forall2 term_le ts ts' ->
  forall a a', term_le a a' ->
    term_le (fold_left PrimFloat.add ts a) (fold_left PrimFloat.add ts' a').
Proof.
  induction 1 as [|t t' ts ts' (Ht & Ht' & Hle) _ IH]; intros a a' Ha; [exact Ha|].
  destruct Ha as (Ha & Ha' & Hale).
  cbn [fold_left]. apply IH. repeat split.
  - apply fl_add_nonneg; assumption.
  - apply fl_add_nonneg; assumption.
  - apply fl_add_mono; assumption.
Qed.

Lemma well_formed_term (app : Appliance) :
  well_formed app = true -> (0 <=? power app * hours app) = true.
Proof.
  unfold well_formed. intros H. apply andb_true_iff in H as [Hp Hh].
  apply fl_mul_nonneg; assumption.
Qed.




(** ** Non-negative results *)

Lemma nonneg_result_float (f : float) :
  (0 <=? f) = true -> nonneg_result (Ok (VFloat f)).
Proof. intros H. exists (VFloat f). split; [reflexivity|exact H]. Qed.

Lemma positive_spec (w : float) :
  (0 <? w) = true -> (0 <=? w) = true /\ (w =? 0) = false.
Proof.
  rewrite ltb_spec, leb_zero_spec, eqb_zero_spec, Prim2SF_zero.
  destruct (Prim2SF w) as [s|s| |s m e]; try discriminate;
    destruct s; try discriminate; split; reflexivity.
Qed.

Lemma daily_energy_demand_nonneg (apps : list Appliance) :
  Forall (fun a => well_formed a = true) apps ->
  nonneg_result (calculate_daily_energy_demand apps).
Proof.
  intros Hwf. destruct apps as [|app apps].
  - exists (VInt 0). split; reflexivity.
  - rewrite daily_energy_demand_floats by discriminate.
    apply nonneg_result_float, fold_add_nonneg; [|reflexivity].
    apply Forall_map. revert Hwf. apply Forall_impl. exact well_formed_term.
Qed.

Lemma methanol_consumption_nonneg (x : float) :
  nonneg_real x = true -> nonneg_result (calculate_methanol_consumption x).
Proof.
  intros Hx. rewrite calculate_methanol_consumption_eq.
  apply nonneg_result_float, fl_mul_nonneg; [|reflexivity].
  apply fl_div_1000_real, Hx.
Qed.

Lemma tank_autonomy_nonneg (x y : float) :
  nonneg_real x = true -> nonneg_real y = true ->
  nonneg_result (calculate_tank_autonomy x y).
Proof.
  intros Hx Hy. rewrite calculate_tank_autonomy_eq. apply nonneg_result_float.
  destruct (y =? 0) eqn:Hz; [reflexivity|].
  apply fl_div_nonneg; auto using nonneg_real_nonneg.
Qed.

Lemma discharge_time_nonneg (x : float) :
  nonneg_real x = true -> nonneg_result (battery_discharge_time x).
Proof.
  intros Hx. rewrite battery_discharge_time_eq. apply nonneg_result_float.
  destruct (x =? 0) eqn:Hz; [reflexivity|].
  apply fl_mul_nonneg_const; try reflexivity.
  apply fl_div_nonneg; auto using nonneg_real_nonneg.
Qed.

Lemma charge_time_nonneg (x w : float) :
  nonneg_real x = true -> (0 <? w) = true ->
  nonneg_result (battery_charge_time_needed x w).
Proof.
  intros Hx Hw. apply positive_spec in Hw as [Hw Hz].
  rewrite battery_charge_time_needed_eq, Hz.
  apply nonneg_result_float, fl_div_nonneg; assumption.
Qed.

Lemma chemical_energy_nonneg (y : float) :
  nonneg_real y = true -> (0 <=? y * METHANOL_ENERGY_DENSITY) = true.
Proof. intros Hy. apply fl_mul_nonneg; [exact Hy|reflexivity]. Qed.

Lemma global_efficiency_nonneg (b x y : float) :
  nonneg_real x = true -> nonneg_real y = true ->
  nonneg_result (global_system_efficiency b x y).
Proof.
  intros Hx Hy. rewrite global_system_efficiency_eq. apply nonneg_result_float.
  destruct (y =? 0) eqn:Hz; [reflexivity|].
  apply fl_div_nonneg.
  - apply fl_mul_fraction_real; try reflexivity. apply fl_div_1000_real, Hx.
  - apply chemical_energy_nonneg, Hy.
  - apply mul_density_nonzero, Hz.
Qed.

Lemma fuel_cell_efficiency_nonneg (x y : float) :
  nonneg_real x = true -> nonneg_real y = true ->
  nonneg_result (fuel_cell_efficiency x y).
Proof.
  intros Hx Hy. rewrite fuel_cell_efficiency_eq.
  destruct (y =? 0) eqn:Hz; [exists (VInt 0); split; reflexivity|].
  apply nonneg_result_float, fl_div_nonneg;
    [exact Hx|apply chemical_energy_nonneg, Hy|apply mul_density_nonzero, Hz].
Qed.

Lemma system_efficiency_nonneg (x y : float) :
  nonneg_real x = true -> nonneg_real y = true ->
  nonneg_result (system_efficiency x y).
Proof.
  intros Hx Hy. rewrite system_efficiency_eq. apply nonneg_result_float.
  destruct (y =? 0) eqn:Hz; [reflexivity|].
  apply fl_div_nonneg;
    [exact Hx|apply chemical_energy_nonneg, Hy|apply mul_density_nonzero, Hz].
Qed.

Lemma peak_load_coverage_nonneg (x : float) :
  nonneg_real x = true -> nonneg_result (peak_load_coverage x).
Proof.
  intros Hx. rewrite peak_load_coverage_eq. apply nonneg_result_float.
  destruct (x / BATTERY_VOLTAGE <=? 200) eqn:Hc; [reflexivity|].
  assert (Hz : (x =? 0) = false).
  { destruct (x =? 0) eqn:Hz; [|reflexivity].
    rewrite (zero_power_within_limit _ Hz) in Hc. discriminate. }
  apply py_round1_nonneg, fl_mul_nonneg_const; try reflexivity.
  apply fl_div_nonneg; [reflexivity|apply nonneg_real_nonneg, Hx|exact Hz].
Qed.

(** C8.  Non-negativity: on non-negative real inputs (appliances with
    non-negative real power and hours; a positive [fuel_cell_output_w] for
    [battery_charge_time_needed]) every calculator function returns, and
    returns a value [>= 0], possibly positive infinity and never a NaN. *)
Theorem calculator_results_nonneg
    (appliances : list Appliance) (x y w : float) :
  Forall (fun a => well_formed a = true) appliances ->
  nonneg_real x = true -> nonneg_real y = true -> (0 <? w) = true ->
  nonneg_result (calculate_daily_energy_demand appliances)
  /\ nonneg_result (calculate_methanol_consumption x)
  /\ nonneg_result (calculate_tank_autonomy x y)
  /\ nonneg_result (battery_discharge_time x)
  /\ nonneg_result (battery_charge_time_needed x w)
  /\ nonneg_result (battery_charge_time_needed x FUEL_CELL_OUTPUT_W)
  /\ (forall battery, nonneg_result (global_system_efficiency battery x y))
  /\ nonneg_result (fuel_cell_efficiency x y)
  /\ nonneg_result (system_efficiency x y)
  /\ nonneg_result (peak_load_coverage x).
Proof.
  intros Hwf Hx Hy Hw.
  repeat match goal with |- _ /\ _ => split end.
  - apply daily_energy_demand_nonneg, Hwf.
  - apply methanol_consumption_nonneg, Hx.
  - apply tank_autonomy_nonneg; assumption.
  - apply discharge_time_nonneg, Hx.
  - apply charge_time_nonneg; assumption.
  - apply charge_time_nonneg; [assumption|reflexivity].
  - intros b. apply global_efficiency_nonneg; assumption.
  - apply fuel_cell_efficiency_nonneg; assumption.
  - apply system_efficiency_nonneg; assumption.
  - apply peak_load_coverage_nonneg, Hx.
Qed.

Lemma calculator_results_nonneg_witness :
  nonneg_result (calculate_daily_energy_demand [mkAppliance "laptop" 95 4])
  /\ nonneg_result (calculate_methanol_consumption 3000)
  /\ nonneg_result (calculate_tank_autonomy 3000 2)
  /\ nonneg_result (battery_discharge_time 3000)
  /\ nonneg_result (battery_charge_time_needed 3000 125)
  /\ nonneg_result (battery_charge_time_needed 3000 FUEL_CELL_OUTPUT_W)
  /\ (forall battery, nonneg_result (global_system_efficiency battery 3000 2))
  /\ nonneg_result (fuel_cell_efficiency 3000 2)
  /\ nonneg_result (system_efficiency 3000 2)
  /\ nonneg_result (peak_load_coverage 3000).
Proof.
  apply (calculator_results_nonneg [mkAppliance "laptop" 95 4] 3000 2 125).
  - repeat constructor.
  - reflexivity.
  - reflexivity.
  - reflexivity.
Defined.

(** * Order and rounding of quotients, differences and tenths *)

(** ** Division, in integers *)

Section Division.
Local Open Scope Z_scope.

Lemma nearest_even_mono_cross V1 V2 h1 h2 Q1 Q2 :
  0 < h1 -> 0 < h2 -> V1 * h2 <= V2 * h1 ->
  nearest_even V1 h1 Q1 -> nearest_even V2 h2 Q2 -> Q1 <= Q2.
Proof.
  intros Hh1 Hh2 HV [[L1 U1] T1] [[L2 U2] T2].
  destruct (Z_le_gt_dec Q1 Q2) as [|Hgt]; [assumption|exfalso].
  assert (A : (2 * Q1 - 1) * h1 * h2 <= 2 * V1 * h2)
    by (apply Z.mul_le_mono_nonneg_r; lia).
  assert (C : 2 * V2 * h1 <= (2 * Q2 + 1) * h2 * h1)
    by (apply Z.mul_le_mono_nonneg_r; lia).
  assert (K : 0 < h1 * h2) by (apply Z.mul_pos_pos; assumption).
  assert (HQ : Q1 = Q2 + 1) by nia.
  subst Q1.
  assert (E1 : 2 * V1 * h2 = (2 * (Q2 + 1) - 1) * h1 * h2) by nia.
  assert (E2 : 2 * V2 * h1 = (2 * Q2 + 1) * h2 * h1) by nia.
  assert (E1' : 2 * V1 = (2 * (Q2 + 1) - 1) * h1)
    by (apply Z.mul_cancel_r with (p := h2); lia).
  assert (E2' : 2 * V2 = (2 * Q2 + 1) * h2)
    by (apply Z.mul_cancel_r with (p := h1); lia).
  specialize (T1 (or_introl E1')). specialize (T2 (or_intror E2')).
  rewrite Z.even_add in T1. rewrite T2 in T1. discriminate.
Qed.

Lemma rnq_bounds B V D E Q :
  1074 <= B -> 0 < D -> -1074 <= E ->
  0 < V -> V < 2 ^ (E + 53 + B) * D ->
  (-1074 < E -> 2 ^ (E + 52 + B) * D <= V) ->
  nearest_even V (2 ^ (E + B) * D) Q ->
  0 <= Q <= 2 ^ 53 /\ (-1074 < E -> 2 ^ 52 <= Q).
Proof.
  intros HB HD HE HV Hup Hlo [[L U] _].
  assert (HP : 0 < 2 ^ (E + B)) by (apply pow2_pos; lia).
  replace (E + 53 + B) with (53 + (E + B)) in Hup by lia.
  replace (E + 52 + B) with (52 + (E + B)) in Hlo by lia.
  rewrite (pow2_split 53 (E + B)) in Hup by lia.
  rewrite (pow2_split 52 (E + B)) in Hlo by lia.
  set (h := 2 ^ (E + B) * D) in *.
  assert (Hh : 0 < h) by (apply Z.mul_pos_pos; assumption).
  pow_consts.
  assert (Hup' : V < 9007199254740992 * h) by (unfold h; lia).
  split; [split; nia|].
  intros HEm. specialize (Hlo HEm).
  assert (Hlo' : 4503599627370496 * h <= V) by (unfold h; lia).
  nia.
Qed.

Lemma rnq_nonneg B V D o : 1074 <= B -> 0 < D -> rnq B V D o -> 0 <= o.
Proof.
  intros HB HD [[_ ->]|(HV & E & Q & HE & Hup & Hlo & Hne & ->)]; [lia|].
  destruct (rnq_bounds B V D E Q HB HD HE HV Hup Hlo Hne) as [[HQ _] _].
  unfold ord_top. pow_consts. lia.
Qed.

Lemma rnq_mono B V1 D1 V2 D2 o1 o2 :
  1074 <= B -> 0 < D1 -> 0 < D2 -> V1 * D2 <= V2 * D1 ->
  rnq B V1 D1 o1 -> rnq B V2 D2 o2 -> o1 <= o2.
Proof.
  intros HB HD1 HD2 HV H1 H2.
  destruct H1 as [[-> ->]|(HV1 & E1 & Q1 & HE1 & Hup1 & Hlo1 & Hne1 & ->)].
  { eapply rnq_nonneg; [exact HB|exact HD2|exact H2]. }
  destruct H2 as [[-> ->]|(HV2 & E2 & Q2 & HE2 & Hup2 & Hlo2 & Hne2 & ->)]; [nia|].
  destruct (rnq_bounds B V1 D1 E1 Q1 HB HD1 HE1 HV1 Hup1 Hlo1 Hne1) as [[HQ1 HQ1'] _].
  destruct (rnq_bounds B V2 D2 E2 Q2 HB HD2 HE2 HV2 Hup2 Hlo2 Hne2) as [[HQ2 _] HQ2'].
  assert (HE : E1 <= E2).
  { destruct (Z_le_gt_dec E1 E2) as [|Hgt]; [assumption|exfalso].
    specialize (Hlo1 ltac:(lia)).
    assert (Hp : 2 ^ (E2 + 53 + B) <= 2 ^ (E1 + 52 + B))
      by (apply Z.pow_le_mono_r; lia).
    assert (0 < 2 ^ (E2 + 53 + B)) by (apply pow2_pos; lia).
    assert (A1 : 2 ^ (E1 + 52 + B) * D1 * D2 <= V1 * D2)
      by (apply Z.mul_le_mono_nonneg_r; lia).
    assert (A2 : V2 * D1 < 2 ^ (E2 + 53 + B) * D2 * D1)
      by (apply Z.mul_lt_mono_pos_r; lia).
    assert (A3 : 2 ^ (E2 + 53 + B) * (D2 * D1) <= 2 ^ (E1 + 52 + B) * (D2 * D1))
      by (apply Z.mul_le_mono_nonneg_r; nia).
    nia. }
  destruct (Z.eq_dec E1 E2) as [Heq|Hneq].
  - subst E2.
    assert (HP : 0 < 2 ^ (E1 + B)) by (apply pow2_pos; lia).
    assert (Q1 <= Q2).
    { eapply (nearest_even_mono_cross V1 V2); [| | |exact Hne1|exact Hne2].
      - apply Z.mul_pos_pos; assumption.
      - apply Z.mul_pos_pos; assumption.
      - set (P := 2 ^ (E1 + B)) in *.
        replace (V1 * (P * D2)) with (P * (V1 * D2)) by ring.
        replace (V2 * (P * D1)) with (P * (V2 * D1)) by ring.
        apply Z.mul_le_mono_nonneg_l; lia. }
    pow_consts. lia.
  - assert (HQ2'' : 2 ^ 52 <= Q2) by (apply HQ2'; lia).
    unfold ord_top. pow_consts. lia.
Qed.

Lemma rnq_fun B V D o1 o2 :
  1074 <= B -> 0 < D -> rnq B V D o1 -> rnq B V D o2 -> o1 = o2.
Proof.
  intros HB HD H1 H2.
  pose proof (rnq_mono B V D V D o1 o2 HB HD HD (Z.le_refl _) H1 H2).
  pose proof (rnq_mono B V D V D o2 o1 HB HD HD (Z.le_refl _) H2 H1).
  lia.
Qed.

(** The location computed by a division locates the dividend. *)
Lemma new_location_located N D :
  0 <= N -> 0 < D ->
  located N D (shr_record_of_loc (N / D) (new_location D (N mod D))).
Proof.
  intros HN HD.
  pose proof (Z.div_mod N D ltac:(lia)) as Hdm.
  pose proof (Z.mod_pos_bound N D HD) as Hr.
  set (q := N / D) in *. set (r := N mod D) in *.
  unfold new_location, new_location_even, new_location_odd.
  destruct (Z.even D) eqn:Hev.
  - destruct (Z.eqb_spec r 0) as [Hr0|Hr0].
    + unfold located; cbn [shr_record_of_loc shr_m shr_r shr_s]. lia.
    + destruct (Z.compare_spec (2 * r) D) as [E|E|E];
        unfold located; cbn [shr_record_of_loc shr_m shr_r shr_s]; lia.
  - assert (Hodd : exists k, D = 2 * k + 1).
    { destruct (Z.Even_or_Odd D) as [He|Ho].
      - apply Z.even_spec in He. congruence.
      - exact Ho. }
    destruct Hodd as [k Hk].
    destruct (Z.eqb_spec r 0) as [Hr0|Hr0].
    + unfold located; cbn [shr_record_of_loc shr_m shr_r shr_s]. lia.
    + destruct (Z.compare_spec (2 * r + 1) D) as [E|E|E];
        unfold located; cbn [shr_record_of_loc shr_m shr_r shr_s]; lia.
Qed.

(** After a shift by [n], a record that located [N] on the step [h] locates
    it on the step [h * 2^n]. *)
Lemma shr_located N h r e n :
  shr_inv N h r -> 0 <= n ->
  snd (shr r e n) = e + n /\ shr_inv N (h * 2 ^ n) (fst (shr r e n)).
Proof.
  intros H0 Hn.
  destruct n as [|p|p]; [| |lia]; cbn [shr fst snd].
  - split; [lia|]. change (2 ^ 0) with 1. rewrite Z.mul_1_r. exact H0.
  - split; [reflexivity|].
    exact (iter_pos_scaled (shr_inv N) shr_1 (shr_inv_step N) p h r H0).
Qed.

Lemma located_range N D r :
  0 < D -> 0 <= shr_m r -> located N D r ->
  shr_m r * D <= N < (shr_m r + 1) * D.
Proof.
  intros HD Hq. unfold located. destruct (shr_r r), (shr_s r); lia.
Qed.

(** The rounding function returns the double nearest to the located value
    [N / D * 2^e], whatever the location it starts from. *)
Lemma binary_round_aux_rnq B s q e l N D a b :
  1074 <= B -> 0 <= q -> 0 < D ->
  located N D (shr_record_of_loc q l) ->
  e <= fexp prec emax (Zdigits2 q + e) ->
  0 <= a -> 0 <= b -> a - b = e + B ->
  rnq B (N * 2 ^ a) (D * 2 ^ b) (ord (binary_round_aux prec emax s q e l)).
Proof.
  intros HB Hq HD Hloc Hn Ha Hb Hab.
  assert (Hq0 : shr_m (shr_record_of_loc q l) = q) by apply shr_record_of_loc_m.
  assert (Hq0' : 0 <= shr_m (shr_record_of_loc q l)) by (rewrite Hq0; exact Hq).
  pose proof (located_range N D _ HD Hq0' Hloc) as Hrange.
  rewrite Hq0 in Hrange.
  destruct (Zdigits2_bounds q Hq) as [Hd0 Hdq].
  set (d := Zdigits2 q) in *.
  set (E := fexp prec emax (d + e)) in *.
  assert (HE : E = Z.max (d + e - 53) (-1074)) by apply fexp_eq.
  assert (H2a : 0 < 2 ^ a) by (apply pow2_pos; lia).
  assert (H2b : 0 < 2 ^ b) by (apply pow2_pos; lia).
  unfold binary_round_aux, shr_fexp. fold d. fold E.
  destruct (shr_located N D (shr_record_of_loc q l) e (E - e)) as [Hsnd (Hh & Hq' & Hloc')].
  { split; [exact HD|]. split; [exact Hq0'|exact Hloc]. }
  { lia. }
  destruct (shr (shr_record_of_loc q l) e (E - e)) as [mrs' e'] eqn:Hshr.
  cbn [fst snd] in Hsnd, Hq', Hloc'. replace (e + (E - e)) with E in Hsnd by lia.
  subst e'.
  pose proof (located_nearest_even _ _ _ Hh Hloc') as Hne.
  set (Q := round_nearest_even (shr_m mrs') (loc_of_shr_record mrs')) in *.
  assert (Hpn : 0 < 2 ^ (E - e)) by (apply pow2_pos; lia).
  (* the grid step on the common scale *)
  assert (Hstep : 2 ^ (E + B) * (D * 2 ^ b) = D * 2 ^ (E - e) * 2 ^ a).
  { assert (Hp : 2 ^ (E + B) * 2 ^ b = 2 ^ (E - e) * 2 ^ a).
    { rewrite <- (pow2_split (E + B) b), <- (pow2_split (E - e) a) by lia.
      f_equal. lia. }
    replace (2 ^ (E + B) * (D * 2 ^ b)) with (D * (2 ^ (E + B) * 2 ^ b)) by ring.
    rewrite Hp. ring. }
  assert (Hne' : nearest_even (N * 2 ^ a) (2 ^ (E + B) * (D * 2 ^ b)) Q).
  { rewrite Hstep. apply nearest_even_scale; assumption. }
  destruct (Z.eq_dec N 0) as [HN0|HN0].
  { (* the value is zero *)
    left. split; [subst N; ring|].
    assert (q = 0) by nia. subst q.
    assert (HQ0 : Q = 0).
    { destruct Hne as [[L U] _]. subst N.
      assert (0 < D * 2 ^ (E - e)) by (apply Z.mul_pos_pos; lia). nia. }
    rewrite HQ0. cbn [Zdigits2].
    rewrite shr_nonpos by (rewrite fexp_eq; lia). reflexivity. }
  assert (HNpos : 0 < N) by nia.
  assert (Hup : N * 2 ^ a < 2 ^ (E + 53 + B) * (D * 2 ^ b)).
  { replace (E + 53 + B) with (53 + (E + B)) by lia.
    rewrite (pow2_split 53 (E + B)) by lia.
    rewrite <- Z.mul_assoc, Hstep.
    assert (N < 2 ^ 53 * (D * 2 ^ (E - e))).
    { assert (2 ^ d <= 2 ^ (53 + (E - e))) by (apply Z.pow_le_mono_r; lia).
      rewrite (pow2_split 53 (E - e)) in H by lia. nia. }
    replace (2 ^ 53 * (D * 2 ^ (E - e) * 2 ^ a))
      with (2 ^ 53 * (D * 2 ^ (E - e)) * 2 ^ a) by ring.
    apply Z.mul_lt_mono_pos_r; assumption. }
  assert (Hlo : -1074 < E -> 2 ^ (E + 52 + B) * (D * 2 ^ b) <= N * 2 ^ a).
  { intros HEm. assert (Hd53 : E - e = d - 53) by lia.
    replace (E + 52 + B) with (52 + (E + B)) by lia.
    rewrite (pow2_split 52 (E + B)) by lia.
    rewrite <- Z.mul_assoc, Hstep.
    assert (2 ^ 52 * (D * 2 ^ (E - e)) <= N).
    { assert (1 <= q) by (destruct (Z.eq_dec q 0); [subst q; cbn in d; lia|lia]).
      assert (Hdl : 2 ^ (d - 1) <= q).
      { unfold d. destruct q as [|p|p]; try lia. cbn [Zdigits2].
        apply digits2_bounds. }
      replace (d - 1) with (52 + (E - e)) in Hdl by lia.
      rewrite (pow2_split 52 (E - e)) in Hdl by lia. nia. }
    replace (2 ^ 52 * (D * 2 ^ (E - e) * 2 ^ a))
      with (2 ^ 52 * (D * 2 ^ (E - e)) * 2 ^ a) by ring.
    apply Z.mul_le_mono_nonneg_r; lia. }
  assert (HDb : 0 < D * 2 ^ b) by (apply Z.mul_pos_pos; lia).
  assert (HVpos : 0 < N * 2 ^ a) by (apply Z.mul_pos_pos; lia).
  destruct (rnq_bounds B _ _ E Q HB HDb ltac:(lia) HVpos Hup Hlo Hne')
    as [[HQ0 HQ1] HQ2].
  right. split; [exact HVpos|]. exists E, Q.
  split; [lia|]. split; [exact Hup|]. split; [exact Hlo|]. split; [exact Hne'|].
  (* the second shift *)
  destruct Q as [|p|p] eqn:HQ; [| |lia].
  - cbn [Zdigits2]. rewrite shr_nonpos by (rewrite fexp_eq; lia).
    cbn [shr_record_of_loc shr_m ord]. assert (E = -1074) by (pow_consts; lia).
    unfold ord_top. pow_consts. lia.
  - cbn [Zdigits2].
    destruct (Z.eq_dec (Zpos p) (2 ^ 53)) as [Htop|Hlt].
    + assert (Hp' : p = 9007199254740992%positive) by (pow_consts; lia).
      subst p. change (Zpos (digits2_pos 9007199254740992)) with 54.
      replace (fexp prec emax (54 + E) - E) with 1 by (rewrite fexp_eq; lia).
      cbn [shr_record_of_loc shr iter_pos shr_1 shr_m].
      destruct (E + 1 <=? emax - prec) eqn:Hov; cbn [ord];
        [apply Z.leb_le in Hov|apply Z.leb_gt in Hov];
        unfold emax, prec in Hov; unfold ord_top; pow_consts; lia.
    + assert (Hdp : Zpos (digits2_pos p) <= 53).
      { apply digits2_le; [lia|]. lia. }
      rewrite shr_nonpos by (rewrite fexp_eq; lia).
      cbn [shr_record_of_loc shr_m].
      destruct (E <=? emax - prec) eqn:Hov; cbn [ord];
        [apply Z.leb_le in Hov|apply Z.leb_gt in Hov];
        unfold emax, prec in Hov; unfold ord_top; pow_consts; lia.
Qed.

(** The quotient of two reals is the rounding of the exact quotient. *)
Lemma SFdiv_finite_rnq B B2 sx mx ex sy my ey :
  1074 <= B -> 1074 <= B2 ->
  valid_binary (S754_finite sx mx ex) = true ->
  valid_binary (S754_finite sy my ey) = true ->
  rnq B (Zpos mx * 2 ^ (ex + (B + B2))) (Zpos my * 2 ^ (ey + B2))
      (ord (SFdiv prec emax (S754_finite sx mx ex) (S754_finite sy my ey))).
Proof.
  intros HB HB2 Vx Vy.
  destruct (valid_finite_bounds _ _ _ Vx) as (Hcx & Hex & Hmx & _).
  destruct (valid_finite_bounds _ _ _ Vy) as (Hcy & Hey & Hmy & _).
  pose proof (digits2_bounds mx) as [Lx Ux].
  pose proof (digits2_bounds my) as [Ly Uy].
  cbn [SFdiv]. unfold SFdiv_core_binary. cbn [Zdigits2].
  set (dx := Zpos (digits2_pos mx)) in *. set (dy := Zpos (digits2_pos my)) in *.
  assert (Hdx : 1 <= dx) by (unfold dx; lia).
  assert (Hdy : 1 <= dy) by (unfold dy; lia).
  set (F := fexp prec emax (dx + ex - (dy + ey))).
  assert (HF : F = Z.max (dx + ex - (dy + ey) - 53) (-1074)) by apply fexp_eq.
  set (e' := Z.min F (ex - ey)).
  set (sh := ex - ey - e').
  assert (Hsh : 0 <= sh) by (unfold sh, e'; lia).
  set (m' := match sh with Zpos _ => Z.shiftl (Zpos mx) sh | 0 => Zpos mx | Zneg _ => 0 end).
  assert (Hm' : m' = Zpos mx * 2 ^ sh).
  { unfold m'. destruct sh as [|p|p] eqn:Es; [| |lia].
    - change (2 ^ 0) with 1. lia.
    - rewrite Z.shiftl_mul_pow2 by lia. reflexivity. }
  assert (H2s : 0 < 2 ^ sh) by (apply pow2_pos; lia).
  assert (Hm0 : 0 < m') by (rewrite Hm'; apply Z.mul_pos_pos; lia).
  pose proof (new_location_located m' (Zpos my) ltac:(lia) ltac:(lia)) as Hloc.
  unfold Z.div, Z.modulo in Hloc.
  pose proof (Z.div_pos m' (Zpos my) ltac:(lia) ltac:(lia)) as Hq.
  pose proof (Z.div_le_lower_bound m' (Zpos my)) as Hlow.
  unfold Z.div in Hq, Hlow.
  destruct (Z.div_eucl m' (Zpos my)) as [q r].
  replace (Zpos mx * 2 ^ (ex + (B + B2)))
    with (m' * 2 ^ (ex + (B + B2) - sh)).
  - apply binary_round_aux_rnq; try assumption; try lia;
      try (unfold sh, e'; lia).
    (* the quotient has enough digits *)
    + destruct (Z_le_gt_dec e' (-1074)) as [Hsmall|Hbig]; [rewrite fexp_eq; lia|].
      assert (He'F : e' <= dx + ex - (dy + ey) - 53) by (unfold e' in *; lia).
      assert (Hs53 : 53 - dx + dy <= sh) by (unfold sh; lia).
      assert (H52 : 2 ^ 52 <= q).
      { apply Hlow; [lia|].
        assert (A : 2 ^ (52 + dy) <= 2 ^ ((dx - 1) + sh))
          by (apply Z.pow_le_mono_r; lia).
        rewrite (pow2_split 52 dy), (pow2_split (dx - 1) sh) in A by lia.
        rewrite Hm'.
        assert (2 ^ (dx - 1) * 2 ^ sh <= Zpos mx * 2 ^ sh)
          by (apply Z.mul_le_mono_nonneg_r; lia).
        assert (0 < 2 ^ 52) by (apply pow2_pos; lia).
        nia. }
      destruct (Zdigits2_bounds q Hq) as [Hd0 Hdq].
      assert (52 < Zdigits2 q).
      { assert (H : 2 ^ 52 < 2 ^ Zdigits2 q) by lia.
        apply Z.pow_lt_mono_r_iff in H; lia. }
      rewrite fexp_eq. lia.
  - rewrite Hm'.
    replace (ex + (B + B2)) with (sh + (ex + (B + B2) - sh)) at 2 by lia.
    rewrite (pow2_split sh (ex + (B + B2) - sh)) by (unfold sh, e'; lia). ring.
Qed.

Lemma SFdiv_rnq B B2 x sy my ey :
  1074 <= B -> 1074 <= B2 ->
  valid_binary x = true -> SFfinite x = true ->
  valid_binary (S754_finite sy my ey) = true ->
  rnq B (ev (B + B2) x) (ev B2 (S754_finite sy my ey))
      (ord (SFdiv prec emax x (S754_finite sy my ey))).
Proof.
  intros HB HB2 Vx Fx Vy.
  destruct x as [sx|sx| |sx mx ex]; try discriminate.
  - left. split; reflexivity.
  - cbn [ev]. apply SFdiv_finite_rnq; assumption.
Qed.

(** Division of non-negative reals is monotone in the dividend and
    antitone in the divisor. *)
Lemma SFdiv_ord_mono x x' sy my ey sy' my' ey' :
  valid_binary x = true -> valid_binary x' = true ->
  SFfinite x = true -> SFfinite x' = true ->
  valid_binary (S754_finite sy my ey) = true ->
  valid_binary (S754_finite sy' my' ey') = true ->
  ord x <= ord x' ->
  ord (S754_finite sy' my' ey') <= ord (S754_finite sy my ey) ->
  ord (SFdiv prec emax x (S754_finite sy my ey))
  <= ord (SFdiv prec emax x' (S754_finite sy' my' ey')).
Proof.
  intros Vx Vx' Fx Fx' Vy Vy' Hx Hy.
  pose proof (ord_le_ev_le (1074 + 1074) x x' ltac:(lia) Vx Vx' Fx Fx' Hx) as Hev.
  pose proof (ord_le_ev_le 1074 _ _ ltac:(lia) Vy' Vy eq_refl eq_refl Hy) as Hevy.
  pose proof (ev_nonneg (1074 + 1074) x) as Hx0.
  assert (Hy0 : 0 < ev 1074 (S754_finite sy my ey)).
  { cbn [ev]. destruct (valid_finite_bounds _ _ _ Vy) as (_ & He & _ & _).
    apply Z.mul_pos_pos; [lia|apply pow2_pos; lia]. }
  assert (Hy0' : 0 < ev 1074 (S754_finite sy' my' ey')).
  { cbn [ev]. destruct (valid_finite_bounds _ _ _ Vy') as (_ & He & _ & _).
    apply Z.mul_pos_pos; [lia|apply pow2_pos; lia]. }
  apply (rnq_mono 1074 (ev (1074 + 1074) x) (ev 1074 (S754_finite sy my ey))
                       (ev (1074 + 1074) x') (ev 1074 (S754_finite sy' my' ey')));
    try assumption; try lia.
  - apply Z.mul_le_mono_nonneg; lia.
  - apply SFdiv_rnq; try assumption; lia.
  - apply SFdiv_rnq; try assumption; lia.
Qed.

Lemma has_sign_neg_not_pos x :
  has_sign true x -> SFltb (S754_zero false) x = false.
Proof.
  destruct x as [s|s| |s m e]; cbn [has_sign]; intros H; try contradiction;
    subst; reflexivity.
Qed.

(** The difference of two non-negative reals: not positive when the first
    is at most the second, and otherwise the rounding of the exact
    difference. *)
Lemma SFsub_cases B x y :
  1074 <= B ->
  valid_binary x = true -> valid_binary y = true ->
  SFfinite x = true -> SFfinite y = true ->
  SFnonneg x = true -> SFnonneg y = true ->
  (ord x <= ord y -> SFltb (S754_zero false) (SFsub prec emax x y) = false)
  /\ (ord y < ord x ->
      SFnonneg (SFsub prec emax x y) = true
      /\ rnd B (ev B x - ev B y) (ord (SFsub prec emax x y))).
Proof.
  intros HB Vx Vy Fx Fy Sx Sy.
  destruct x as [sx|sx| |sx mx ex]; try discriminate;
  destruct y as [sy|sy| |sy my ey]; try discriminate;
  cbn [SFnonneg] in Sx, Sy;
  try (apply negb_true_iff in Sx; subst sx);
  try (apply negb_true_iff in Sy; subst sy).
  - split; [intros _; destruct sx, sy; reflexivity|cbn [ord]; lia].
  - split; [intros _; reflexivity|].
    destruct (valid_finite_bounds _ _ _ Vy) as (_ & He & _ & _).
    cbn [ord]. pow_consts. lia.
  - split.
    + destruct (valid_finite_bounds _ _ _ Vx) as (_ & He & _ & _).
      cbn [ord]. pow_consts. lia.
    + intros _. cbn [SFsub ev]. split; [reflexivity|].
      rewrite Z.sub_0_r. apply rnd_representable; assumption.
  - destruct (valid_finite_bounds _ _ _ Vx) as (_ & Hex & _ & _).
    destruct (valid_finite_bounds _ _ _ Vy) as (_ & Hey & _ & _).
    cbn [SFsub cond_Zopp].
    pose proof (shl_align_spec mx ex (Z.min ex ey)) as Hax.
    pose proof (shl_align_spec my ey (Z.min ex ey)) as Hay.
    destruct (shl_align mx ex (Z.min ex ey)) as [ax ez1].
    destruct (shl_align my ey (Z.min ex ey)) as [ay ez2].
    destruct Hax as (E1 & V1 & _). destruct Hay as (E2 & V2 & _).
    cbn [fst].
    set (ez := Z.min ex ey) in *.
    assert (Hk : 0 < 2 ^ (ez + B)) by (apply pow2_pos; lia).
    assert (Hevx : ev B (S754_finite false mx ex) = Zpos ax * 2 ^ (ez + B)).
    { cbn [ev]. rewrite V1.
      replace (ex + B) with ((ex - ez1) + (ez + B)) by lia.
      rewrite (pow2_split (ex - ez1)) by lia. ring. }
    assert (Hevy : ev B (S754_finite false my ey) = Zpos ay * 2 ^ (ez + B)).
    { cbn [ev]. rewrite V2.
      replace (ey + B) with ((ey - ez2) + (ez + B)) by lia.
      rewrite (pow2_split (ey - ez2)) by lia. ring. }
    split.
    + intros Hle.
      pose proof (ord_le_ev_le B _ _ HB Vx Vy eq_refl eq_refl Hle) as Hev.
      rewrite Hevx, Hevy in Hev.
      assert (Hd : Zpos ax - Zpos ay <= 0) by nia.
      destruct (Zpos ax - Zpos ay) as [|p|p] eqn:Ed; [reflexivity|lia|].
      cbn [binary_normalize]. apply has_sign_neg_not_pos, binary_round_sign.
    + intros Hlt.
      assert (Hev : ev B (S754_finite false my ey) < ev B (S754_finite false mx ex)).
      { destruct (Z_lt_ge_dec (ev B (S754_finite false my ey))
                              (ev B (S754_finite false mx ex))) as [|Hge];
          [assumption|exfalso].
        pose proof (rnd_mono B _ _ _ _ HB ltac:(apply Z.ge_le; exact Hge)
                      (rnd_ev B _ HB Vx eq_refl) (rnd_ev B _ HB Vy eq_refl)).
        lia. }
      rewrite Hevx, Hevy in Hev.
      assert (Hd : 0 < Zpos ax - Zpos ay) by nia.
      rewrite Hevx, Hevy.
      destruct (Zpos ax - Zpos ay) as [|p|p] eqn:Ed; [lia| |lia].
      cbn [binary_normalize]. split.
      * apply has_sign_nonneg, binary_round_sign.
      * replace (Zpos ax * 2 ^ (ez + B) - Zpos ay * 2 ^ (ez + B))
          with (Zpos p * 2 ^ (ez + B)) by (rewrite <- Ed; ring).
        apply binary_round_rnd; lia.
Qed.

End Division.

(** ** Quotients and differences of floats *)

Lemma positive_finite_spec (y : float) :
  (0 <? y) = true -> nonneg_real y = true ->
  exists m e, Prim2SF y = S754_finite false m e.
Proof.
  rewrite ltb_spec, nonneg_real_spec, Prim2SF_zero.
  destruct (Prim2SF y) as [s|s| |s m e]; try discriminate;
    destruct s; try discriminate. intros _ _. exists m, e. reflexivity.
Qed.

(** Float division of non-negative reals is monotone in the dividend and
    antitone in the divisor. *)
Lemma fl_div_mono (x x' y y' : float) :
  nonneg_real x = true -> nonneg_real x' = true ->
  nonneg_real y = true -> (0 <? y') = true ->
  (x <=? x') = true -> (y' <=? y) = true ->
  (x / y <=? x' / y') = true.
Proof.
  intros Hx Hx' Hy Hy'pos Hxx Hyy.
  pose proof (positive_spec y' Hy'pos) as [Hy'n Hy'z].
  pose proof (nonneg_real_nonneg y Hy) as Hyn.
  rewrite fl_leb_ord in Hxx by auto using nonneg_real_nonneg.
  rewrite fl_leb_ord in Hyy by assumption.
  apply Z.leb_le in Hxx, Hyy.
  assert (Hy'r : nonneg_real y' = true).
  { rewrite nonneg_real_spec. rewrite leb_zero_spec in Hy'n. rewrite Hy'n.
    apply ord_below_top_finite; [exact Hy'n|].
    apply nonneg_real_elim in Hy as [Sy Fy].
    pose proof (ord_valid_range _ (Prim2SF_valid y) Sy) as [_ Ht].
    specialize (Ht Fy). lia. }
  destruct (positive_finite_spec y' Hy'pos Hy'r) as (my' & ey' & Ey').
  assert (Hypos : (0 <? y) = true).
  { rewrite ltb_spec, Prim2SF_zero. rewrite leb_zero_spec in Hyn.
    pose proof (Prim2SF_valid y') as Vy'. rewrite Ey' in Hyy, Vy'.
    destruct (valid_finite_bounds _ _ _ Vy') as (_ & He & _ & _).
    cbn [ord] in Hyy.
    destruct (Prim2SF y) as [s|s| |s m e]; try discriminate;
      cbn [SFnonneg] in Hyn; try (apply negb_true_iff in Hyn; subst s);
      try reflexivity.
    cbn [ord] in Hyy. pow_consts. lia. }
  destruct (positive_finite_spec y Hypos Hy) as (my & ey & Ey).
  pose proof (positive_spec y Hypos) as [_ Hyz].
  rewrite fl_leb_ord by (apply fl_div_nonneg; assumption).
  apply Z.leb_le. rewrite !div_spec.
  pose proof (Prim2SF_valid y) as Vy. pose proof (Prim2SF_valid y') as Vy'.
  rewrite Ey in *. rewrite Ey' in *.
  apply nonneg_real_elim in Hx as [Sx Fx], Hx' as [Sx' Fx'].
  apply SFdiv_ord_mono; auto using Prim2SF_valid.
Qed.

Lemma fl_sub_not_pos (d c : float) :
  nonneg_real d = true -> nonneg_real c = true -> (d <=? c) = true ->
  (0 <? d - c) = false.
Proof.
  intros Hd Hc Hle.
  rewrite fl_leb_ord in Hle by auto using nonneg_real_nonneg.
  apply Z.leb_le in Hle.
  apply nonneg_real_elim in Hd as [Sd Fd], Hc as [Sc Fc].
  rewrite ltb_spec, Prim2SF_zero, sub_spec.
  apply (SFsub_cases 1074 _ _ ltac:(lia) (Prim2SF_valid d) (Prim2SF_valid c)
           Fd Fc Sd Sc). exact Hle.
Qed.

Lemma fl_sub_pos_real (d c : float) :
  nonneg_real d = true -> nonneg_real c = true -> (0 <? d - c) = true ->
  nonneg_real (d - c) = true.
Proof.
  intros Hd Hc Hpos.
  apply nonneg_real_elim in Hd as [Sd Fd], Hc as [Sc Fc].
  destruct (SFsub_cases 1074 _ _ ltac:(lia) (Prim2SF_valid d) (Prim2SF_valid c)
              Fd Fc Sd Sc) as [Hnp Hp].
  destruct (Z_le_gt_dec (ord (Prim2SF d)) (ord (Prim2SF c))) as [Hle|Hgt].
  - specialize (Hnp Hle). rewrite ltb_spec, Prim2SF_zero, sub_spec in Hpos.
    unfold SF64sub in Hpos. congruence.
  - destruct (Hp ltac:(lia)) as [Hn Hr].
    rewrite nonneg_real_spec, sub_spec. unfold SF64sub. rewrite Hn.
    apply ord_below_top_finite; [exact Hn|].
    pose proof (rnd_ev 1074 _ ltac:(lia) (Prim2SF_valid d) Fd) as Hrd.
    assert (Hle : (ev 1074 (Prim2SF d) - ev 1074 (Prim2SF c) <= ev 1074 (Prim2SF d))%Z)
      by (pose proof (ev_nonneg 1074 (Prim2SF c)); lia).
    pose proof (rnd_mono 1074 _ _ _ _ ltac:(lia) Hle Hr Hrd) as Hm.
    pose proof (ord_valid_range _ (Prim2SF_valid d) Sd) as [_ Ht].
    specialize (Ht Fd). lia.
Qed.

(** ** [round(x, 1)] between 0 and 100 *)

Section Tenths.
Local Open Scope Z_scope.

Lemma nearest_even_exact n h : 0 < h -> nearest_even (n * h) h n.
Proof.
  intros Hh. split; [lia|]. intros [E|E]; exfalso; lia.
Qed.

(** [tenths_half_even m e] is [10 * m * 2^e] rounded to the nearest integer,
    ties to even. *)
Lemma tenths_nearest B m e :
  0 <= B -> 0 <= e + B ->
  nearest_even (10 * (Zpos m * 2 ^ (e + B))) (2 ^ B) (tenths_half_even m e).
Proof.
  intros HB HeB. assert (Hh : 0 < 2 ^ B) by (apply pow2_pos; lia).
  destruct e as [|p|p]; cbn [tenths_half_even].
  - rewrite Z.add_0_l. change (2 ^ 0) with 1.
    replace (10 * (Zpos m * 2 ^ B)) with (10 * Zpos m * 1 * 2 ^ B) by ring.
    apply nearest_even_exact, Hh.
  - rewrite (pow2_split (Zpos p) B) by lia.
    replace (10 * (Zpos m * (2 ^ Zpos p * 2 ^ B)))
      with (10 * Zpos m * 2 ^ Zpos p * 2 ^ B) by ring.
    apply nearest_even_exact, Hh.
  - change (Z.pow_pos 2 p) with (2 ^ Zpos p).
    assert (Hd : 0 < 2 ^ Zpos p) by (apply pow2_pos; lia).
    set (d := 2 ^ Zpos p) in *.
    set (c := Zneg p + B) in *.
    assert (Hc : 0 < 2 ^ c) by (apply pow2_pos; lia).
    replace (2 ^ B) with (d * 2 ^ c).
    2:{ unfold d, c. rewrite <- pow2_split by lia. f_equal. lia. }
    replace (10 * (Zpos m * 2 ^ c)) with (10 * Zpos m * 2 ^ c) by ring.
    apply nearest_even_scale; [exact Hc|].
    pose proof (Z.div_mod (10 * Zpos m) d ltac:(lia)) as Hdm.
    pose proof (Z.mod_pos_bound (10 * Zpos m) d Hd) as Hr.
    unfold Z.div, Z.modulo in Hdm, Hr.
    destruct (Z.div_eucl (10 * Zpos m) d) as [q r].
    destruct (Z.compare_spec (2 * r) d) as [E|E|E].
    + destruct (Z.even q) eqn:Hev; (split; [lia|]); intros _;
        [exact Hev|rewrite Z.even_add, Hev; reflexivity].
    + split; [lia|]. intros [E'|E']; exfalso; lia.
    + split; [lia|]. intros [E'|E']; exfalso; lia.
Qed.

(** An int below [2^63], converted to a double, is the rounding of itself. *)
Lemma normalize_rnd B n :
  1074 <= B -> 0 <= n ->
  rnd B (n * 2 ^ B) (ord (binary_normalize prec emax n 0 false)).
Proof.
  intros HB Hn. destruct n as [|p|p]; [| |lia].
  - left. split; reflexivity.
  - cbn [binary_normalize].
    replace (Zpos p * 2 ^ B) with (Zpos p * 2 ^ (0 + B)) by (f_equal; f_equal; lia).
    apply binary_round_rnd; lia.
Qed.

Lemma normalize_nonneg n :
  0 <= n -> SFnonneg (binary_normalize prec emax n 0 false) = true.
Proof.
  intros Hn. destruct n as [|p|p]; [reflexivity| |lia].
  cbn [binary_normalize]. apply has_sign_nonneg, binary_round_sign.
Qed.

End Tenths.

Lemma Prim2SF_100 : Prim2SF 100 = S754_finite false 7036874417766400 (-46).
Proof. reflexivity. Qed.

Lemma tenths_of_nearest x :
  valid_binary x = true -> SFfinite x = true ->
  nearest_even (10 * ev 1074 x) (2 ^ 1074) (tenths_of x).
Proof.
  intros Vx Fx. destruct x as [s|s| |s m e]; try discriminate.
  - cbn [ev tenths_of]. apply (nearest_even_exact 0). apply pow2_pos. lia.
  - cbn [ev tenths_of].
    destruct (valid_finite_bounds _ _ _ Vx) as (_ & He & _ & _).
    apply tenths_nearest; lia.
Qed.

(** On [0, 100], [round(x, 1)] is the float quotient by ten of the nearest
    number of tenths. *)
Lemma py_round1_percent_spec (x : float) :
  (0 <=? x) = true -> (x <=? 100) = true ->
  (0 <= tenths_of (Prim2SF x) <= 1000)%Z /\
  ord (Prim2SF (py_round1 x))
  = ord (SFdiv prec emax
           (binary_normalize prec emax (tenths_of (Prim2SF x)) 0 false)
           (Prim2SF 10)).
Proof.
  intros H0 H100.
  assert (Hn100 : (0 <=? 100) = true) by reflexivity.
  pose proof H100 as Ho. rewrite fl_leb_ord in Ho by assumption.
  apply Z.leb_le in Ho.
  pose proof H0 as Sx. rewrite leb_zero_spec in Sx.
  pose proof (Prim2SF_valid x) as Vx.
  assert (Fx : SFfinite (Prim2SF x) = true).
  { apply ord_below_top_finite; [exact Sx|].
    rewrite Prim2SF_100 in Ho. cbn [ord] in Ho. unfold ord_top. pow_consts. lia. }
  pose proof (tenths_of_nearest _ Vx Fx) as Hne.
  assert (Hev : (ev 1074 (Prim2SF x) <= ev 1074 (Prim2SF 100))%Z).
  { apply ord_le_ev_le; auto using Prim2SF_valid. lia. }
  assert (H2 : (0 < 2 ^ 1074)%Z) by (apply pow2_pos; lia).
  assert (Hrange : (0 <= tenths_of (Prim2SF x) <= 1000)%Z).
  { split.
    - pose proof (ev_nonneg 1074 (Prim2SF x)).
      apply (nearest_even_mono (0 * 2 ^ 1074) (10 * ev 1074 (Prim2SF x)) (2 ^ 1074));
        [exact H2|lia|apply nearest_even_exact, H2|exact Hne].
    - apply (nearest_even_mono (10 * ev 1074 (Prim2SF x)) (1000 * 2 ^ 1074) (2 ^ 1074));
        [exact H2| |exact Hne|apply nearest_even_exact, H2].
      rewrite Prim2SF_100 in Hev. cbn [ev] in Hev.
      change (-46 + 1074)%Z with 1028%Z in Hev.
      replace (2 ^ 1074)%Z with (2 ^ 46 * 2 ^ 1028)%Z
        by (rewrite <- pow2_split by lia; reflexivity).
      change (2 ^ 46)%Z with 70368744177664%Z.
      assert (0 < 2 ^ 1028)%Z by (apply pow2_pos; lia). nia. }
  split; [exact Hrange|].
  unfold py_round1.
  destruct (Prim2SF x) as [s|s| |s m e] eqn:Ex; try discriminate.
  - cbn [tenths_of]. rewrite Ex. destruct s; reflexivity.
  - cbn [SFnonneg] in Sx. apply negb_true_iff in Sx. subst s.
    assert (Habs : abs x = x).
    { apply Prim2SF_inj. rewrite abs_spec, Ex. reflexivity. }
    rewrite Habs.
    assert (Hsmall : (0x1p49 <=? x) = false).
    { rewrite fl_leb_ord by (try reflexivity; exact H0).
      apply Z.leb_gt. rewrite Ex. rewrite Prim2SF_100 in Ho.
      change (Prim2SF 0x1p49) with (S754_finite false 4503599627370496 (-3)).
      cbn [ord] in *. pow_consts. lia. }
    rewrite Hsmall. cbn [tenths_of] in *.
    rewrite div_spec, of_uint63_spec, Uint63.of_Z_spec.
    rewrite Z.mod_small; [reflexivity|].
    unfold Uint63.wB. cbn. lia.
Qed.

Lemma normalize_1000 :
  binary_normalize prec emax 1000 0 false = Prim2SF 1000.
Proof. reflexivity. Qed.

(** The double made from a number of tenths of at most 1000. *)
Lemma normalize_tenths_facts n :
  (0 <= n <= 1000)%Z ->
  valid_binary (binary_normalize prec emax n 0 false) = true
  /\ SFfinite (binary_normalize prec emax n 0 false) = true
  /\ (ord (binary_normalize prec emax n 0 false) <= ord (Prim2SF 1000))%Z.
Proof.
  intros Hn.
  assert (Hle : (ord (binary_normalize prec emax n 0 false) <= ord (Prim2SF 1000))%Z).
  { rewrite <- normalize_1000.
    apply (rnd_mono 1074 (n * 2 ^ 1074) (1000 * 2 ^ 1074));
      try (apply normalize_rnd; lia); try lia;
      try (apply Z.mul_le_mono_nonneg_r; [apply Z.pow_nonneg|]; lia). }
  split; [|split; [|exact Hle]].
  - assert (E : binary_normalize prec emax n 0 false
                = Prim2SF (of_uint63 (Uint63.of_Z n))).
    { rewrite of_uint63_spec, Uint63.of_Z_spec, Z.mod_small; [reflexivity|].
      unfold Uint63.wB. cbn. lia. }
    rewrite E. apply Prim2SF_valid.
  - apply ord_below_top_finite; [apply normalize_nonneg; lia|].
    rewrite Prim2SF_1000 in Hle. cbn [ord] in Hle. unfold ord_top. pow_consts. lia.
Qed.

(** On [0, 100], [round(x, 1)] is monotone and stays in [0, 100]. *)
Lemma py_round1_percent (x x' : float) :
  (0 <=? x) = true -> (x <=? x') = true -> (x' <=? 100) = true ->
  (py_round1 x <=? py_round1 x') = true /\ (py_round1 x' <=? 100) = true.
Proof.
  intros H0 Hxx H100.
  assert (H0' : (0 <=? x') = true).
  { rewrite leb_zero_spec. rewrite leb_spec in H100.
    destruct (Prim2SF x') as [s|s| |s m e] eqn:E; try reflexivity;
      try discriminate.
    - rewrite leb_spec, E in Hxx. rewrite leb_zero_spec in H0.
      destruct (Prim2SF x) as [s'|s'| |s' m' e']; try discriminate;
        destruct s; try reflexivity; cbn in H0;
        try (apply negb_true_iff in H0; subst s'); discriminate.
    - rewrite leb_spec, E in Hxx. rewrite leb_zero_spec in H0.
      destruct (Prim2SF x) as [s'|s'| |s' m' e']; try discriminate;
        destruct s; try reflexivity; cbn in H0;
        try (apply negb_true_iff in H0; subst s'); discriminate. }
  assert (Hx100 : (x <=? 100) = true).
  { pose proof Hxx as A. pose proof H100 as C.
    rewrite fl_leb_ord in A by assumption.
    rewrite fl_leb_ord in C by (try assumption; reflexivity).
    rewrite fl_leb_ord by (try assumption; reflexivity).
    apply Z.leb_le in A, C. apply Z.leb_le. lia. }
  destruct (py_round1_percent_spec x H0 Hx100) as [Hn Hr].
  destruct (py_round1_percent_spec x' H0' H100) as [Hn' Hr'].
  destruct (normalize_tenths_facts _ Hn) as (V & F & L).
  destruct (normalize_tenths_facts _ Hn') as (V' & F' & L').
  assert (Hnn : (tenths_of (Prim2SF x) <= tenths_of (Prim2SF x'))%Z).
  { pose proof H0 as Sx. rewrite leb_zero_spec in Sx.
    pose proof H0' as Sx'. rewrite leb_zero_spec in Sx'.
    assert (Fx' : SFfinite (Prim2SF x') = true).
    { apply ord_below_top_finite; [exact Sx'|].
      rewrite fl_leb_ord in H100 by (try assumption; reflexivity).
      apply Z.leb_le in H100. rewrite Prim2SF_100 in H100. cbn [ord] in H100.
      unfold ord_top. pow_consts. lia. }
    assert (Fx : SFfinite (Prim2SF x) = true).
    { apply ord_below_top_finite; [exact Sx|].
      rewrite fl_leb_ord in Hx100 by (try assumption; reflexivity).
      apply Z.leb_le in Hx100. rewrite Prim2SF_100 in Hx100. cbn [ord] in Hx100.
      unfold ord_top. pow_consts. lia. }
    rewrite fl_leb_ord in Hxx by assumption. apply Z.leb_le in Hxx.
    apply (nearest_even_mono (10 * ev 1074 (Prim2SF x)) (10 * ev 1074 (Prim2SF x'))
             (2 ^ 1074)).
    - apply pow2_pos. lia.
    - pose proof (ord_le_ev_le 1074 _ _ ltac:(lia) (Prim2SF_valid x)
                    (Prim2SF_valid x') Fx Fx' Hxx). lia.
    - apply tenths_of_nearest; auto using Prim2SF_valid.
    - apply tenths_of_nearest; auto using Prim2SF_valid. }
  pose proof (py_round1_nonneg x H0) as N. pose proof (py_round1_nonneg x' H0') as N'.
  rewrite !fl_leb_ord by (try assumption; reflexivity).
  rewrite Hr, Hr', Prim2SF_10. split; apply Z.leb_le.
  - apply SFdiv_ord_mono; try assumption; try reflexivity; try lia.
    apply (rnd_mono 1074 (tenths_of (Prim2SF x) * 2 ^ 1074)
                         (tenths_of (Prim2SF x') * 2 ^ 1074));
      try (apply normalize_rnd; lia); try lia;
      try (apply Z.mul_le_mono_nonneg_r; [apply Z.pow_nonneg|]; lia).
  - change (ord (Prim2SF 100))
      with (ord (SFdiv prec emax (Prim2SF 1000) (S754_finite false 5629499534213120 (-49)))).
    apply SFdiv_ord_mono; try assumption; try reflexivity; try lia.
Qed.

(** ** The order of non-negative floats *)

(** ** The order of non-negative floats *)
Lemma fl_leb_trans (x y z : float) :
  (0 <=? x) = true -> (x <=? y) = true -> (y <=? z) = true -> (x <=? z) = true.
Proof.
  intros H0 Hxy Hyz.
  assert (Hy : (0 <=? y) = true).
  { rewrite leb_zero_spec in *. rewrite leb_spec in Hxy.
    destruct (Prim2SF x) as [s|s| |s m e]; try discriminate;
      destruct (Prim2SF y) as [s'|s'| |s' m' e']; try discriminate;
      try reflexivity; cbn in H0; try (apply negb_true_iff in H0; subst s);
      destruct s'; try reflexivity; discriminate. }
  assert (Hz : (0 <=? z) = true).
  { rewrite leb_zero_spec in *. rewrite leb_spec in Hyz.
    destruct (Prim2SF y) as [s|s| |s m e]; try discriminate;
      destruct (Prim2SF z) as [s'|s'| |s' m' e']; try discriminate;
      try reflexivity; cbn in Hy; try (apply negb_true_iff in Hy; subst s);
      destruct s'; try reflexivity; discriminate. }
  rewrite fl_leb_ord in Hxy, Hyz by assumption.
  rewrite fl_leb_ord by assumption.
  apply Z.leb_le in Hxy, Hyz. apply Z.leb_le. lia.
Qed.

Lemma fl_leb_nonneg_r (x y : float) :
  (0 <=? x) = true -> (x <=? y) = true -> (0 <=? y) = true.
Proof.
  intros H0 Hxy. rewrite leb_zero_spec in *. rewrite leb_spec in Hxy.
  destruct (Prim2SF x) as [s|s| |s m e]; try discriminate;
    destruct (Prim2SF y) as [s'|s'| |s' m' e']; try discriminate;
    try reflexivity; cbn in H0; try (apply negb_true_iff in H0; subst s);
    destruct s'; try reflexivity; discriminate.
Qed.

Lemma fl_leb_total (x y : float) :
  (0 <=? x) = true -> (0 <=? y) = true ->
  (x <=? y) = false -> (y <=? x) = true.
Proof.
  intros Hx Hy H. rewrite fl_leb_ord in * by assumption.
  apply Z.leb_gt in H. apply Z.leb_le. lia.
Qed.

Lemma fl_le_real (x y : float) :
  (0 <=? x) = true -> (x <=? y) = true -> nonneg_real y = true ->
  nonneg_real x = true.
Proof.
  intros Hx Hxy Hy. pose proof (nonneg_real_nonneg y Hy) as Hyn.
  rewrite fl_leb_ord in Hxy by assumption. apply Z.leb_le in Hxy.
  rewrite nonneg_real_spec. rewrite leb_zero_spec in Hx. rewrite Hx.
  apply ord_below_top_finite; [exact Hx|].
  apply nonneg_real_elim in Hy as [Sy Fy].
  pose proof (ord_valid_range _ (Prim2SF_valid y) Sy) as [_ Ht].
  specialize (Ht Fy). lia.
Qed.

Lemma SFmul_comm x y : SFmul prec emax x y = SFmul prec emax y x.
Proof.
  destruct x as [sx|sx| |sx mx ex], y as [sy|sy| |sy my ey]; cbn [SFmul];
    rewrite ?(xorb_comm sx sy); try reflexivity.
  rewrite (Pos.mul_comm mx my), (Z.add_comm ex ey). reflexivity.
Qed.

Lemma fl_mul_comm (x y : float) : x * y = y * x.
Proof.
  apply Prim2SF_inj. rewrite !mul_spec. apply SFmul_comm.
Qed.

Lemma infinity_top (x : float) : (0 <=? x) = true -> (x <=? infinity) = true.
Proof.
  intros Hx. rewrite fl_leb_ord by (try assumption; reflexivity).
  apply Z.leb_le. rewrite leb_zero_spec in Hx.
  apply (ord_valid_range _ (Prim2SF_valid x) Hx).
Qed.

Lemma not_real_infinity (x : float) :
  (0 <=? x) = true -> nonneg_real x = false -> x = infinity.
Proof.
  intros Hx Hn. rewrite nonneg_real_spec in Hn. rewrite leb_zero_spec in Hx.
  rewrite Hx in Hn. apply Prim2SF_inj. rewrite Prim2SF_infinity.
  destruct (Prim2SF x) as [s|s| |s m e]; try discriminate.
  cbn in Hx. apply negb_true_iff in Hx. subst s. reflexivity.
Qed.

(** Multiplying by a non-zero real constant is monotone, also when the
    other factor has overflowed. *)
Lemma fl_mul_const_mono (q q' c : float) :
  (0 <=? q) = true -> (q <=? q') = true ->
  nonneg_real c = true -> (c =? 0) = false ->
  (q * c <=? q' * c) = true.
Proof.
  intros Hq Hqq Hc Hz.
  pose proof (fl_leb_nonneg_r q q' Hq Hqq) as Hq'.
  destruct (nonneg_real q') eqn:Hr'.
  - rewrite (fl_mul_comm q c), (fl_mul_comm q' c).
    apply fl_mul_mono; try assumption. eapply fl_le_real; eassumption.
  - rewrite (not_real_infinity q' Hq' Hr').
    assert (E : infinity * c = infinity).
    { apply Prim2SF_inj. rewrite mul_spec, Prim2SF_infinity.
      apply nonneg_real_elim in Hc as [Sc Fc]. rewrite eqb_zero_spec in Hz.
      destruct (Prim2SF c) as [s|s| |s m e]; try discriminate.
      cbn in Sc. apply negb_true_iff in Sc. subst s. reflexivity. }
    rewrite E. apply infinity_top. apply fl_mul_nonneg_const; assumption.
Qed.

(** Division by a positive divisor that may have overflowed. *)
Lemma fl_div_mono_ext (x x' y y' : float) :
  nonneg_real x = true -> nonneg_real x' = true ->
  (0 <? y') = true -> (x <=? x') = true -> (y' <=? y) = true ->
  (x / y <=? x' / y') = true.
Proof.
  intros Hx Hx' Hy'pos Hxx Hyy.
  pose proof (positive_spec y' Hy'pos) as [Hy'n Hy'z].
  pose proof (fl_leb_nonneg_r y' y Hy'n Hyy) as Hyn.
  destruct (nonneg_real y) eqn:Hr.
  - apply fl_div_mono; assumption.
  - rewrite (not_real_infinity y Hyn Hr).
    assert (E : exists s, Prim2SF (x / infinity) = S754_zero s).
    { rewrite div_spec, Prim2SF_infinity.
      apply nonneg_real_elim in Hx as [Sx Fx].
      destruct (Prim2SF x) as [s|s| |s m e]; try discriminate;
        eexists; reflexivity. }
    destruct E as [s0 E].
    assert (N : (0 <=? x' / y') = true) by (apply fl_div_nonneg; assumption).
    rewrite leb_spec, E. rewrite leb_zero_spec in N.
    destruct (Prim2SF (x' / y')) as [s|s| |s m e]; try discriminate;
      cbn in N; try (apply negb_true_iff in N; subst s); reflexivity.
Qed.

(** * The calculator is monotone *)

Lemma le_result_float (f f' : float) :
  (f <=? f') = true -> le_result (Ok (VFloat f)) (Ok (VFloat f')).
Proof. intros H. exists (VFloat f), (VFloat f'). repeat split. exact H. Qed.

Lemma nonneg_nonzero_pos (x : float) :
  (0 <=? x) = true -> (x =? 0) = false -> (0 <? x) = true.
Proof.
  rewrite leb_zero_spec, eqb_zero_spec, ltb_spec, Prim2SF_zero.
  destruct (Prim2SF x) as [s|s| |s m e]; try discriminate; cbn;
    intros H _; apply negb_true_iff in H; subst s; reflexivity.
Qed.

Lemma le_zero_is_zero (x y : float) :
  (0 <=? x) = true -> (x <=? y) = true -> (y =? 0) = true -> (x =? 0) = true.
Proof.
  intros Hx Hxy Hy. pose proof (fl_leb_nonneg_r x y Hx Hxy) as Hyn.
  rewrite fl_leb_ord in Hxy by assumption. apply Z.leb_le in Hxy.
  rewrite eqb_zero_spec in *. rewrite leb_zero_spec in Hx.
  pose proof (Prim2SF_valid x) as Vx.
  destruct (Prim2SF y) as [s|s| |s m e]; try discriminate.
  destruct (Prim2SF x) as [s'|s'| |s' m' e']; try discriminate; try reflexivity;
    cbn [ord] in Hxy.
  - unfold ord_top in Hxy. pow_consts. lia.
  - destruct (valid_finite_bounds _ _ _ Vx) as (_ & He & _ & _). pow_consts. lia.
Qed.

(** X1.  More energy never needs less methanol. *)
Theorem methanol_consumption_monotone (energy_wh energy_wh' : float) :
  nonneg_real energy_wh = true -> nonneg_real energy_wh' = true ->
  (energy_wh <=? energy_wh') = true ->
  le_result (calculate_methanol_consumption energy_wh)
            (calculate_methanol_consumption energy_wh').
Proof.
  intros He He' Hle. rewrite !calculate_methanol_consumption_eq.
  apply le_result_float, fl_mul_const_mono; try reflexivity.
  - apply nonneg_real_nonneg, fl_div_1000_real, He.
  - apply fl_div_mono; try assumption; reflexivity.
Qed.

Lemma methanol_consumption_monotone_witness :
  le_result (calculate_methanol_consumption 1000)
            (calculate_methanol_consumption 2000).
Proof. apply (methanol_consumption_monotone 1000 2000); reflexivity. Defined.

(** X2.  More fuel, or a lower daily consumption, never shortens the tank
    autonomy; a zero consumption gives the longest one. *)
Theorem tank_autonomy_monotone (liters liters' daily daily' : float) :
  nonneg_real liters = true -> nonneg_real liters' = true ->
  nonneg_real daily = true -> (0 <=? daily') = true ->
  (liters <=? liters') = true -> (daily' <=? daily) = true ->
  le_result (calculate_tank_autonomy liters daily)
            (calculate_tank_autonomy liters' daily').
Proof.
  intros Hl Hl' Hd Hd' Hll Hdd. rewrite !calculate_tank_autonomy_eq.
  apply le_result_float.
  destruct (daily' =? 0) eqn:Hz'.
  - apply infinity_top. destruct (daily =? 0) eqn:Hz; [reflexivity|].
    apply fl_div_nonneg; auto using nonneg_real_nonneg.
  - destruct (daily =? 0) eqn:Hz.
    + rewrite (le_zero_is_zero daily' daily Hd' Hdd Hz) in Hz'. discriminate.
    + apply fl_div_mono; try assumption. apply nonneg_nonzero_pos; assumption.
Qed.

Lemma tank_autonomy_monotone_witness :
  le_result (calculate_tank_autonomy 5 2) (calculate_tank_autonomy 10 1).
Proof. apply (tank_autonomy_monotone 5 10 2 1); reflexivity. Defined.

(** X3.  A higher daily demand never lengthens the battery autonomy. *)
Theorem discharge_time_antitone (energy_wh energy_wh' : float) :
  nonneg_real energy_wh = true -> (0 <=? energy_wh') = true ->
  (energy_wh' <=? energy_wh) = true ->
  le_result (battery_discharge_time energy_wh) (battery_discharge_time energy_wh').
Proof.
  intros He He' Hle. rewrite !battery_discharge_time_eq. apply le_result_float.
  destruct (energy_wh' =? 0) eqn:Hz'.
  - apply infinity_top. destruct (energy_wh =? 0) eqn:Hz; [reflexivity|].
    apply fl_mul_nonneg_const; try reflexivity.
    apply fl_div_nonneg; auto using nonneg_real_nonneg.
  - destruct (energy_wh =? 0) eqn:Hz.
    + rewrite (le_zero_is_zero _ _ He' Hle Hz) in Hz'. discriminate.
    + apply fl_mul_const_mono; try reflexivity.
      * apply fl_div_nonneg; auto using nonneg_real_nonneg.
      * apply fl_div_mono; try assumption; try reflexivity.
        apply nonneg_nonzero_pos; assumption.
Qed.

Lemma discharge_time_antitone_witness :
  le_result (battery_discharge_time 2000) (battery_discharge_time 1000).
Proof. apply (discharge_time_antitone 2000 1000); reflexivity. Defined.

(** X4.  More energy to charge, or a weaker fuel cell, never shortens the charge
    time. *)
Theorem charge_time_monotone (energy energy' output output' : float) :
  nonneg_real energy = true -> nonneg_real energy' = true ->
  (0 <? output') = true ->
  (energy <=? energy') = true -> (output' <=? output) = true ->
  le_result (battery_charge_time_needed energy output)
            (battery_charge_time_needed energy' output').
Proof.
  intros He He' Hw' Hle Hww.
  pose proof (positive_spec output' Hw') as [Hn' Hz'].
  assert (Hz : (output =? 0) = false).
  { destruct (output =? 0) eqn:Hz; [|reflexivity].
    rewrite (le_zero_is_zero _ _ Hn' Hww Hz) in Hz'. discriminate. }
  rewrite !battery_charge_time_needed_eq, Hz, Hz'.
  apply le_result_float, fl_div_mono_ext; assumption.
Qed.

Lemma charge_time_monotone_witness :
  le_result (battery_charge_time_needed 100 125)
            (battery_charge_time_needed 200 100).
Proof. apply (charge_time_monotone 100 200 125 100); reflexivity. Defined.

Lemma chemical_energy_pos (m : float) :
  nonneg_real m = true -> (m =? 0) = false ->
  (0 <? m * METHANOL_ENERGY_DENSITY) = true.
Proof.
  intros Hm Hz. apply nonneg_nonzero_pos.
  - apply chemical_energy_nonneg, Hm.
  - apply mul_density_nonzero, Hz.
Qed.

(** X5.  For the same methanol, more delivered energy never lowers any of the
    three efficiencies. *)
Theorem efficiencies_monotone_in_energy (energy energy' methanol : float) :
  nonneg_real energy = true -> nonneg_real energy' = true ->
  nonneg_real methanol = true -> (energy <=? energy') = true ->
  le_result (fuel_cell_efficiency energy methanol)
            (fuel_cell_efficiency energy' methanol)
  /\ le_result (system_efficiency energy methanol)
               (system_efficiency energy' methanol)
  /\ (forall battery battery',
         le_result (global_system_efficiency battery energy methanol)
                   (global_system_efficiency battery' energy' methanol)).
Proof.
  intros He He' Hm Hle.
  rewrite !fuel_cell_efficiency_eq, !system_efficiency_eq.
  destruct (methanol =? 0) eqn:Hz.
  - split; [exists (VInt 0), (VInt 0); repeat split|].
    split; [apply le_result_float; reflexivity|].
    intros b b'. rewrite !global_system_efficiency_eq, Hz.
    apply le_result_float. reflexivity.
  - pose proof (chemical_energy_pos methanol Hm Hz) as Hc.
    pose proof (positive_spec _ Hc) as [Hcn _].
    split; [|split].
    + apply le_result_float, fl_div_mono_ext; try assumption.
      apply fl_leb_refl, Hcn.
    + apply le_result_float, fl_div_mono_ext; try assumption.
      apply fl_leb_refl, Hcn.
    + intros b b'. rewrite !global_system_efficiency_eq, Hz.
      apply le_result_float, fl_div_mono_ext; try assumption.
      * apply fl_mul_fraction_real; try reflexivity. apply fl_div_1000_real, He.
      * apply fl_mul_fraction_real; try reflexivity. apply fl_div_1000_real, He'.
      * apply fl_mul_const_mono; try reflexivity.
        -- apply nonneg_real_nonneg, fl_div_1000_real, He.
        -- apply fl_div_mono; try assumption; reflexivity.
      * apply fl_leb_refl, Hcn.
Qed.

Lemma efficiencies_monotone_in_energy_witness :
  le_result (fuel_cell_efficiency 1000 2) (fuel_cell_efficiency 2000 2)
  /\ le_result (system_efficiency 1000 2) (system_efficiency 2000 2)
  /\ (forall battery battery',
         le_result (global_system_efficiency battery 1000 2)
                   (global_system_efficiency battery' 2000 2)).
Proof. apply (efficiencies_monotone_in_energy 1000 2000 2); reflexivity. Defined.

(** X6.  For the same energy, more methanol (above zero) never raises any of the
    three efficiencies. *)
Theorem efficiencies_antitone_in_methanol (energy methanol methanol' : float) :
  nonneg_real energy = true -> nonneg_real methanol = true ->
  (0 <? methanol') = true -> (methanol' <=? methanol) = true ->
  le_result (fuel_cell_efficiency energy methanol)
            (fuel_cell_efficiency energy methanol')
  /\ le_result (system_efficiency energy methanol)
               (system_efficiency energy methanol')
  /\ (forall battery battery',
         le_result (global_system_efficiency battery energy methanol)
                   (global_system_efficiency battery' energy methanol')).
Proof.
  intros He Hm Hm' Hle.
  pose proof (positive_spec _ Hm') as [Hn' Hz'].
  assert (Hz : (methanol =? 0) = false).
  { destruct (methanol =? 0) eqn:Hz; [|reflexivity].
    rewrite (le_zero_is_zero _ _ Hn' Hle Hz) in Hz'. discriminate. }
  assert (Hr' : nonneg_real methanol' = true) by (eapply fl_le_real; eassumption).
  pose proof (chemical_energy_pos methanol' Hr' Hz') as Hc'.
  assert (Hcc : (methanol' * METHANOL_ENERGY_DENSITY
                 <=? methanol * METHANOL_ENERGY_DENSITY) = true).
  { apply fl_mul_const_mono; try assumption; reflexivity. }
  rewrite !fuel_cell_efficiency_eq, !system_efficiency_eq, Hz, Hz'.
  split; [|split].
  - apply le_result_float, fl_div_mono_ext; try assumption.
    apply fl_leb_refl, nonneg_real_nonneg, He.
  - apply le_result_float, fl_div_mono_ext; try assumption.
    apply fl_leb_refl, nonneg_real_nonneg, He.
  - intros b b'. rewrite !global_system_efficiency_eq, Hz, Hz'.
    assert (Hnet : nonneg_real (energy / 1000 * BATTERY_EFFICIENCY) = true).
    { apply fl_mul_fraction_real; try reflexivity. apply fl_div_1000_real, He. }
    apply le_result_float, fl_div_mono_ext; try assumption.
    apply fl_leb_refl, nonneg_real_nonneg, Hnet.
Qed.

Lemma efficiencies_antitone_in_methanol_witness :
  le_result (fuel_cell_efficiency 1000 2) (fuel_cell_efficiency 1000 1)
  /\ le_result (system_efficiency 1000 2) (system_efficiency 1000 1)
  /\ (forall battery battery',
         le_result (global_system_efficiency battery 1000 2)
                   (global_system_efficiency battery' 1000 1)).
Proof. apply (efficiencies_antitone_in_methanol 1000 2 1); reflexivity. Defined.

(** ** Peak load coverage *)

(** The test on the peak current is a test on the peak power: the battery
    limit of 200 A at 12.8 V is 2560 W. *)
Lemma peak_current_test (p : float) :
  nonneg_real p = true -> (p / BATTERY_VOLTAGE <=? 200) = (p <=? 2560).
Proof.
  intros Hp. pose proof (nonneg_real_nonneg p Hp) as Hn.
  destruct (p <=? 2560) eqn:Hle.
  - change 200 with (2560 / BATTERY_VOLTAGE).
    apply fl_div_mono; try assumption; reflexivity.
  - assert (Hu : (0x1.4000000000001p+11 <=? p) = true).
    { rewrite fl_leb_ord in Hle by (try assumption; reflexivity).
      apply Z.leb_gt in Hle.
      rewrite fl_leb_ord by (try assumption; reflexivity).
      apply Z.leb_le.
      change (ord (Prim2SF 0x1.4000000000001p+11)) with (ord (Prim2SF 2560) + 1)%Z.
      lia. }
    destruct (p / BATTERY_VOLTAGE <=? 200) eqn:Hc; [exfalso|reflexivity].
    assert (H : (0x1.4000000000001p+11 / BATTERY_VOLTAGE <=? p / BATTERY_VOLTAGE) = true)
      by (apply fl_div_mono; try assumption; reflexivity).
    assert (Hpos : (0 <=? 0x1.4000000000001p+11 / BATTERY_VOLTAGE) = true)
      by reflexivity.
    pose proof (fl_leb_trans (0x1.4000000000001p+11 / BATTERY_VOLTAGE)
                  (p / BATTERY_VOLTAGE) 200 Hpos H Hc) as Hbad.
    vm_compute in Hbad. discriminate.
Qed.

(** Above the limit, the covered fraction is at most one. *)
Lemma covered_fraction (p : float) :
  nonneg_real p = true -> (p <=? 2560) = false ->
  (0 <=? 2560 / p * 100) = true /\ (2560 / p * 100 <=? 100) = true
  /\ (p =? 0) = false.
Proof.
  intros Hp Hle. pose proof (nonneg_real_nonneg p Hp) as Hn.
  assert (Hge : (2560 <=? p) = true)
    by (apply fl_leb_total; try assumption; reflexivity).
  assert (Hz : (p =? 0) = false).
  { destruct (p =? 0) eqn:Hz; [|reflexivity].
    assert (Hpos : (0 <=? 2560) = true) by reflexivity.
    pose proof (le_zero_is_zero 2560 p Hpos Hge Hz) as H.
    vm_compute in H. discriminate. }
  assert (Hq : (0 <=? 2560 / p) = true)
    by (apply fl_div_nonneg; try assumption; reflexivity).
  split; [apply fl_mul_nonneg_const; try assumption; reflexivity|].
  split; [|exact Hz].
  change 100 with (2560 / 2560 * 100) at 2.
  apply fl_mul_const_mono; try assumption; try reflexivity.
  apply fl_div_mono; try assumption; try reflexivity.
Qed.

(** What [peak_load_coverage] returns on a non-negative real power: [100.0]
    up to 2560 W and the rounded covered fraction above. *)
Lemma peak_load_coverage_real (p : float) :
  nonneg_real p = true ->
  peak_load_coverage p
  = Ok (VFloat (if p <=? 2560 then 100.0 else py_round1 (2560 / p * 100))).
Proof.
  intros Hp. rewrite peak_load_coverage_eq, (peak_current_test p Hp). reflexivity.
Qed.

(** X7.  The coverage is a percentage: [100.0] for every peak power up to 2560 W
    and a value between [0] and [100] above. *)
Theorem peak_load_coverage_percentage (peak_power_w : float) :
  nonneg_real peak_power_w = true ->
  exists v, peak_load_coverage peak_power_w = Ok (VFloat v)
            /\ (0 <=? v) = true /\ (v <=? 100) = true
            /\ ((peak_power_w <=? 2560) = true -> v = 100.0).
Proof.
  intros Hp. rewrite (peak_load_coverage_real _ Hp).
  eexists. split; [reflexivity|].
  destruct (peak_power_w <=? 2560) eqn:Hle.
  - repeat split; reflexivity.
  - destruct (covered_fraction _ Hp Hle) as (H0 & H100 & _).
    split; [apply py_round1_nonneg, H0|]. split; [|discriminate].
    apply (py_round1_percent _ _ H0 (fl_leb_refl _ H0) H100).
Qed.

Lemma peak_load_coverage_percentage_witness :
  exists v, peak_load_coverage 2000 = Ok (VFloat v)
            /\ (0 <=? v) = true /\ (v <=? 100) = true
            /\ ((2000 <=? 2560) = true -> v = 100.0).
Proof. apply (peak_load_coverage_percentage 2000); reflexivity. Defined.

(** X8.  A higher peak power never raises the coverage. *)
Theorem peak_load_coverage_antitone (peak_power_w peak_power_w' : float) :
  nonneg_real peak_power_w = true -> nonneg_real peak_power_w' = true ->
  (peak_power_w <=? peak_power_w') = true ->
  le_result (peak_load_coverage peak_power_w') (peak_load_coverage peak_power_w).
Proof.
  intros Hp Hp' Hle.
  pose proof (nonneg_real_nonneg _ Hp) as Hn.
  pose proof (nonneg_real_nonneg _ Hp') as Hn'.
  rewrite (peak_load_coverage_real _ Hp), (peak_load_coverage_real _ Hp').
  apply le_result_float.
  destruct (peak_power_w' <=? 2560) eqn:H'.
  - rewrite (fl_leb_trans _ _ _ Hn Hle H'). reflexivity.
  - destruct (covered_fraction _ Hp' H') as (H0' & H100' & Hz').
    destruct (peak_power_w <=? 2560) eqn:H.
    + apply (py_round1_percent _ _ H0' (fl_leb_refl _ H0') H100').
    + destruct (covered_fraction _ Hp H) as (H0 & H100 & Hz).
      apply (py_round1_percent _ _ H0'); [|exact H100].
      apply fl_mul_const_mono; try reflexivity.
      * apply fl_div_nonneg; try assumption; reflexivity.
      * apply fl_div_mono; try assumption; try reflexivity.
        apply nonneg_nonzero_pos; assumption.
Qed.

Lemma peak_load_coverage_antitone_witness :
  le_result (peak_load_coverage 4000) (peak_load_coverage 3000).
Proof. apply (peak_load_coverage_antitone 3000 4000); reflexivity. Defined.

(** * The dashboard's main calculations *)

(** What the main calculations compute, once the demand is known. *)
Lemma main_calculations_eq (apps : list Appliance) (tank : float) :
  exists d, calculate_daily_energy_demand apps = Ok d /\
  let m := to_float d / 1000 * METHANOL_CONSUMPTION_PER_KWH in
  let fc := to_float (excess_over_battery d) in
  main_calculations apps tank
  = Ok (mkKpis d (VFloat m)
          (VFloat (if m =? 0 then infinity else tank / m))
          (VFloat (if to_float d =? 0 then infinity
                   else BATTERY_CAPACITY_WH / to_float d * 24))
          (py_min (VFloat BATTERY_CAPACITY_WH) d)
          (excess_over_battery d)
          (VFloat (if m =? 0 then 0
                   else (fc / 1000 * BATTERY_EFFICIENCY)
                        / (m * METHANOL_ENERGY_DENSITY)))
          (excess_over_battery d)
          (VFloat (fc / 125))).
Proof.
  unfold main_calculations.
  eexists. split; [reflexivity|]. cbv zeta.
  unfold calculate_daily_energy_demand at 1. cbn [bind].
  rewrite calculate_methanol_consumption_eq. cbn [bind to_float].
  rewrite calculate_tank_autonomy_eq. cbn [bind].
  rewrite battery_discharge_time_eq. cbn [bind].
  rewrite global_system_efficiency_eq. cbn [bind].
  rewrite battery_charge_time_needed_eq.
  change (FUEL_CELL_OUTPUT_W =? 0) with false. cbn [bind]. reflexivity.
Qed.

(** X9.  The dashboard's calculation never raises, whatever the appliances and
    the tank: every division it reaches is guarded or divides by a non-zero
    constant. *)
Theorem main_calculations_never_raises :
  forall (custom_appliances : list Appliance) (tank_liters : float),
    exists k, main_calculations custom_appliances tank_liters = Ok k.
Proof.
  intros apps tank. destruct (main_calculations_eq apps tank) as (d & _ & H).
  cbv zeta in H. rewrite H. eexists. reflexivity.
Qed.

Lemma fl_zero_div (y : float) : (0 <? y) = true -> 0 / y = 0.
Proof.
  intros H. apply Prim2SF_inj. rewrite div_spec, Prim2SF_zero.
  rewrite ltb_spec, Prim2SF_zero in H.
  destruct (Prim2SF y) as [s|s| |s m e]; try discriminate;
    destruct s; try discriminate; reflexivity.
Qed.

Lemma fl_zero_add (t : float) : SFis_zero (Prim2SF t) = true -> 0 + t = 0.
Proof.
  intros H. apply Prim2SF_inj. rewrite add_spec, Prim2SF_zero.
  destruct (Prim2SF t) as [s|s| |s m e]; try discriminate.
  destruct s; reflexivity.
Qed.

Lemma fl_mul_zero_r (p h : float) :
  is_real p = true -> (h =? 0) = true -> SFis_zero (Prim2SF (p * h)) = true.
Proof.
  rewrite is_real_spec, eqb_zero_spec, mul_spec.
  destruct (Prim2SF p) as [s|s| |s m e]; try discriminate;
    destruct (Prim2SF h) as [s'|s'| |s' m' e']; try discriminate; reflexivity.
Qed.

Lemma fold_add_zero (ts : list float) :
  Forall (fun t => SFis_zero (Prim2SF t) = true) ts ->
  fold_left PrimFloat.add ts 0 = 0.
Proof.
  induction 1 as [|t ts Ht _ IH]; [reflexivity|].
  cbn [fold_left]. rewrite fl_zero_add by exact Ht. exact IH.
Qed.

(** With every appliance switched off the demand is zero. *)
Lemma switched_off_demand (apps : list Appliance) :
  Forall (fun a => is_real (power a) = true /\ (hours a =? 0) = true) apps ->
  exists d, calculate_daily_energy_demand apps = Ok d /\
            (d = VInt 0 \/ d = VFloat 0).
Proof.
  intros H. destruct apps as [|app apps].
  - exists (VInt 0). split; [reflexivity|left; reflexivity].
  - rewrite daily_energy_demand_floats by discriminate.
    eexists. split; [reflexivity|]. right. f_equal.
    apply fold_add_zero, Forall_map. revert H. apply Forall_impl.
    intros a [Hp Hh]. apply fl_mul_zero_r; assumption.
Qed.

Lemma excess_fits (d : value) :
  nonneg_real (to_float d) = true ->
  (to_float d <=? BATTERY_CAPACITY_WH) = true ->
  excess_over_battery d = VInt 0.
Proof.
  intros Hd Hle. unfold excess_over_battery, py_max.
  assert (H : py_lt (VInt 0) (py_sub d (VFloat BATTERY_CAPACITY_WH)) = false).
  { pose proof (fl_sub_not_pos (to_float d) BATTERY_CAPACITY_WH Hd eq_refl Hle) as H.
    destruct d; exact H. }
  rewrite H. reflexivity.
Qed.

Lemma excess_real (d : value) :
  nonneg_real (to_float d) = true ->
  nonneg_real (to_float (excess_over_battery d)) = true.
Proof.
  intros Hd. unfold excess_over_battery, py_max.
  destruct (py_lt (VInt 0) (py_sub d (VFloat BATTERY_CAPACITY_WH))) eqn:H;
    [|reflexivity].
  assert (E : py_sub d (VFloat BATTERY_CAPACITY_WH)
              = VFloat (to_float d - BATTERY_CAPACITY_WH)) by (destruct d; reflexivity).
  rewrite E in *. cbn [to_float].
  apply fl_sub_pos_real; [exact Hd|reflexivity|exact H].
Qed.

Lemma methanol_real (x : float) :
  nonneg_real x = true ->
  nonneg_real (x / 1000 * METHANOL_CONSUMPTION_PER_KWH) = true.
Proof.
  intros Hx. apply fl_mul_fraction_real; try reflexivity.
  apply fl_div_1000_real, Hx.
Qed.

Lemma SFcompare_eq_sym x y :
  SFcompare x y = Some Eq -> SFcompare y x = Some Eq.
Proof.
  destruct x as [s|s| |s m e], y as [s'|s'| |s' m' e']; cbn;
    try destruct s; try destruct s'; try discriminate; auto;
    destruct (Z.compare_spec e e'); try discriminate; subst;
    rewrite ?Z.compare_refl;
    try (rewrite Pos.compare_cont_spec; cbn;
         destruct (Pos.compare_spec m m'); try discriminate; subst;
         rewrite Pos.compare_cont_spec, Pos.compare_refl; reflexivity);
    destruct (Pos.compare_spec m m'); try discriminate; subst;
    rewrite ?Pos.compare_refl; try reflexivity.
Qed.

Lemma fl_le_not_lt_eq (x y : float) :
  (x <=? y) = true -> (x <? y) = false -> (y =? x) = true.
Proof.
  rewrite leb_spec, ltb_spec, eqb_spec. unfold SFleb, SFltb, SFeqb.
  destruct (SFcompare (Prim2SF x) (Prim2SF y)) as [[| |]|] eqn:E;
    try discriminate.
  intros _ _. rewrite (SFcompare_eq_sym _ _ E). reflexivity.
Qed.

(** X10.  With every appliance switched off, the dashboard reports no methanol
    use, unlimited tank and battery autonomy, efficiency 0 and no charging
    time, for any tank. *)
Theorem main_calculations_all_switched_off
    (custom_appliances : list Appliance) (tank_liters : float) :
  Forall (fun a => is_real (power a) = true /\ (hours a =? 0) = true)
         custom_appliances ->
  exists k, main_calculations custom_appliances tank_liters = Ok k
    /\ py_eq (daily_demand_wh k) (VInt 0) = true
    /\ methanol_per_day k = VFloat 0
    /\ autonomy_days k = VFloat infinity
    /\ battery_hours k = VFloat infinity
    /\ fuel_cell_energy_wh k = VInt 0
    /\ efficiency_pct k = VFloat 0
    /\ charge_time k = VFloat 0.
Proof.
  intros H. destruct (switched_off_demand _ H) as (d & Hd & Hz).
  destruct (main_calculations_eq custom_appliances tank_liters) as (d' & Hd' & Hk).
  rewrite Hd in Hd'. injection Hd' as <-. cbv zeta in Hk. rewrite Hk.
  eexists. split; [reflexivity|].
  destruct Hz as [-> | ->]; repeat split; reflexivity.
Qed.

Lemma main_calculations_all_switched_off_witness :
  exists k,
    main_calculations [mkAppliance "laptop" 95 0; mkAppliance "radio" 5 0] 10 = Ok k
    /\ py_eq (daily_demand_wh k) (VInt 0) = true
    /\ methanol_per_day k = VFloat 0
    /\ autonomy_days k = VFloat infinity
    /\ battery_hours k = VFloat infinity
    /\ fuel_cell_energy_wh k = VInt 0
    /\ efficiency_pct k = VFloat 0
    /\ charge_time k = VFloat 0.
Proof.
  apply (main_calculations_all_switched_off
           [mkAppliance "laptop" 95 0; mkAppliance "radio" 5 0] 10).
  repeat constructor.
Defined.

(** X11.  When the daily demand fits the battery, nothing is asked of the fuel
    cell: its energy share and the battery deficit are [0], so the reported
    efficiency is [0.0] and the charging time [0.0], and the battery's share
    equals the demand. *)
Theorem main_calculations_within_battery
    (custom_appliances : list Appliance) (tank_liters : float) (demand : value) :
  calculate_daily_energy_demand custom_appliances = Ok demand ->
  nonneg_real (to_float demand) = true ->
  py_le demand (VFloat BATTERY_CAPACITY_WH) = true ->
  exists k, main_calculations custom_appliances tank_liters = Ok k
    /\ daily_demand_wh k = demand
    /\ py_eq (battery_energy_wh k) demand = true
    /\ fuel_cell_energy_wh k = VInt 0
    /\ battery_deficit k = VInt 0
    /\ efficiency_pct k = VFloat 0
    /\ charge_time k = VFloat 0.
Proof.
  intros Hd Hreal Hle.
  assert (Hle' : (to_float demand <=? BATTERY_CAPACITY_WH) = true)
    by (destruct demand; exact Hle).
  destruct (main_calculations_eq custom_appliances tank_liters) as (d' & Hd' & Hk).
  rewrite Hd in Hd'. injection Hd' as <-. cbv zeta in Hk. rewrite Hk.
  rewrite (excess_fits demand Hreal Hle').
  eexists. split; [reflexivity|]. cbn [daily_demand_wh battery_energy_wh
    fuel_cell_energy_wh battery_deficit efficiency_pct charge_time].
  repeat split.
  - unfold py_min. destruct (py_lt demand (VFloat BATTERY_CAPACITY_WH)) eqn:Hlt.
    + destruct demand as [z|f]; cbn [py_eq to_float].
      * apply Z.eqb_refl.
      * cbn [to_float] in Hreal. apply nonneg_real_elim in Hreal as [_ Hfin].
        rewrite eqb_spec. apply SFeqb_refl.
        destruct (Prim2SF f); try discriminate; reflexivity.
    + assert (E : py_lt demand (VFloat BATTERY_CAPACITY_WH)
                  = (to_float demand <? BATTERY_CAPACITY_WH))
        by (destruct demand; reflexivity).
      rewrite E in Hlt.
      pose proof (fl_le_not_lt_eq _ _ Hle' Hlt) as Heq.
      destruct demand; exact Heq.
  - pose proof (methanol_real _ Hreal) as Hm.
    destruct (_ =? 0) eqn:Hz; [reflexivity|]. f_equal.
    change (to_float (VInt 0) / 1000 * BATTERY_EFFICIENCY) with 0.
    apply fl_zero_div, chemical_energy_pos; assumption.
Qed.

Lemma main_calculations_within_battery_witness :
  exists k, main_calculations [mkAppliance "laptop" 95 4] 10 = Ok k
    /\ daily_demand_wh k = VFloat 380
    /\ py_eq (battery_energy_wh k) (VFloat 380) = true
    /\ fuel_cell_energy_wh k = VInt 0
    /\ battery_deficit k = VInt 0
    /\ efficiency_pct k = VFloat 0
    /\ charge_time k = VFloat 0.
Proof.
  apply (main_calculations_within_battery [mkAppliance "laptop" 95 4] 10 (VFloat 380));
    reflexivity.
Defined.

Lemma demand_value_nonneg (apps : list Appliance) (d : value) :
  Forall (fun a => well_formed a = true) apps ->
  calculate_daily_energy_demand apps = Ok d ->
  (0 <=? to_float d) = true.
Proof.
  intros Hwf Hd. destruct apps as [|app apps].
  - injection Hd as <-. reflexivity.
  - rewrite daily_energy_demand_floats in Hd by discriminate.
    injection Hd as <-.
    apply (fold_add_nonneg (map (fun app => power app * hours app) (app :: apps)) 0);
      [|reflexivity].
    apply Forall_map. revert Hwf. apply Forall_impl. exact well_formed_term.
Qed.

Lemma excess_nonneg (d : value) :
  nonneg_real (to_float d) = true ->
  nonneg_value (excess_over_battery d) = true.
Proof.
  intros Hd. pose proof (excess_real d Hd) as Hr.
  apply nonneg_real_nonneg in Hr. revert Hr.
  unfold excess_over_battery, py_max.
  destruct (py_lt (VInt 0) (py_sub d (VFloat BATTERY_CAPACITY_WH))) eqn:H;
    [|reflexivity].
  destruct d; cbn [py_sub to_float]; intros Hr; exact Hr.
Qed.

Lemma demand_nonneg_real (apps : list Appliance) (d : value) :
  Forall (fun a => well_formed a = true) apps ->
  calculate_daily_energy_demand apps = Ok d ->
  is_real (to_float d) = true ->
  nonneg_real (to_float d) = true /\ nonneg_value d = true.
Proof.
  intros Hwf Hd Hfin.
  pose proof (demand_value_nonneg _ _ Hwf Hd) as Hn. split.
  - rewrite nonneg_real_spec. rewrite is_real_spec in Hfin.
    rewrite leb_zero_spec in Hn. rewrite Hn, Hfin. reflexivity.
  - destruct apps as [|a l].
    + injection Hd as <-. reflexivity.
    + rewrite daily_energy_demand_floats in Hd by discriminate.
      injection Hd as <-. exact Hn.
Qed.

(** Every quantity of the main calculations is [>= 0] once the demand is a
    non-negative real. *)
Lemma kpis_nonneg (apps : list Appliance) (tank : float) (demand : value) :
  nonneg_real tank = true ->
  calculate_daily_energy_demand apps = Ok demand ->
  nonneg_real (to_float demand) = true -> nonneg_value demand = true ->
  exists k, main_calculations apps tank = Ok k
    /\ daily_demand_wh k = demand
    /\ nonneg_value (daily_demand_wh k) = true
    /\ nonneg_value (methanol_per_day k) = true
    /\ nonneg_value (autonomy_days k) = true
    /\ nonneg_value (battery_hours k) = true
    /\ nonneg_value (battery_energy_wh k) = true
    /\ nonneg_value (fuel_cell_energy_wh k) = true
    /\ nonneg_value (efficiency_pct k) = true
    /\ nonneg_value (battery_deficit k) = true
    /\ nonneg_value (charge_time k) = true.
Proof.
  intros Htank Hd Hreal Hdv.
  destruct (main_calculations_eq apps tank) as (d' & Hd' & Hk).
  rewrite Hd in Hd'. injection Hd' as <-. cbv zeta in Hk. rewrite Hk.
  pose proof (methanol_real _ Hreal) as Hm.
  pose proof (excess_real _ Hreal) as Hfc.
  pose proof (excess_nonneg _ Hreal) as Hfcv.
  eexists. split; [reflexivity|]. split; [reflexivity|].
  cbn [daily_demand_wh methanol_per_day autonomy_days battery_hours
       battery_energy_wh fuel_cell_energy_wh efficiency_pct battery_deficit
       charge_time].
  repeat split; try assumption.
  - apply nonneg_real_nonneg, Hm.
  - unfold nonneg_value, py_le. cbn [to_float].
    destruct (_ =? 0) eqn:Hz; [reflexivity|].
    apply fl_div_nonneg; auto using nonneg_real_nonneg.
  - unfold nonneg_value, py_le. cbn [to_float].
    destruct (to_float demand =? 0) eqn:Hz; [reflexivity|].
    apply fl_mul_nonneg_const; try reflexivity.
    apply fl_div_nonneg; auto using nonneg_real_nonneg.
  - unfold py_min. destruct (py_lt demand (VFloat BATTERY_CAPACITY_WH));
      [exact Hdv|reflexivity].
  - unfold nonneg_value, py_le. cbn [to_float].
    destruct (_ =? 0) eqn:Hz; [reflexivity|].
    apply fl_div_nonneg.
    + apply fl_mul_fraction_real; try reflexivity. apply fl_div_1000_real, Hfc.
    + apply chemical_energy_nonneg, Hm.
    + apply mul_density_nonzero, Hz.
  - unfold nonneg_value, py_le. cbn [to_float].
    apply fl_div_nonneg; [exact Hfc|reflexivity|reflexivity].
Qed.

(** X12.  For appliances with non-negative real power and hours whose total is
    finite, and a non-negative real tank, every quantity the dashboard
    computes is a number [>= 0]. *)
Theorem main_calculations_nonneg
    (custom_appliances : list Appliance) (tank_liters : float) (demand : value) :
  Forall (fun a => well_formed a = true) custom_appliances ->
  nonneg_real tank_liters = true ->
  calculate_daily_energy_demand custom_appliances = Ok demand ->
  is_real (to_float demand) = true ->
  exists k, main_calculations custom_appliances tank_liters = Ok k
    /\ nonneg_value (daily_demand_wh k) = true
    /\ nonneg_value (methanol_per_day k) = true
    /\ nonneg_value (autonomy_days k) = true
    /\ nonneg_value (battery_hours k) = true
    /\ nonneg_value (battery_energy_wh k) = true
    /\ nonneg_value (fuel_cell_energy_wh k) = true
    /\ nonneg_value (efficiency_pct k) = true
    /\ nonneg_value (battery_deficit k) = true
    /\ nonneg_value (charge_time k) = true.
Proof.
  intros Hwf Htank Hd Hfin.
  destruct (demand_nonneg_real _ _ Hwf Hd Hfin) as [Hreal Hdv].
  destruct (kpis_nonneg _ _ _ Htank Hd Hreal Hdv) as (k & Hk & _ & H).
  exists k. split; assumption.
Qed.

Lemma main_calculations_nonneg_witness :
  exists k,
    main_calculations [mkAppliance "laptop" 95 4; mkAppliance "kettle" 300 0.5] 10
    = Ok k
    /\ nonneg_value (daily_demand_wh k) = true
    /\ nonneg_value (methanol_per_day k) = true
    /\ nonneg_value (autonomy_days k) = true
    /\ nonneg_value (battery_hours k) = true
    /\ nonneg_value (battery_energy_wh k) = true
    /\ nonneg_value (fuel_cell_energy_wh k) = true
    /\ nonneg_value (efficiency_pct k) = true
    /\ nonneg_value (battery_deficit k) = true
    /\ nonneg_value (charge_time k) = true.
Proof.
  apply (main_calculations_nonneg
           [mkAppliance "laptop" 95 4; mkAppliance "kettle" 300 0.5] 10 (VFloat 530)).
  - repeat constructor.
  - reflexivity.
  - reflexivity.
  - reflexivity.
Defined.

(** ** The reported efficiency *)

Section Quotients.
Local Open Scope Z_scope.

(** A finite non-zero double divided by itself is exactly one. *)
Lemma SFdiv_self s m e :
  valid_binary (S754_finite s m e) = true ->
  ord (SFdiv prec emax (S754_finite s m e) (S754_finite s m e)) = 1023 * 2 ^ 52.
Proof.
  intros Vy.
  destruct (valid_finite_bounds _ _ _ Vy) as (_ & He & _ & _).
  assert (HD : 0 < ev 1074 (S754_finite s m e)).
  { cbn [ev]. apply Z.mul_pos_pos; [lia|apply pow2_pos; lia]. }
  assert (HV : ev (1074 + 1074) (S754_finite s m e)
               = 2 ^ 1074 * ev 1074 (S754_finite s m e)).
  { cbn [ev]. replace (e + (1074 + 1074)) with (1074 + (e + 1074)) by lia.
    rewrite (pow2_split 1074 (e + 1074)) by lia. ring. }
  apply (rnq_fun 1074 (ev (1074 + 1074) (S754_finite s m e))
                 (ev 1074 (S754_finite s m e))); [lia|exact HD| |].
  - apply SFdiv_rnq; try assumption; try reflexivity; lia.
  - rewrite HV. set (D := ev 1074 (S754_finite s m e)) in *.
    assert (HP : 0 < 2 ^ 1074) by (apply pow2_pos; lia).
    right. split; [apply Z.mul_pos_pos; assumption|].
    exists (-52), (2 ^ 52).
    split; [lia|]. split.
    { replace (-52 + 53 + 1074) with (1 + 1074) by lia.
      rewrite (pow2_split 1 1074) by lia. change (2 ^ 1) with 2. nia. }
    split.
    { intros _. replace (-52 + 52 + 1074) with 1074 by lia. lia. }
    split; [|reflexivity].
    replace (2 ^ 1074 * D) with (2 ^ 52 * (2 ^ (-52 + 1074) * D)).
    + apply nearest_even_exact. apply Z.mul_pos_pos; [apply pow2_pos; lia|exact HD].
    + replace (2 ^ 1074) with (2 ^ (52 + (-52 + 1074))) by (f_equal; lia).
      rewrite (pow2_split 52 (-52 + 1074)) by lia. ring.
Qed.
End Quotients.

Lemma fl_div_self (y : float) :
  nonneg_real y = true -> (0 <? y) = true -> (y / y <=? 1) = true.
Proof.
  intros Hy Hpos. destruct (positive_finite_spec y Hpos Hy) as (m & e & E).
  pose proof (positive_spec y Hpos) as [Hn Hz].
  rewrite fl_leb_ord; [|apply fl_div_nonneg; assumption|reflexivity].
  apply Z.leb_le. rewrite div_spec, Prim2SF_one.
  pose proof (Prim2SF_valid y) as Vy. rewrite E in *.
  unfold SF64div. rewrite (SFdiv_self _ _ _ Vy). cbn [ord]. pow_consts. lia.
Qed.

(** A quotient whose dividend does not exceed its divisor is at most one. *)
Lemma fl_div_le_one (x y : float) :
  nonneg_real x = true -> (0 <? y) = true -> (x <=? y) = true ->
  (x / y <=? 1) = true.
Proof.
  intros Hx Hpos Hle. pose proof (positive_spec y Hpos) as [Hn Hz].
  destruct (nonneg_real y) eqn:Hr.
  - apply (fl_leb_trans (x / y) (y / y) 1).
    + apply fl_div_nonneg; assumption.
    + apply fl_div_mono; try assumption. apply fl_leb_refl, Hn.
    + apply fl_div_self; assumption.
  - rewrite (not_real_infinity y Hn Hr).
    rewrite leb_spec, div_spec, Prim2SF_infinity, Prim2SF_one.
    apply nonneg_real_elim in Hx as [Sx Fx].
    destruct (Prim2SF x) as [s|s| |s m e]; try discriminate; reflexivity.
Qed.

(** What is left after taking a smaller amount away does not exceed the
    original amount. *)
Lemma fl_sub_le (d c : float) :
  nonneg_real d = true -> nonneg_real c = true -> (0 <? d - c) = true ->
  (d - c <=? d) = true.
Proof.
  intros Hd Hc Hpos.
  pose proof (fl_sub_pos_real d c Hd Hc Hpos) as Hr.
  rewrite fl_leb_ord by auto using nonneg_real_nonneg. apply Z.leb_le.
  apply nonneg_real_elim in Hd as [Sd Fd], Hc as [Sc Fc].
  destruct (SFsub_cases 1074 _ _ ltac:(lia) (Prim2SF_valid d) (Prim2SF_valid c)
              Fd Fc Sd Sc) as [Hnp Hp].
  destruct (Z_le_gt_dec (ord (Prim2SF d)) (ord (Prim2SF c))) as [Hle|Hgt].
  - specialize (Hnp Hle). rewrite ltb_spec, Prim2SF_zero, sub_spec in Hpos.
    unfold SF64sub in Hpos. congruence.
  - destruct (Hp ltac:(lia)) as [Hn Hrd']. rewrite sub_spec. unfold SF64sub.
    pose proof (rnd_ev 1074 _ ltac:(lia) (Prim2SF_valid d) Fd) as Hrd.
    assert (Hle : (ev 1074 (Prim2SF d) - ev 1074 (Prim2SF c) <= ev 1074 (Prim2SF d))%Z)
      by (pose proof (ev_nonneg 1074 (Prim2SF c)); lia).
    exact (rnd_mono 1074 _ _ _ _ ltac:(lia) Hle Hrd' Hrd).
Qed.

(** The fuel cell's share never exceeds the demand. *)
Lemma excess_le_demand (d : value) :
  nonneg_real (to_float d) = true ->
  (to_float (excess_over_battery d) <=? to_float d) = true.
Proof.
  intros Hd. unfold excess_over_battery, py_max.
  destruct (py_lt (VInt 0) (py_sub d (VFloat BATTERY_CAPACITY_WH))) eqn:H.
  - assert (E : py_sub d (VFloat BATTERY_CAPACITY_WH)
                = VFloat (to_float d - BATTERY_CAPACITY_WH)) by (destruct d; reflexivity).
    rewrite E in *. cbn [to_float].
    apply fl_sub_le; [exact Hd|reflexivity|exact H].
  - apply nonneg_real_nonneg in Hd. exact Hd.
Qed.

Lemma fl_le_mul_density (m : float) :
  nonneg_real m = true -> (m <=? m * METHANOL_ENERGY_DENSITY) = true.
Proof.
  intros Hm. pose proof (nonneg_real_nonneg m Hm) as Hn.
  apply (fl_leb_trans m (m * 1) (m * METHANOL_ENERGY_DENSITY)); try assumption.
  - rewrite fl_leb_ord; [|assumption|apply fl_mul_nonneg; [assumption|reflexivity]].
    apply Z.leb_le. rewrite mul_spec, Prim2SF_one.
    apply nonneg_real_elim in Hm as [Sm Fm].
    rewrite SFmul_one by auto using Prim2SF_valid. lia.
  - apply fl_mul_mono; try assumption; reflexivity.
Qed.

Lemma net_energy_le_methanol (d : value) :
  nonneg_real (to_float d) = true ->
  (to_float (excess_over_battery d) / 1000 * BATTERY_EFFICIENCY
   <=? to_float d / 1000 * METHANOL_CONSUMPTION_PER_KWH) = true.
Proof.
  intros Hd. pose proof (excess_real d Hd) as Hfc.
  change METHANOL_CONSUMPTION_PER_KWH with BATTERY_EFFICIENCY.
  apply fl_mul_const_mono; try reflexivity.
  - apply nonneg_real_nonneg, fl_div_1000_real, Hfc.
  - apply fl_div_mono; try assumption; try reflexivity.
    apply excess_le_demand, Hd.
Qed.

(** X13.  The efficiency the dashboard reports never exceeds one (100 %): the
    fuel cell's share is at most the demand, and the chemical energy of the
    methanol used is more than the demand's. *)
Theorem main_calculations_efficiency_at_most_one
    (custom_appliances : list Appliance) (tank_liters : float) (demand : value) :
  Forall (fun a => well_formed a = true) custom_appliances ->
  calculate_daily_energy_demand custom_appliances = Ok demand ->
  is_real (to_float demand) = true ->
  exists k, main_calculations custom_appliances tank_liters = Ok k
    /\ py_le (VInt 0) (efficiency_pct k) = true
    /\ py_le (efficiency_pct k) (VFloat 1) = true.
Proof.
  intros Hwf Hd Hfin.
  destruct (demand_nonneg_real _ _ Hwf Hd Hfin) as [Hreal _].
  destruct (main_calculations_eq custom_appliances tank_liters) as (d' & Hd' & Hk).
  rewrite Hd in Hd'. injection Hd' as <-. cbv zeta in Hk. rewrite Hk.
  pose proof (methanol_real _ Hreal) as Hm.
  pose proof (excess_real _ Hreal) as Hfc.
  assert (Hnet : nonneg_real (to_float (excess_over_battery demand) / 1000
                              * BATTERY_EFFICIENCY) = true).
  { apply fl_mul_fraction_real; try reflexivity. apply fl_div_1000_real, Hfc. }
  eexists. split; [reflexivity|]. cbn [efficiency_pct py_le to_float].
  destruct (_ =? 0) eqn:Hz; [split; reflexivity|].
  pose proof (chemical_energy_pos _ Hm Hz) as Hc. split.
  - apply fl_div_nonneg; try assumption.
    + apply chemical_energy_nonneg, Hm.
    + apply mul_density_nonzero, Hz.
  - apply fl_div_le_one; try assumption.
    eapply fl_leb_trans; [apply nonneg_real_nonneg, Hnet| |].
    + apply net_energy_le_methanol, Hreal.
    + apply fl_le_mul_density, Hm.
Qed.

Lemma main_calculations_efficiency_at_most_one_witness :
  exists k, main_calculations [mkAppliance "heater" 490 4] 10 = Ok k
    /\ py_le (VInt 0) (efficiency_pct k) = true
    /\ py_le (efficiency_pct k) (VFloat 1) = true.
Proof.
  apply (main_calculations_efficiency_at_most_one
           [mkAppliance "heater" 490 4] 10 (VFloat 1960)).
  - repeat constructor.
  - reflexivity.
  - reflexivity.
Defined.

(** ** Longer hours *)




Lemma no_longer_terms (apps apps' : list Appliance) :
  Forall2 no_longer apps apps' ->
  Forall2 term_le (map (fun app => power app * hours app) apps)
                  (map (fun app => power app * hours app) apps').
Proof.
  induction 1 as [|a a' l l' (Ha & Ha' & Hp & Hh) _ IH]; [constructor|].
  cbn [map]. constructor; [|exact IH].
  repeat split; try (apply well_formed_term; assumption).
  unfold well_formed in Ha, Ha'.
  apply andb_true_iff in Ha as [Hpa Hha], Ha' as [Hpa' Hha'].
  rewrite Hp. apply fl_mul_mono; try assumption.
Qed.

(** Appliance lists in that order have demands in that order. *)
Lemma no_longer_demand (apps apps' : list Appliance) :
  Forall2 no_longer apps apps' ->
  exists d d', calculate_daily_energy_demand apps = Ok d
    /\ calculate_daily_energy_demand apps' = Ok d'
    /\ (0 <=? to_float d) = true
    /\ (to_float d <=? to_float d') = true
    /\ py_le d d' = true.
Proof.
  intros H. pose proof (no_longer_terms _ _ H) as Ht.
  destruct H as [|a a' l l' Ha Hl].
  - exists (VInt 0), (VInt 0). repeat split; reflexivity.
  - rewrite !daily_energy_demand_floats by discriminate.
    pose proof (fold_add_mono _ _ Ht 0 0) as Hm.
    destruct Hm as (H0 & H0' & Hle); [repeat split; reflexivity|].
    do 2 eexists. split; [reflexivity|]. split; [reflexivity|].
    cbn [to_float py_le]. repeat split; assumption.
Qed.





(** ** Scenarios and sliders *)

Lemma within_day_real slider label value :
  within_day slider -> nonneg_real (slider label 0 24 value 0.5) = true.
Proof.
  intros H. destruct (H label value) as [H0 H24].
  apply (fl_le_real _ 24); [assumption|assumption|reflexivity].
Qed.

Lemma custom_no_longer slider (apps : list Appliance) :
  within_day slider ->
  Forall (fun a => nonneg_real (power a) = true) apps ->
  Forall2 no_longer (custom_appliances slider apps)
                    (map (fun a => with_hours a 24) apps).
Proof.
  intros Hs. induction 1 as [|a l Ha _ IH]; [constructor|].
  cbn [custom_appliances map]. constructor; [|exact IH].
  pose proof (within_day_real slider (name a ++ " Hours")%string (hours a) Hs) as Hr.
  destruct (Hs (name a ++ " Hours")%string (hours a)) as [_ H24].
  unfold no_longer, well_formed, with_hours. cbn [power hours].
  rewrite Ha, Hr. repeat split; assumption.
Qed.

Lemma scenario_cases (scenario : string) :
  let apps := scenario_appliances scenario in
  Forall (fun a => nonneg_real (power a) = true) apps
  /\ exists top, calculate_daily_energy_demand (map (fun a => with_hours a 24) apps)
                 = Ok (VFloat top)
                 /\ (top <=? 24000) = true.
Proof.
  unfold scenario_appliances.
  destruct (String.eqb scenario "Base 500 W");
    [|destruct (String.eqb scenario "Moderate 750 W")];
    (split; [repeat constructor|]); eexists; (split; [vm_compute; reflexivity|]);
    reflexivity.
Qed.

(** X15.  Whatever scenario is selected and however the sliders are set, the
    daily demand is a real number between 0 and 24000 Wh, and every quantity
    of the main calculations is a number [>= 0] (none is NaN). *)
Theorem dashboard_kpis_nonneg
    (slider : string -> float -> float -> float -> float -> float)
    (scenario : string) (tank_liters : float) :
  within_day slider ->
  nonneg_real tank_liters = true ->
  exists k,
    main_calculations (custom_appliances slider (scenario_appliances scenario))
                      tank_liters = Ok k
    /\ py_le (daily_demand_wh k) (VFloat 24000) = true
    /\ nonneg_value (daily_demand_wh k) = true
    /\ nonneg_value (methanol_per_day k) = true
    /\ nonneg_value (autonomy_days k) = true
    /\ nonneg_value (battery_hours k) = true
    /\ nonneg_value (battery_energy_wh k) = true
    /\ nonneg_value (fuel_cell_energy_wh k) = true
    /\ nonneg_value (efficiency_pct k) = true
    /\ nonneg_value (battery_deficit k) = true
    /\ nonneg_value (charge_time k) = true.
Proof.
  intros Hs Htank.
  destruct (scenario_cases scenario) as (Hp & top & Ht & Htop). cbv zeta in *.
  pose proof (custom_no_longer slider _ Hs Hp) as Hl.
  destruct (no_longer_demand _ _ Hl) as (d & d' & Hd & Hd' & Hn & Hle & Hpy).
  rewrite Ht in Hd'. injection Hd' as <-. cbn [to_float] in Hle.
  assert (H24 : (to_float d <=? 24000) = true)
    by (eapply fl_leb_trans; eassumption).
  assert (Hr : nonneg_real (to_float d) = true)
    by (apply (fl_le_real _ 24000); [assumption|assumption|reflexivity]).
  assert (Hdv : nonneg_value d = true).
  { destruct d as [z|f]; [|exact Hn].
    destruct (scenario_appliances scenario) eqn:E.
    - injection Hd as <-. reflexivity.
    - cbn [custom_appliances map] in Hd.
      rewrite daily_energy_demand_floats in Hd by discriminate. discriminate. }
  destruct (kpis_nonneg _ _ _ Htank Hd Hr Hdv) as (k & Hk & Hkd & H).
  exists k. split; [exact Hk|]. split; [|exact H].
  rewrite Hkd. destruct d; exact H24.
Qed.

Lemma dashboard_kpis_nonneg_witness :
  exists k,
    main_calculations
      (custom_appliances (fun _ _ _ _ _ => 2.5) (scenario_appliances "Peak 1000 W"))
      20 = Ok k
    /\ py_le (daily_demand_wh k) (VFloat 24000) = true
    /\ nonneg_value (daily_demand_wh k) = true
    /\ nonneg_value (methanol_per_day k) = true
    /\ nonneg_value (autonomy_days k) = true
    /\ nonneg_value (battery_hours k) = true
    /\ nonneg_value (battery_energy_wh k) = true
    /\ nonneg_value (fuel_cell_energy_wh k) = true
    /\ nonneg_value (efficiency_pct k) = true
    /\ nonneg_value (battery_deficit k) = true
    /\ nonneg_value (charge_time k) = true.
Proof.
  apply (dashboard_kpis_nonneg (fun _ _ _ _ _ => 2.5) "Peak 1000 W" 20).
  - intros label value. split; reflexivity.
  - reflexivity.
Defined.

(** ** An appliance that is switched off *)

Section Zeros.
Local Open Scope Z_scope.

(** Adding a non-negative float never produces a negative zero, unless the
    sum started from one. *)
Lemma SFadd_keeps_plain x t :
  SFnonneg x = true -> SFnonneg t = true ->
  x <> S754_zero true -> SFadd prec emax x t <> S754_zero true.
Proof.
  intros Sx St Hx.
  destruct x as [sx|sx| |sx mx ex]; try discriminate;
  destruct t as [st|st| |st mt et]; try discriminate;
  cbn [SFnonneg] in Sx, St;
  try (apply negb_true_iff in Sx; subst sx);
  try (apply negb_true_iff in St; subst st);
  try (cbn; discriminate).
  - destruct sx; [congruence|]. destruct st; cbn; discriminate.
  - cbn [SFadd cond_Zopp].
    destruct (shl_align mx ex _) as [ax ez1].
    destruct (shl_align mt et _) as [ay ez2].
    cbn [fst binary_normalize Z.add].
    pose proof (binary_round_sign false (ax + ay) (Z.min ex et)) as Hs.
    intros E. rewrite E in Hs. cbn in Hs. discriminate.
Qed.

(** Adding a zero of either sign changes nothing, unless the sum is a
    negative zero. *)
Lemma SFadd_zero_r x s :
  x <> S754_zero true -> SFadd prec emax x (S754_zero s) = x.
Proof.
  intros Hx. destruct x as [sx|sx| |sx mx ex]; try reflexivity.
  destruct sx; [congruence|]. destruct s; reflexivity.
Qed.
End Zeros.

Lemma fold_add_plain (ts : list float) (a : float) :
  Forall (fun t => (0 <=? t) = true) ts ->
  (0 <=? a) = true -> Prim2SF a <> S754_zero true ->
  Prim2SF (fold_left PrimFloat.add ts a) <> S754_zero true.
Proof.
  intros H. revert a. induction H as [|t ts Ht _ IH]; intros a Ha Hp; [exact Hp|].
  cbn [fold_left]. apply IH.
  - apply fl_add_nonneg; assumption.
  - rewrite add_spec. rewrite leb_zero_spec in Ha, Ht.
    apply SFadd_keeps_plain; assumption.
Qed.

Lemma fl_add_zero_keep (x z : float) :
  Prim2SF x <> S754_zero true -> SFis_zero (Prim2SF z) = true -> x + z = x.
Proof.
  intros Hx Hz. apply Prim2SF_inj. rewrite add_spec.
  destruct (Prim2SF z) as [s|s| |s m e]; try discriminate.
  apply SFadd_zero_r, Hx.
Qed.

(** X16.  An appliance that runs zero hours counts as if it were not in the list,
    wherever it stands, as long as another appliance is. *)
Theorem switched_off_appliance_is_absent
    (before after : list Appliance) (app : Appliance) :
  Forall (fun a => well_formed a = true) before ->
  is_real (power app) = true ->
  before ++ after <> [] ->
  calculate_daily_energy_demand (before ++ with_hours app 0 :: after)
  = calculate_daily_energy_demand (before ++ after).
Proof.
  intros Hwf Hp Hne. unfold calculate_daily_energy_demand, py_sum. f_equal.
  rewrite !map_app, !fold_left_app. cbn [map fold_left with_hours power hours].
  assert (Hz : SFis_zero (Prim2SF (power app * 0)) = true)
    by (apply fl_mul_zero_r; [exact Hp|reflexivity]).
  destruct before as [|b before].
  - cbn [map fold_left]. destruct after as [|a after]; [exfalso; apply Hne; reflexivity|].
    cbn [map fold_left py_add to_float]. change (float_of_int 0) with 0.
    rewrite (fl_zero_add _ Hz). reflexivity.
  - f_equal.
    pose proof (py_sum_floats (map (fun a => power a * hours a) (b :: before))) as Hs.
    unfold py_sum in Hs. rewrite map_map in Hs. rewrite Hs by discriminate.
    cbn [py_add to_float]. f_equal. apply fl_add_zero_keep; [|exact Hz].
    apply fold_add_plain; [|reflexivity|discriminate].
    apply Forall_map. revert Hwf. apply Forall_impl. exact well_formed_term.
Qed.

Lemma switched_off_appliance_is_absent_witness :
  calculate_daily_energy_demand
    [mkAppliance "laptop" 95 4; with_hours (mkAppliance "kettle" 300 0.5) 0;
     mkAppliance "radio" 5 3]
  = calculate_daily_energy_demand
      [mkAppliance "laptop" 95 4; mkAppliance "radio" 5 3].
Proof.
  apply (switched_off_appliance_is_absent
           [mkAppliance "laptop" 95 4] [mkAppliance "radio" 5 3]
           (mkAppliance "kettle" 300 0.5)).
  - repeat constructor.
  - reflexivity.
  - discriminate.
Defined.
